(** * PyEcore: the command framework and the instance layer

    A shallow embedding of [pyecore/commands.py] and of the parts of
    [pyecore/ecore.py] the commands run on, with the properties of the
    specification stated over it.

    Conventions.
    - A Python object with identity lives in a store ([Heap]) and is named by
      its location; [VRef l] is a reference to it.
    - A Python call that can raise is a computation in the monad [M]: it
      returns the store it leaves behind together with either the exception
      or the result.  The store survives an exception, as it does in Python.
    - Python integers are [Z]; a list index follows Python's rules for
      negative and out-of-range positions. *)

From Stdlib Require Import ZArith String List Bool Lia.
From stdpp Require Import base option list gmap strings.

#[local] Open Scope string_scope.
#[local] Open Scope list_scope.
#[local] Open Scope Z_scope.

(** ** Exceptions and the state-and-exception monad *)

Inductive PyError :=
  | AttributeError
  | BadValueError
  | NameError
  | ValueError
  | KeyError
  | IndexError
  | TypeError.

#[global] Instance PyError_eq_dec : EqDecision PyError.
Proof. solve_decision. Defined.

Module Py.

(** A computation on a state [S]: the state after it, and its outcome. *)
Definition M (S A : Type) : Type := S -> S * (PyError + A).

Definition ret {S A} (a : A) : M S A := fun s => (s, inr a).

Definition raise {S A} (e : PyError) : M S A := fun s => (s, inl e).

Definition bind {S A B} (m : M S A) (k : A -> M S B) : M S B :=
  fun s => match m s with
           | (s', inr a) => k a s'
           | (s', inl e) => (s', inl e)
           end.

Definition get {S} : M S S := fun s => (s, inr s).

Definition put {S} (s' : S) : M S unit := fun _ => (s', inr tt).

Definition modify {S} (f : S -> S) : M S unit := fun s => (f s, inr tt).

(** [try: m except e: h] *)
Definition catch {S A} (m : M S A) (e : PyError) (h : M S A) : M S A :=
  fun s => match m s with
           | (s', inl e') => if decide (e' = e) then h s' else (s', inl e')
           | r => r
           end.

(** Lifting a pure fallible result. *)
Definition lift {S A} (r : PyError + A) : M S A := fun s => (s, r).

End Py.

Notation "'let*' x := m 'in' k" := (Py.bind m (fun x => k))
  (at level 10, x name, m at level 100, k at level 200,
   format "'[v' 'let*'  x  :=  m  'in' '/' k ']'").
Notation "m ;; k" := (Py.bind m (fun _ => k))
  (at level 100, k at level 200, right associativity,
   format "'[v' m  ;; '/' k ']'").

(** ** Values *)

Definition loc := nat.

(** [EEnumLiteral(value, name)]; [lit_id] stands for the identity of the
    literal object. *)
Record EEnumLiteral := mkLiteral {
  lit_id : nat;
  lit_value : Z;
  lit_name : string
}.

#[global] Instance EEnumLiteral_eq_dec : EqDecision EEnumLiteral.
Proof. solve_decision. Defined.

(** What a feature slot, a command field or a collection can hold.
    [VRef l] is a reference to the store: to a model element or to a typed
    collection.  [VMeta n] is a metamodel element (an instance of one of the
    static classes of [ecore.py], named [n]) met as a value. *)
Inductive Value :=
  | VNone
  | VStr (s : string)
  | VBool (b : bool)
  | VInt (n : Z)
  | VLit (l : EEnumLiteral)
  | VRef (l : loc)
  | VMeta (n : string).

#[global] Instance Value_eq_dec : EqDecision Value.
Proof. solve_decision. Defined.

Definition Value_code (v : Value)
  : unit + string + bool + Z + (nat * Z * string) + nat + string :=
  match v with
  | VNone => inl (inl (inl (inl (inl (inl tt)))))
  | VStr s => inl (inl (inl (inl (inl (inr s)))))
  | VBool b => inl (inl (inl (inl (inr b))))
  | VInt n => inl (inl (inl (inr n)))
  | VLit l => inl (inl (inr (lit_id l, lit_value l, lit_name l)))
  | VRef l => inl (inr l)
  | VMeta n => inr n
  end.

Definition Value_decode
    (c : unit + string + bool + Z + (nat * Z * string) + nat + string) : Value :=
  match c with
  | inl (inl (inl (inl (inl (inl _))))) => VNone
  | inl (inl (inl (inl (inl (inr s))))) => VStr s
  | inl (inl (inl (inl (inr b)))) => VBool b
  | inl (inl (inl (inr n))) => VInt n
  | inl (inl (inr (i, v, n))) => VLit (mkLiteral i v n)
  | inl (inr l) => VRef l
  | inr n => VMeta n
  end.

#[global] Instance Value_countable : Countable Value.
Proof.
  apply (inj_countable' Value_code Value_decode).
  intros [| | | | [] | |]; reflexivity.
Defined.

(** Python's [==] and hashing identify [True] with [1] and [False] with [0];
    objects without [__eq__] compare by identity.  [hash_key v] is the
    representative under which [v] is found in a [dict] or a [set]. *)
Definition hash_key (v : Value) : Value :=
  match v with
  | VBool b => VInt (Z.b2z b)
  | _ => v
  end.

Definition py_eqb (a b : Value) : bool := bool_decide (hash_key a = hash_key b).

(** ** Python lists *)

Section PyList.
Context {A : Type}.

(** The position a subscript [l[i]] denotes, if any. *)
Definition subscript (i : Z) (n : nat) : option nat :=
  let j := if i <? 0 then i + Z.of_nat n else i in
  if (0 <=? j) && (j <? Z.of_nat n) then Some (Z.to_nat j) else None.

(** [l[i]] *)
Definition py_getitem (l : list A) (i : Z) : PyError + A :=
  match subscript i (length l) with
  | Some k => match l !! k with Some x => inr x | None => inl IndexError end
  | None => inl IndexError
  end.

(** [del l[i]] *)
Definition py_delitem (l : list A) (i : Z) : PyError + list A :=
  match subscript i (length l) with
  | Some k => inr (delete k l)
  | None => inl IndexError
  end.

(** [l.insert(i, x)]: a position left of the list is clamped to its
    head, one right of it to its tail. *)
Definition py_insert (i : Z) (x : A) (l : list A) : list A :=
  let n := Z.of_nat (length l) in
  let j := if i <? 0 then Z.max 0 (i + n) else Z.min i n in
  take (Z.to_nat j) l ++ x :: drop (Z.to_nat j) l.

(** [l.pop(i)] *)
Definition py_pop (l : list A) (i : Z) : PyError + (A * list A) :=
  match subscript i (length l) with
  | Some k => match l !! k with
              | Some x => inr (x, delete k l)
              | None => inl IndexError
              end
  | None => inl IndexError
  end.

(** The first position whose element satisfies [p]. *)
Fixpoint find_index (p : A -> bool) (l : list A) : option nat :=
  match l with
  | [] => None
  | x :: l' => if p x then Some 0%nat else S <$> find_index p l'
  end.

End PyList.

(** [x in l], [l.index(x)] and [l.remove(x)] on a list of values. *)
Definition py_in (x : Value) (l : list Value) : bool :=
  existsb (py_eqb x) l.

Definition py_index (x : Value) (l : list Value) : PyError + Z :=
  match find_index (py_eqb x) l with
  | Some k => inr (Z.of_nat k)
  | None => inl ValueError
  end.

Definition py_remove (x : Value) (l : list Value) : PyError + list Value :=
  match find_index (py_eqb x) l with
  | Some k => inr (delete k l)
  | None => inl ValueError
  end.

(** ** [ordered_set.OrderedSet] and its two patched methods *)

Module ordered_set.

(** The set keeps its elements in the list [items] and the position of each
    in the dictionary [map]. *)
Record OrderedSet := mkOrderedSet {
  items : list Value;
  map : gmap Value Z
}.

Definition empty : OrderedSet := mkOrderedSet [] ∅.

(** [key in self.map] *)
Definition mem (key : Value) (m : gmap Value Z) : bool :=
  bool_decide (is_Some (m !! hash_key key)).

Definition contains (key : Value) (s : OrderedSet) : bool := mem key (map s).

Definition len (s : OrderedSet) : Z := Z.of_nat (length (items s)).

(** [OrderedSet.add] of the package: a present key is left where it is. *)
Definition add (key : Value) (s : OrderedSet) : OrderedSet :=
  if mem key (map s) then s
  else mkOrderedSet (items s ++ [key])
                    (<[hash_key key := Z.of_nat (length (items s))]> (map s)).

(** [OrderedSet.index] of the package: [self.map[key]]. *)
Definition index (key : Value) (s : OrderedSet) : PyError + Z :=
  match map s !! hash_key key with
  | Some i => inr i
  | None => inl KeyError
  end.

(** [for k, v in self.map.items(): if v >= index: self.map[k] = v + d] *)
Definition shift_from (index d : Z) (m : gmap Value Z) : gmap Value Z :=
  (fun v => if index <=? v then v + d else v) <$> m.

(** commands.py, [insert]. *)
Definition insert (index : Z) (key : Value) (s : OrderedSet) : OrderedSet :=
  if mem key (map s) then s
  else
    let items1 := py_insert index key (items s) in
    let map1 := <[hash_key key := index]> (map s) in
    mkOrderedSet items1 (shift_from index 1 map1).

(** commands.py, the local function [remove_index] of [pop]. *)
Definition remove_index (i : Z) : Py.M OrderedSet Value :=
  let* s := Py.get in
  let* elem := Py.lift (py_getitem (items s) i) in
  let* items1 := Py.lift (py_delitem (items s) i) in
  Py.put (mkOrderedSet items1 (map s)) ;;
  (if mem elem (map s)
   then Py.put (mkOrderedSet items1 (delete (hash_key elem) (map s)))
   else Py.raise KeyError) ;;
  Py.ret elem.

(** commands.py, [pop]. *)
Definition pop (index : option Z) : Py.M OrderedSet Value :=
  let* s := Py.get in
  match items s with
  | [] => Py.raise KeyError
  | _ =>
      match index with
      | None => remove_index (-1)
      | Some i =>
          let* elem := remove_index i in
          Py.modify (fun s' => mkOrderedSet (items s') (shift_from i (-1) (map s'))) ;;
          Py.ret elem
      end
  end.

(** [MutableSet.remove] over [OrderedSet.discard] of the package:
    [i = self.map[key]; del self.items[i]; del self.map[key]], and the
    positions from [i] on move down by one. *)
Definition remove (key : Value) : Py.M OrderedSet unit :=
  let* s := Py.get in
  if mem key (map s) then
    match map s !! hash_key key with
    | Some i =>
        let* items1 := Py.lift (py_delitem (items s) i) in
        Py.put (mkOrderedSet items1
                  (shift_from i (-1) (delete (hash_key key) (map s))))
    | None => Py.raise KeyError
    end
  else Py.raise KeyError.

(** The dictionary agrees with the list: [map[x] = i] exactly when
    [items[i]] is [x]. *)
Definition consistent (s : OrderedSet) : Prop :=
  forall (x : Value) (i : Z),
    map s !! x = Some i <->
    exists k : nat, i = Z.of_nat k /\ hash_key <$> (items s !! k) = Some x.

End ordered_set.

Abbreviation OrderedSet := ordered_set.OrderedSet.

(** ** The metamodel (ecore.py) *)

(** The host types a data type can wrap, and [EObject] itself, which a
    reference can name directly as its type. *)
Inductive PyType := PyStr | PyBool | PyInt | PyDict | PyEObject.

(** A feature's [eType].  A class is named by the identity [cid] of its
    [EClass] object: types are compared with [is]. *)
Inductive EClassifier :=
  | EEnum (ename : string) (eLiterals : list EEnumLiteral) (enum_default : Value)
  | EDataType (dname : string) (host : PyType) (dt_default : Value)
              (from_string : string -> Value)
  | EClassRef (c : nat)
  | PyClass (t : PyType).

(** The other end of a bidirectional reference.  The code reads two things
    of [feat.eOpposite]: its [name] and its [many]. *)
Record EOpposite := mkOpposite {
  opp_name : string;
  opp_upperBound : Z
}.

Inductive FeatureKind :=
  | EAttribute (default_value : Value)
  | EReference (containment : bool) (eOpposite : option EOpposite).

(** [fid] stands for the identity of the feature object. *)
Record EStructuralFeature := mkFeature {
  fid : nat;
  name : string;
  eType : EClassifier;
  lowerBound : Z;
  upperBound : Z;
  ordered : bool;
  unique : bool;
  kind : FeatureKind
}.

(** [ETypedElement.many] *)
Definition many_of (upper : Z) : bool := (1 <? upper) || (upper <? 0).

Definition many (f : EStructuralFeature) : bool := many_of (upperBound f).

Definition opp_many (o : EOpposite) : bool := many_of (opp_upperBound o).

Definition is_EReference (f : EStructuralFeature) : bool :=
  match kind f with EReference _ _ => true | EAttribute _ => false end.

Definition containment_of (f : EStructuralFeature) : bool :=
  match kind f with EReference c _ => c | EAttribute _ => false end.

Definition eOpposite_of (f : EStructuralFeature) : option EOpposite :=
  match kind f with EReference _ o => o | EAttribute _ => None end.

(** [feature.default_value].  An attribute carries its own; on a reference
    the lookup ends at the class attribute [ETypedElement.default_value],
    which is the meta-attribute object declared at ecore.py:620. *)
Definition feature_default_value (f : EStructuralFeature) : Value :=
  match kind f with
  | EAttribute d => d
  | EReference _ _ => VMeta "ETypedElement.default_value"
  end.

(** [hasattr(eType, 'default_value')] and its value. *)
Definition type_default_value (t : EClassifier) : option Value :=
  match t with
  | EEnum _ _ d => Some d
  | EDataType _ _ d _ => Some d
  | EClassRef _ | PyClass _ => None
  end.

(** An [EClass].  [eSuperTypes] is acyclic, so a class is given with its
    supertypes unfolded; [cid] keeps the identity of each class object. *)
#[local] Unset Elimination Schemes.
Inductive EClass := mkEClass {
  cid : nat;
  cname : string;
  abstract : bool;
  eSuperTypes : list EClass;
  eStructuralFeatures : list EStructuralFeature
}.
#[local] Set Elimination Schemes.

(** A Python [set] of classes, in the order its members were added. *)
Definition class_in (c : EClass) (l : list EClass) : bool :=
  existsb (fun x => Nat.eqb (cid x) (cid c)) l.

Definition class_add (c : EClass) (l : list EClass) : list EClass :=
  if class_in c l then l else l ++ [c].

Definition class_union (l1 l2 : list EClass) : list EClass :=
  fold_left (fun acc c => class_add c acc) l2 l1.

(** [EClass.eAllSuperTypes(building)] *)
Fixpoint eAllSuperTypes (c : EClass) (building : list EClass) {struct c}
  : list EClass :=
  match c with
  | mkEClass _ _ _ supers _ =>
      match supers with
      | [] => []
      | _ =>
          let stypes :=
            fold_left (fun acc x => if class_in x building then acc
                                     else class_add x acc) supers [] in
          (fix loop (l stypes : list EClass) {struct l} : list EClass :=
             match l with
             | [] => stypes
             | ec :: l' => loop l' (class_union stypes (eAllSuperTypes ec stypes))
             end) supers stypes
      end
  end.

(** [EClass.eAllStructuralFeatures] *)
Definition eAllStructuralFeatures (c : EClass) : list EStructuralFeature :=
  eStructuralFeatures c
  ++ concat (List.map eStructuralFeatures (eAllSuperTypes c [])).

(** [EClass.findEStructuralFeature] *)
Definition findEStructuralFeature (c : EClass) (n : string)
  : option EStructuralFeature :=
  List.find (fun f => String.eqb (name f) n) (eAllStructuralFeatures c).

(** ** The store: model elements and typed collections *)

(** An instance of a dynamic [EClass]: its class, its attribute dictionary
    and the bookkeeping attributes of [EObject.__subinit__]. *)
Record EObject := mkEObject {
  eClass : EClass;
  slots : gmap string Value;
  _container : Value;
  _containment_feature : option EStructuralFeature;
  _isset : list string;
  _isready : bool
}.

(** The three flavours of [ECollection]: [EList] over [list], [ESet] over
    [set] (kept in insertion order) and [EOrderedSet] over [OrderedSet]. *)
Inductive CollData :=
  | EList (l : list Value)
  | ESet (l : list Value)
  | EOrderedSet (s : OrderedSet).

Record ECollection := mkECollection {
  _owner : loc;
  _efeature : EStructuralFeature;
  data : CollData
}.

Inductive HObj :=
  | HInst (o : EObject)
  | HColl (c : ECollection).

Abbreviation Heap := (gmap loc HObj).
Abbreviation HM := (Py.M (gmap loc HObj)).

Definition get_inst (l : loc) : HM EObject :=
  fun h => match h !! l with
           | Some (HInst o) => (h, inr o)
           | _ => (h, inl AttributeError)
           end.

Definition get_coll (l : loc) : HM ECollection :=
  fun h => match h !! l with
           | Some (HColl c) => (h, inr c)
           | _ => (h, inl AttributeError)
           end.

Definition set_data (l : loc) (d : CollData) : HM unit :=
  let* c := get_coll l in
  Py.modify (fun h : Heap => <[l := HColl (mkECollection (_owner c) (_efeature c) d)]> h).

(** [isinstance(v, EObject)], [isinstance(v, ECollection)] and truthiness. *)
Definition is_EObject (h : Heap) (v : Value) : bool :=
  match v with
  | VRef l => match h !! l with Some (HInst _) => true | _ => false end
  | VLit _ | VMeta _ => true
  | _ => false
  end.

Definition is_ECollection (h : Heap) (v : Value) : bool :=
  match v with
  | VRef l => match h !! l with Some (HColl _) => true | _ => false end
  | _ => false
  end.

Definition data_len (d : CollData) : Z :=
  match d with
  | EList l | ESet l => Z.of_nat (length l)
  | EOrderedSet s => ordered_set.len s
  end.

Definition truthy (h : Heap) (v : Value) : bool :=
  match v with
  | VNone => false
  | VStr s => negb (String.eqb s "")
  | VBool b => b
  | VInt n => negb (n =? 0)
  | VLit _ | VMeta _ => true
  | VRef l => match h !! l with
              | Some (HColl c) => negb (data_len (data c) =? 0)
              | _ => true
              end
  end.

(** Python's [isinstance(v, t)] on a host type. *)
Definition py_isinstance (h : Heap) (v : Value) (t : PyType) : bool :=
  match t, v with
  | PyStr, VStr _ => true
  | PyBool, VBool _ => true
  | PyInt, (VInt _ | VBool _) => true
  | PyEObject, _ => is_EObject h v
  | _, _ => false
  end.

(** [EEnum.__contains__] *)
Definition EEnum_contains (eLiterals : list EEnumLiteral) (key : Value) : bool :=
  match key with
  | VLit l => bool_decide (l ∈ eLiterals)
  | VStr s => existsb (fun l => String.eqb (lit_name l) s) eLiterals
  | _ => false
  end.

(** [EEnum.getEEnumLiteral(name, value)]: by name if [name] is true, by
    value otherwise; [None] if there is no such literal. *)
Definition getEEnumLiteral (eLiterals : list EEnumLiteral) (name : option string)
    (value : Z) : option EEnumLiteral :=
  let by_name :=
    match name with
    | Some n => if String.eqb n "" then None else Some n
    | None => None
    end in
  match by_name with
  | Some n => List.find (fun lit => String.eqb (lit_name lit) n) eLiterals
  | None => List.find (fun lit => lit_value lit =? value) eLiterals
  end.

(** [obj.eClass] of a model element.  Literals and metamodel elements are
    instances of the metaclasses of ecore.py, which are none of the classes
    a model is typed by here. *)
Definition eClass_of (h : Heap) (v : Value) : option EClass :=
  match v with
  | VRef l => match h !! l with Some (HInst o) => Some (eClass o) | _ => None end
  | _ => None
  end.

Definition cid_in (c : nat) (l : list EClass) : bool :=
  existsb (fun x => Nat.eqb (cid x) c) l.

Module EcoreUtils.

(** ecore.py, [EcoreUtils.isinstance] *)
Definition isinstance (h : Heap) (obj : Value) (_type : EClassifier) : bool :=
  match obj with
  | VNone => true
  | _ =>
      match _type with
      | EEnum _ eLiterals _ => EEnum_contains eLiterals obj
      | EDataType _ t _ _ => py_isinstance h obj t
      | EClassRef c =>
          if is_EObject h obj then
            match eClass_of h obj with
            | Some k => Nat.eqb (cid k) c || cid_in c (eAllSuperTypes k [])
            | None => false
            end
          else false
      | PyClass t => py_isinstance h obj t
      end
  end.

(** [obj.eContainer()] of a model element of the store.  The container of
    a literal or of a metamodel element is not part of the store; nothing
    else has the method. *)
Definition eContainer (obj : Value) : HM Value :=
  match obj with
  | VRef l => let* o := get_inst l in Py.ret (_container o)
  | _ => Py.raise AttributeError
  end.

(** ecore.py, [EcoreUtils.getRoot].  The loop runs as long as there is a
    container; [fuel] bounds the number of its rounds, and the answer is
    [None] of the option type when they are used up. *)
Fixpoint getRoot_loop (fuel : nat) (previous : Value) : HM (option Value) :=
  match fuel with
  | O => Py.ret None
  | S fuel' =>
      let* container := eContainer previous in
      if bool_decide (container = VNone) then Py.ret (Some previous)
      else getRoot_loop fuel' container
  end.

Definition getRoot (fuel : nat) (obj : Value) : HM (option Value) :=
  let* h := Py.get in
  if negb (truthy h obj) then Py.ret (Some VNone)
  else getRoot_loop fuel obj.

End EcoreUtils.

(** ** Attribute access below the instance layer *)

(** [object.__getattribute__(v, n)]: the attribute dictionary of a model
    element; nothing else has a feature slot. *)
Definition raw_getattribute (v : Value) (n : string) : HM Value :=
  match v with
  | VRef l =>
      let* o := get_inst l in
      match slots o !! n with
      | Some x => Py.ret x
      | None => Py.raise AttributeError
      end
  | _ => Py.raise AttributeError
  end.

Definition set_slot (n : string) (x : Value) (o : EObject) : EObject :=
  mkEObject (eClass o) (<[n := x]> (slots o)) (_container o)
            (_containment_feature o) (_isset o) (_isready o).

(** [object.__setattr__(v, n, x)].  A write on a collection object, a
    literal or a metamodel element succeeds and is not tracked; the builtin
    values take no attributes. *)
Definition raw_setattr (v : Value) (n : string) (x : Value) : HM unit :=
  fun h =>
    match v with
    | VRef l =>
        match h !! l with
        | Some (HInst o) => (<[l := HInst (set_slot n x o)]> h, inr tt)
        | Some (HColl _) => (h, inr tt)
        | None => (h, inl AttributeError)
        end
    | VLit _ | VMeta _ => (h, inr tt)
    | _ => (h, inl AttributeError)
    end.

(** [v._container = c; v._containment_feature = f] *)
Definition set_container (v c : Value) (f : option EStructuralFeature) : HM unit :=
  fun h =>
    match v with
    | VRef l =>
        match h !! l with
        | Some (HInst o) =>
            (<[l := HInst (mkEObject (eClass o) (slots o) c f (_isset o) (_isready o))]> h,
             inr tt)
        | Some (HColl _) => (h, inr tt)
        | None => (h, inl AttributeError)
        end
    | VLit _ | VMeta _ => (h, inr tt)
    | _ => (h, inl AttributeError)
    end.

(** [self._isset.append(n)] *)
Definition mark_isset (self : loc) (n : string) : HM unit :=
  let* o := get_inst self in
  Py.modify (fun h : Heap =>
    <[self := HInst (mkEObject (eClass o) (slots o) (_container o)
                       (_containment_feature o) (_isset o ++ [n]) (_isready o))]> h).

(** ** Typed collections (ecore.py, [ECollection] and its subclasses) *)

Module ECollectionOps.

(** [ECollection.create]: the flavour follows [(ordered, unique)]. *)
Definition new_data (feature : EStructuralFeature) : CollData :=
  if ordered feature && unique feature then EOrderedSet ordered_set.empty
  else if ordered feature && negb (unique feature) then EList []
  else if unique feature then ESet []
  else EList [].

Definition create (owner : loc) (feature : EStructuralFeature) : HM Value :=
  fun h =>
    let l := fresh (dom h) in
    (<[l := HColl (mkECollection owner feature (new_data feature))]> h,
     inr (VRef l)).

(** [ECollection.check] *)
Definition check (c : ECollection) (value : Value) : HM unit :=
  let* h := Py.get in
  if EcoreUtils.isinstance h value (eType (_efeature c)) then Py.ret tt
  else Py.raise BadValueError.

(** [super().append(value)] / [super().add(value)] *)
Definition data_append (value : Value) (d : CollData) : CollData :=
  match d with
  | EList l => EList (l ++ [value])
  | ESet l => if py_in value l then ESet l else ESet (l ++ [value])
  | EOrderedSet s => EOrderedSet (ordered_set.add value s)
  end.

(** [super().remove(value)] *)
Definition data_remove (value : Value) (d : CollData) : CollData * (PyError + unit) :=
  match d with
  | EList l =>
      match py_remove value l with
      | inr l' => (EList l', inr tt)
      | inl e => (d, inl e)
      end
  | ESet l =>
      match py_remove value l with
      | inr l' => (ESet l', inr tt)
      | inl _ => (d, inl KeyError)
      end
  | EOrderedSet s =>
      let (s', r) := ordered_set.remove value s in (EOrderedSet s', r)
  end.

(** Running an operation of the underlying container on the collection
    stored at [cl]. *)
Definition on_data {A} (cl : loc) (op : CollData -> CollData * (PyError + A))
  : HM A :=
  let* c := get_coll cl in
  let (d', r) := op (data c) in
  set_data cl d' ;;
  Py.lift r.

(** [append(value, False)] and [remove(value, False)]: the element is
    checked and the container changed, nothing else is maintained. *)
Definition append_quiet (cl : loc) (value : Value) : HM unit :=
  let* c := get_coll cl in
  check c value ;;
  on_data cl (fun d => (data_append value d, inr tt)).

Definition remove_quiet (cl : loc) (value : Value) : HM unit :=
  on_data cl (data_remove value).

(** A method call [recv.append(x, False)] / [recv.remove(x, False)] on
    whatever [recv] is. *)
Definition call_append_quiet (recv x : Value) : HM unit :=
  let* h := Py.get in
  match recv with
  | VRef cl => if is_ECollection h recv then append_quiet cl x
               else Py.raise AttributeError
  | _ => Py.raise AttributeError
  end.

Definition call_remove_quiet (recv x : Value) : HM unit :=
  let* h := Py.get in
  match recv with
  | VRef cl => if is_ECollection h recv then remove_quiet cl x
               else Py.raise AttributeError
  | _ => Py.raise AttributeError
  end.

(** [all(self.check(x) for x in values)]: the generator is consumed until
    a result is false.  What [check] returns is [None]. *)
Fixpoint all_check (c : ECollection) (values : list Value) : HM bool :=
  match values with
  | [] => Py.ret true
  | x :: rest =>
      check c x ;;
      let result := VNone in
      let* h := Py.get in
      if truthy h result then all_check c rest else Py.ret false
  end.

(** [super().extend(sublist)] on a list, and [super().update(others)] on
    an [ESet], where it is [set.update] and adds the elements one by one.
    An [EOrderedSet] is not extended this way, see [update_ordered]. *)
Definition data_extend (values : list Value) (d : CollData) : CollData :=
  match d with
  | EList l => EList (l ++ values)
  | ESet l => fold_left (fun d x => data_append x d) values (ESet l)
  | EOrderedSet s => EOrderedSet s
  end.

(** [super().__setitem__(i, y)] on a list *)
Definition data_setitem (i : Z) (y : Value) (d : CollData)
  : CollData * (PyError + unit) :=
  match d with
  | EList l =>
      match subscript i (length l) with
      | Some k => (EList (<[k := y]> l), inr tt)
      | None => (d, inl IndexError)
      end
  | _ => (d, inl TypeError)
  end.

Section WithGetattr.

(** [Core.getattr], which [append] reaches through
    [owner.__getattribute__]; the knot is tied after [Core.setattr]. *)
Variable getattr : loc -> string -> HM Value.

(** [v.__getattribute__(n)] *)
Definition getattribute (v : Value) (n : string) : HM Value :=
  let* h := Py.get in
  match v with
  | VRef l => match h !! l with
              | Some (HInst _) => getattr l n
              | _ => Py.raise AttributeError
              end
  | _ => Py.raise AttributeError
  end.

(** [ECollection._update_container].  With a [previous_value] the code
    assigns [value], which is [None] at its only call (ecore.py:223),
    to both attributes. *)
Definition _update_container (c : ECollection) (value previous_value : Value)
  : HM unit :=
  let* h := Py.get in
  if negb (is_EReference (_efeature c)) then Py.ret tt
  else if containment_of (_efeature c) && negb (truthy h previous_value) then
    set_container value (VRef (_owner c)) (Some (_efeature c))
  else if containment_of (_efeature c) && truthy h previous_value then
    set_container previous_value value None
  else Py.ret tt.

(** [ECollection._update_opposite] *)
Definition _update_opposite (c : ECollection) (owner new_value : Value)
    (remove : bool) : HM unit :=
  if negb (is_EReference (_efeature c)) then Py.ret tt
  else
    match eOpposite_of (_efeature c) with
    | None => Py.ret tt
    | Some eOpposite =>
        if opp_many eOpposite && negb remove then
          getattribute owner (opp_name eOpposite) ;;
          let* coll := raw_getattribute owner (opp_name eOpposite) in
          call_append_quiet coll new_value
        else if opp_many eOpposite && remove then
          let* coll := raw_getattribute owner (opp_name eOpposite) in
          call_remove_quiet coll new_value
        else
          raw_setattr owner (opp_name eOpposite)
                      (if remove then VNone else new_value)
    end.

(** [EList.append] and [EAbstractSet.append], which is [add] *)
Definition append (cl : loc) (value : Value) (update_opposite : bool) : HM unit :=
  let* c := get_coll cl in
  check c value ;;
  (if update_opposite then
     _update_container c value VNone ;;
     _update_opposite c value (VRef (_owner c)) false
   else Py.ret tt) ;;
  on_data cl (fun d => (data_append value d, inr tt)).

(** [ECollection.remove] *)
Definition remove (cl : loc) (value : Value) (update_opposite : bool) : HM unit :=
  let* c := get_coll cl in
  (if update_opposite then
     _update_container c VNone value ;;
     _update_opposite c value (VRef (_owner c)) true
   else Py.ret tt) ;;
  on_data cl (data_remove value).

(** [for x in sublist: self._update_container(x);
    self._update_opposite(x, self._owner)] *)
Fixpoint update_each (c : ECollection) (values : list Value) : HM unit :=
  match values with
  | [] => Py.ret tt
  | x :: rest =>
      _update_container c x VNone ;;
      _update_opposite c x (VRef (_owner c)) false ;;
      update_each c rest
  end.

(** [super().update(others)] on an [EOrderedSet]: [OrderedSet.update] of
    the package calls [self.add(item)] for each item, which is
    [EAbstractSet.add], so each item is checked and maintained once more;
    a [TypeError] on the way, and [BadValueError] is one, is raised again as
    [ValueError], and the items added before it stay. *)
Fixpoint update_ordered (cl : loc) (values : list Value) : HM unit :=
  match values with
  | [] => Py.ret tt
  | x :: rest =>
      Py.catch (Py.catch (append cl x true) BadValueError (Py.raise ValueError))
               TypeError (Py.raise ValueError) ;;
      update_ordered cl rest
  end.

(** [EList.extend], and [EAbstractSet.extend], which is [update] *)
Definition extend (cl : loc) (sublist : list Value) : HM unit :=
  let* c := get_coll cl in
  all_check c sublist ;;
  update_each c sublist ;;
  match data c with
  | EList _ | ESet _ => on_data cl (fun d => (data_extend sublist d, inr tt))
  | EOrderedSet _ => update_ordered cl sublist
  end.

(** [EList.__setitem__] with an integer index; the sets define none. *)
Definition setitem (cl : loc) (i : Z) (y : Value) : HM unit :=
  let* c := get_coll cl in
  match data c with
  | EList _ =>
      check c y ;;
      _update_container c y VNone ;;
      _update_opposite c y (VRef (_owner c)) false ;;
      on_data cl (data_setitem i y)
  | _ => Py.raise TypeError
  end.

(** [recv.append(x)] and [recv.remove(x)] *)
Definition call_append (recv x : Value) : HM unit :=
  let* h := Py.get in
  match recv with
  | VRef cl => if is_ECollection h recv then append cl x true
               else Py.raise AttributeError
  | _ => Py.raise AttributeError
  end.

Definition call_remove (recv x : Value) : HM unit :=
  let* h := Py.get in
  match recv with
  | VRef cl => if is_ECollection h recv then remove cl x true
               else Py.raise AttributeError
  | _ => Py.raise AttributeError
  end.

End WithGetattr.

End ECollectionOps.

(** ** The instance layer (ecore.py, [Core]) *)

Module Core.

(** What [Core.setattr] puts in the slot: a string written to a feature
    typed by a data type goes through the type's [from_string]; an
    [EEnum] is an [EDataType] that keeps the identity parser. *)
Definition stored_value (t : EClassifier) (value : Value) : Value :=
  match t, value with
  | EDataType _ _ _ from_string, VStr s => from_string s
  | _, _ => value
  end.

Section WithGetattr.

Variable getattr : loc -> string -> HM Value.

(** The part of [Core.setattr] after the store and [_isset], run when
    [_isready] holds and the feature is a reference
    (ecore.py:95-115). *)
Definition maintain (self : loc) (feat : EStructuralFeature)
    (value previous_value : Value) : HM unit :=
  let* h := Py.get in
  (if containment_of feat && is_EObject h value then
     set_container value (VRef self) (Some feat)
   else if containment_of feat && negb (truthy h value)
            && truthy h previous_value then
     set_container previous_value VNone None
   else Py.ret tt) ;;
  let* h := Py.get in
  match eOpposite_of feat with
  | None => Py.ret tt
  | Some eOpposite =>
      if is_EObject h value then
        if opp_many eOpposite then
          ECollectionOps.getattribute getattr value (opp_name eOpposite) ;;
          let* coll := raw_getattribute value (opp_name eOpposite) in
          ECollectionOps.call_append getattr coll (VRef self)
        else
          raw_setattr value (opp_name eOpposite) (VRef self)
      else if bool_decide (value = VNone) then
        if truthy h previous_value && opp_many eOpposite then
          let* coll := raw_getattribute previous_value (opp_name eOpposite) in
          ECollectionOps.call_remove getattr coll (VRef self)
        else if truthy h previous_value then
          raw_setattr previous_value (opp_name eOpposite) VNone
        else Py.ret tt
      else Py.ret tt
  end.

(** ecore.py, [Core.setattr] *)
Definition setattr (self : loc) (n : string) (value : Value) : HM unit :=
  let* o := get_inst self in
  match findEStructuralFeature (eClass o) n with
  | None => raw_setattr (VRef self) n value
  | Some feat =>
      let* h := Py.get in
      if many feat && negb (is_ECollection h value) then
        Py.raise BadValueError
      else if negb (many feat)
              && negb (EcoreUtils.isinstance h value (eType feat)) then
        Py.raise BadValueError
      else
        let* previous_value :=
          Py.catch (raw_getattribute (VRef self) (name feat))
                   AttributeError (Py.ret VNone) in
        raw_setattr (VRef self) n (stored_value (eType feat) value) ;;
        (if _isready o then mark_isset self n else Py.ret tt) ;;
        if _isready o && is_EReference feat then
          maintain self feat value previous_value
        else Py.ret tt
  end.

End WithGetattr.

(** ecore.py, [Core.getattr].  The two writes it makes store a fresh
    collection or a default value; neither is a model element, so the
    [setattr] it calls never comes back to [getattr]. *)
Definition getattr (self : loc) (n : string) : HM Value :=
  let* o := get_inst self in
  match slots o !! n with
  | Some v => Py.ret v
  | None =>
      match findEStructuralFeature (eClass o) n with
      | None => Py.raise AttributeError
      | Some feature =>
          if many feature then
            let* new_list := ECollectionOps.create self feature in
            setattr (fun _ _ => Py.raise AttributeError) self n new_list ;;
            Py.ret new_list
          else
            let default_value := VNone in
            let default_value :=
              match type_default_value (eType feature) with
              | Some d => d
              | None => default_value
              end in
            let default_value := feature_default_value feature in
            setattr (fun _ _ => Py.raise AttributeError) self n default_value ;;
            Py.ret default_value
      end
  end.

End Core.

(** The instance layer with the knot tied. *)
Definition Core_getattr := Core.getattr.
Definition Core_setattr := Core.setattr Core.getattr.

(** [c.append(value, update_opposite)] and [c.remove(value,
    update_opposite)] on the collection stored at [cl]. *)
Definition ECollection_append := ECollectionOps.append Core.getattr.
Definition ECollection_remove := ECollectionOps.remove Core.getattr.
Definition ECollection_extend := ECollectionOps.extend Core.getattr.
Definition ECollection_setitem := ECollectionOps.setitem Core.getattr.

(** ecore.py, [EClass.__call__]: a new instance, with the attributes of
    [EObject.__subinit__], made ready. *)
Definition EClass_call (c : EClass) : HM Value :=
  fun h =>
    if abstract c then (h, inl TypeError)
    else
      let l := fresh (dom h) in
      (<[l := HInst (mkEObject c ∅ VNone None [] true)]> h, inr (VRef l)).

(** Modelled from the spec: [eGet] and [eSet], which commands.py calls on
    the owner and ecore.py does not define.  The spec lists them in the
    instance API (§6) and has every get and set of a feature go through the
    protocol of §4.2; the feature is given by name or as the feature
    object. *)
Inductive FeatureArg :=
  | FNone
  | FName (n : string)
  | FObj (f : EStructuralFeature).

Definition eGet (owner : Value) (feature : FeatureArg) : HM Value :=
  match owner, feature with
  | VRef self, FName n => Core_getattr self n
  | VRef self, FObj f => Core_getattr self (name f)
  | VRef _, FNone => Py.raise TypeError
  | _, _ => Py.raise AttributeError
  end.

Definition eSet (owner : Value) (feature : FeatureArg) (value : Value) : HM unit :=
  match owner, feature with
  | VRef self, FName n => Core_setattr self n value
  | VRef self, FObj f => Core_setattr self (name f) value
  | VRef _, FNone => Py.raise TypeError
  | _, _ => Py.raise AttributeError
  end.

(** ** What a command calls on its [_collection]

    The receiver is whatever [eGet] returned: a typed collection for a
    many-valued feature, the slot value for a scalar one.  Each call is
    resolved as Python resolves it on the receiver's type. *)

Module Seq.

(** [len(recv)] *)
Definition len (recv : Value) : HM Z :=
  let* h := Py.get in
  match recv with
  | VStr s => Py.ret (Z.of_nat (String.length s))
  | VRef l => match h !! l with
              | Some (HColl c) => Py.ret (data_len (data c))
              | _ => Py.raise TypeError
              end
  | _ => Py.raise TypeError
  end.

(** [x in recv] *)
Definition contains (x recv : Value) : HM bool :=
  let* h := Py.get in
  match recv with
  | VStr s => match x with
              | VStr sub => Py.ret (bool_decide (is_Some (String.index 0 sub s)))
              | _ => Py.raise TypeError
              end
  | VRef l =>
      match h !! l with
      | Some (HColl c) =>
          match data c with
          | EList xs | ESet xs => Py.ret (py_in x xs)
          | EOrderedSet os => Py.ret (ordered_set.contains x os)
          end
      | _ => Py.raise TypeError
      end
  | _ => Py.raise TypeError
  end.

(** [recv[i]] *)
Definition getitem (recv : Value) (i : option Z) : HM Value :=
  let* h := Py.get in
  match recv, i with
  | VStr s, Some i =>
      match subscript i (String.length s) with
      | Some k => Py.ret (VStr (String.substring k 1 s))
      | None => Py.raise IndexError
      end
  | VRef l, _ =>
      match h !! l with
      | Some (HColl c) =>
          match data c, i with
          | EList xs, Some i => Py.lift (py_getitem xs i)
          | EOrderedSet os, Some i => Py.lift (py_getitem (ordered_set.items os) i)
          | _, _ => Py.raise TypeError
          end
      | _ => Py.raise TypeError
      end
  | _, _ => Py.raise TypeError
  end.

(** [recv.index(x)] *)
Definition index (recv x : Value) : HM Z :=
  let* h := Py.get in
  match recv with
  | VStr s => match x with
              | VStr sub => match String.index 0 sub s with
                            | Some k => Py.ret (Z.of_nat k)
                            | None => Py.raise ValueError
                            end
              | _ => Py.raise TypeError
              end
  | VRef l =>
      match h !! l with
      | Some (HColl c) =>
          match data c with
          | EList xs => Py.lift (py_index x xs)
          | ESet _ => Py.raise AttributeError
          | EOrderedSet os => Py.lift (ordered_set.index x os)
          end
      | _ => Py.raise AttributeError
      end
  | _ => Py.raise AttributeError
  end.

(** [recv.insert(i, x)]: [list.insert] on an [EList], the patched
    [insert] on an [EOrderedSet]; neither checks [x] nor maintains
    containment or opposites. *)
Definition data_insert (i : option Z) (x : Value) (d : CollData)
  : CollData * (PyError + unit) :=
  match d with
  | EList xs =>
      match i with
      | Some i => (EList (py_insert i x xs), inr tt)
      | None => (d, inl TypeError)
      end
  | ESet _ => (d, inl AttributeError)
  | EOrderedSet os =>
      if ordered_set.contains x os then (d, inr tt)
      else match i with
           | Some i => (EOrderedSet (ordered_set.insert i x os), inr tt)
           | None => (d, inl TypeError)
           end
  end.

Definition insert (recv : Value) (i : option Z) (x : Value) : HM unit :=
  let* h := Py.get in
  match recv with
  | VRef l => if is_ECollection h recv then ECollectionOps.on_data l (data_insert i x)
              else Py.raise AttributeError
  | _ => Py.raise AttributeError
  end.

(** [recv.pop(i)]: [list.pop] on an [EList], the patched [pop] on an
    [EOrderedSet]; [set.pop] takes no argument. *)
Definition data_pop (i : option Z) (d : CollData) : CollData * (PyError + Value) :=
  match d with
  | EList xs =>
      match i with
      | Some i => match py_pop xs i with
                  | inr (x, xs') => (EList xs', inr x)
                  | inl e => (d, inl e)
                  end
      | None => (d, inl TypeError)
      end
  | ESet _ => (d, inl TypeError)
  | EOrderedSet os =>
      let (os', r) := ordered_set.pop i os in (EOrderedSet os', r)
  end.

Definition pop (recv : Value) (i : option Z) : HM Value :=
  let* h := Py.get in
  match recv with
  | VRef l => if is_ECollection h recv then ECollectionOps.on_data l (data_pop i)
              else Py.raise AttributeError
  | _ => Py.raise AttributeError
  end.

(** [recv.append(x)] *)
Definition append (recv x : Value) : HM unit :=
  ECollectionOps.call_append Core.getattr recv x.

End Seq.

(** ** The commands (commands.py)

    A command is held by value: an operation returns the command as the
    call leaves it, and a call that raises leaves the caller's command as
    it was.  An attribute that [__init__] does not assign is [None] of the
    option type until it is assigned. *)

Inductive CommandClass := SetCmd | AddCmd | RemoveCmd | MoveCmd.

Record AbstractCommand := mkCommand {
  cls : CommandClass;
  owner : Value;
  feature : FeatureArg;
  value : Value;
  previous_value : Value;
  index : option Z;
  from_index : option Z;
  to_index : option Z;
  _collection : option Value;
  _executed : option bool
}.

(** [Compound.items] is the tuple of the constructor's arguments; the tag
    records which sequence type the attribute holds. *)
Inductive PySeqKind := PyTuple | PyList.

#[local] Unset Elimination Schemes.
Inductive Command :=
  | Prim (c : AbstractCommand)
  | Compound (k : PySeqKind) (items : list Command).
#[local] Set Elimination Schemes.

Module Cmd.

Definition with_feature (f : FeatureArg) (c : AbstractCommand) :=
  mkCommand (cls c) (owner c) f (value c) (previous_value c) (index c)
            (from_index c) (to_index c) (_collection c) (_executed c).
Definition with_value (v : Value) (c : AbstractCommand) :=
  mkCommand (cls c) (owner c) (feature c) v (previous_value c) (index c)
            (from_index c) (to_index c) (_collection c) (_executed c).
Definition with_previous_value (v : Value) (c : AbstractCommand) :=
  mkCommand (cls c) (owner c) (feature c) (value c) v (index c)
            (from_index c) (to_index c) (_collection c) (_executed c).
Definition with_index (i : option Z) (c : AbstractCommand) :=
  mkCommand (cls c) (owner c) (feature c) (value c) (previous_value c) i
            (from_index c) (to_index c) (_collection c) (_executed c).
Definition with_from_index (i : option Z) (c : AbstractCommand) :=
  mkCommand (cls c) (owner c) (feature c) (value c) (previous_value c) (index c)
            i (to_index c) (_collection c) (_executed c).
Definition with_to_index (i : option Z) (c : AbstractCommand) :=
  mkCommand (cls c) (owner c) (feature c) (value c) (previous_value c) (index c)
            (from_index c) i (_collection c) (_executed c).
Definition with_collection (v : Value) (c : AbstractCommand) :=
  mkCommand (cls c) (owner c) (feature c) (value c) (previous_value c) (index c)
            (from_index c) (to_index c) (Some v) (_executed c).
Definition with_executed (b : bool) (c : AbstractCommand) :=
  mkCommand (cls c) (owner c) (feature c) (value c) (previous_value c) (index c)
            (from_index c) (to_index c) (_collection c) (Some b).

(** Reading an attribute that may be absent. *)
Definition attr {A} (a : option A) : HM A :=
  match a with Some x => Py.ret x | None => Py.raise AttributeError end.

(** [AbstractCommand.__init__].  commands.py does not import
    [BadValueError], so the guard on [owner] ends in a [NameError]. *)
Definition init (k : CommandClass) (owner : Value) (feature : FeatureArg)
    (value : Value) : HM AbstractCommand :=
  let* h := Py.get in
  if truthy h owner && negb (is_EObject h owner) then Py.raise NameError
  else Py.ret (mkCommand k owner feature value VNone None None None None None).

(** [Set(owner, feature, value)] *)
Definition Set_ (owner : Value) (feature : FeatureArg) (value : Value)
  : HM AbstractCommand :=
  init SetCmd owner feature value.

(** [Add(owner, feature, value, index)] *)
Definition Add (owner : Value) (feature : FeatureArg) (value : Value)
    (index : option Z) : HM AbstractCommand :=
  let* c := init AddCmd owner feature value in
  Py.ret (with_collection VNone (with_index index c)).

(** [Remove(owner, feature, value, index)] *)
Definition Remove (owner : Value) (feature : FeatureArg) (value : Value)
    (index : option Z) : HM AbstractCommand :=
  let* c := init RemoveCmd owner feature value in
  Py.ret (with_collection VNone (with_index index c)).

(** [Move(owner, feature, from_index, to_index, value)] *)
Definition Move (owner : Value) (feature : FeatureArg)
    (from_index to_index : option Z) (value : Value) : HM AbstractCommand :=
  let* c := init MoveCmd owner feature value in
  let c := with_to_index to_index (with_from_index from_index c) in
  if Bool.eqb (bool_decide (from_index <> None)) (bool_decide (value <> VNone))
  then Py.raise ValueError
  else Py.ret c.

(** [self.owner.eClass] *)
Definition owner_eClass (owner : Value) : HM EClass :=
  let* h := Py.get in
  match eClass_of h owner with
  | Some k => Py.ret k
  | None => Py.raise AttributeError
  end.

(** [AbstractCommand.can_execute] *)
Definition can_execute_base (c : AbstractCommand) : HM (bool * AbstractCommand) :=
  let* eclass := owner_eClass (owner c) in
  match feature c with
  | FName n =>
      let actual := findEStructuralFeature eclass n in
      match actual with
      | Some f => Py.ret (true, with_feature (FObj f) c)
      | None => Py.ret (false, with_feature FNone c)
      end
  | FObj f =>
      let actual := findEStructuralFeature eclass (name f) in
      match actual with
      | Some a => Py.ret (Nat.eqb (fid f) (fid a), c)
      | None => Py.ret (false, c)
      end
  | FNone => Py.raise AttributeError
  end.

(** [self.feature.many] *)
Definition feature_many (c : AbstractCommand) : HM bool :=
  match feature c with
  | FObj f => Py.ret (many f)
  | _ => Py.raise AttributeError
  end.

(** [Set.can_execute] *)
Definition Set_can_execute (c : AbstractCommand) : HM (bool * AbstractCommand) :=
  let* r := can_execute_base c in
  let (can, c) := r : bool * AbstractCommand in
  if can then
    let* m := feature_many c in
    Py.ret (negb m, c)
  else Py.ret (false, c).

(** [Add.can_execute] and [Remove.can_execute], which have the same
    body.  The bound of a given index is written over a name [i] that
    nothing defines: evaluating it raises [NameError]. *)
Definition Add_can_execute (c : AbstractCommand) : HM (bool * AbstractCommand) :=
  let* r := can_execute_base c in
  let (executable, c) := r : bool * AbstractCommand in
  let executable := executable && bool_decide (value c <> VNone) in
  let* coll := eGet (owner c) (feature c) in
  let c := with_collection coll c in
  match index c with
  | Some _ =>
      if executable then Py.raise NameError
      else Py.ret (false, c)
  | None => Py.ret (executable, c)
  end.

Definition Remove_can_execute := Add_can_execute.

(** [a >= b] and [a < b] where [a] may be [None] *)
Definition ge (a : option Z) (b : Z) : HM bool :=
  match a with Some a => Py.ret (b <=? a) | None => Py.raise TypeError end.
Definition lt (a : option Z) (b : Z) : HM bool :=
  match a with Some a => Py.ret (a <? b) | None => Py.raise TypeError end.

(** [Move.can_execute] *)
Definition Move_can_execute (c : AbstractCommand) : HM (bool * AbstractCommand) :=
  let* r := can_execute_base c in
  let (can, c) := r : bool * AbstractCommand in
  let* coll := eGet (owner c) (feature c) in
  let c := with_collection coll c in
  let* b1 := ge (to_index c) 0 in
  let* in_bounds := (if b1 then ge (to_index c) 0 else Py.ret false) in
  let* c := (if bool_decide (value c = VNone) then
               let* v := Seq.getitem coll (from_index c) in
               Py.ret (with_value v c)
             else Py.ret c) in
  let* c := (match from_index c with
             | None =>
                 let* i := Seq.index coll (value c) in
                 Py.ret (with_from_index (Some i) c)
             | Some _ => Py.ret c
             end) in
  let* in_bounds := (if in_bounds then
                       let* n := Seq.len coll in
                       lt (from_index c) n
                     else Py.ret false) in
  let* in_bounds := (if in_bounds then ge (from_index c) 0 else Py.ret false) in
  if can && in_bounds then
    let* b := Seq.contains (value c) coll in
    Py.ret (b, c)
  else Py.ret (false, c).

(** [AbstractCommand.can_undo]: [return self._executed] *)
Definition can_undo_base (c : AbstractCommand) : HM bool :=
  attr (_executed c).

Definition Add_can_undo (c : AbstractCommand) : HM bool :=
  let* can := can_undo_base c in
  if can then
    let* coll := attr (_collection c) in
    Seq.contains (value c) coll
  else Py.ret false.

Definition Remove_can_undo (c : AbstractCommand) : HM bool :=
  can_undo_base c.

Definition Move_can_undo (c : AbstractCommand) : HM bool :=
  let* can := can_undo_base c in
  let* coll := attr (_collection c) in
  let* obj := Seq.getitem coll (to_index c) in
  Py.ret (bool_decide (obj = value c)).

(** [do_execute], [undo] and [redo] of the four classes *)
Definition Set_do_execute (c : AbstractCommand) : HM AbstractCommand :=
  let* p := eGet (owner c) (feature c) in
  let c := with_previous_value p c in
  eSet (owner c) (feature c) (value c) ;;
  Py.ret c.

Definition Set_undo (c : AbstractCommand) : HM AbstractCommand :=
  eSet (owner c) (feature c) (previous_value c) ;;
  Py.ret c.

Definition Set_redo (c : AbstractCommand) : HM AbstractCommand :=
  eSet (owner c) (feature c) (value c) ;;
  Py.ret c.

Definition Add_do_execute (c : AbstractCommand) : HM AbstractCommand :=
  let* coll := attr (_collection c) in
  match index c with
  | Some i =>
      Seq.insert coll (Some i) (value c) ;;
      Py.ret c
  | None =>
      let* n := Seq.len coll in
      let c := with_index (Some n) c in
      Seq.append coll (value c) ;;
      Py.ret c
  end.

Definition Add_undo (c : AbstractCommand) : HM AbstractCommand :=
  let* coll := attr (_collection c) in
  Seq.pop coll (index c) ;;
  Py.ret c.

Definition Add_redo (c : AbstractCommand) : HM AbstractCommand :=
  let* coll := attr (_collection c) in
  Seq.insert coll (index c) (value c) ;;
  Py.ret c.

Definition Remove_do_execute (c : AbstractCommand) : HM AbstractCommand :=
  let* coll := attr (_collection c) in
  let* c := (match index c with
             | None =>
                 let* i := Seq.index coll (value c) in
                 Py.ret (with_index (Some i) c)
             | Some _ => Py.ret c
             end) in
  Seq.pop coll (index c) ;;
  Py.ret c.

Definition Remove_undo (c : AbstractCommand) : HM AbstractCommand :=
  let* coll := attr (_collection c) in
  Seq.insert coll (index c) (value c) ;;
  Py.ret c.

Definition Remove_redo (c : AbstractCommand) : HM AbstractCommand :=
  let* coll := attr (_collection c) in
  Seq.pop coll (index c) ;;
  Py.ret c.

Definition Move_do_execute (c : AbstractCommand) : HM AbstractCommand :=
  let* coll := attr (_collection c) in
  let* v := Seq.pop coll (from_index c) in
  let c := with_value v c in
  Seq.insert coll (to_index c) (value c) ;;
  Py.ret c.

Definition Move_undo (c : AbstractCommand) : HM AbstractCommand :=
  let* coll := attr (_collection c) in
  let* v := Seq.pop coll (to_index c) in
  let c := with_value v c in
  Seq.insert coll (from_index c) (value c) ;;
  Py.ret c.

Definition Move_redo := Move_do_execute.

(** Dispatch on the class of the command. *)
Definition prim_can_execute (c : AbstractCommand) : HM (bool * AbstractCommand) :=
  match cls c with
  | SetCmd => Set_can_execute c
  | AddCmd => Add_can_execute c
  | RemoveCmd => Remove_can_execute c
  | MoveCmd => Move_can_execute c
  end.

Definition prim_can_undo (c : AbstractCommand) : HM bool :=
  match cls c with
  | SetCmd => can_undo_base c
  | AddCmd => Add_can_undo c
  | RemoveCmd => Remove_can_undo c
  | MoveCmd => Move_can_undo c
  end.

Definition do_execute (c : AbstractCommand) : HM AbstractCommand :=
  match cls c with
  | SetCmd => Set_do_execute c
  | AddCmd => Add_do_execute c
  | RemoveCmd => Remove_do_execute c
  | MoveCmd => Move_do_execute c
  end.

(** [AbstractCommand.execute] *)
Definition prim_execute (c : AbstractCommand) : HM AbstractCommand :=
  let* c := do_execute c in
  Py.ret (with_executed true c).

Definition prim_undo (c : AbstractCommand) : HM AbstractCommand :=
  match cls c with
  | SetCmd => Set_undo c
  | AddCmd => Add_undo c
  | RemoveCmd => Remove_undo c
  | MoveCmd => Move_undo c
  end.

Definition prim_redo (c : AbstractCommand) : HM AbstractCommand :=
  match cls c with
  | SetCmd => Set_redo c
  | AddCmd => Add_redo c
  | RemoveCmd => Remove_redo c
  | MoveCmd => Move_redo c
  end.

End Cmd.

(** ** [Compound] and the operations of any command *)

Module Command_.

(** [command.can_execute].  [all(...)] stops at the first child that
    answers false; the children after it are not asked. *)
Fixpoint can_execute (c : Command) : HM (bool * Command) :=
  match c with
  | Prim p =>
      let* r := Cmd.prim_can_execute p in
      Py.ret (fst r, Prim (snd r))
  | Compound k items =>
      let* r :=
        (fix all (l : list Command) : HM (bool * list Command) :=
           match l with
           | [] => Py.ret (true, [])
           | x :: l' =>
               let* r := can_execute x in
               if fst r then
                 let* r' := all l' in
                 Py.ret (fst r', snd r :: snd r')
               else Py.ret (false, snd r :: l')
           end) items in
      Py.ret (fst r, Compound k (snd r))
  end.

(** [command.execute()] *)
Fixpoint execute (c : Command) : HM Command :=
  match c with
  | Prim p =>
      let* p' := Cmd.prim_execute p in
      Py.ret (Prim p')
  | Compound k items =>
      let* items' :=
        (fix each (l : list Command) : HM (list Command) :=
           match l with
           | [] => Py.ret []
           | x :: l' =>
               let* x' := execute x in
               let* l'' := each l' in
               Py.ret (x' :: l'')
           end) items in
      Py.ret (Compound k items')
  end.

(** [command.can_undo] *)
Fixpoint can_undo (c : Command) : HM bool :=
  match c with
  | Prim p => Cmd.prim_can_undo p
  | Compound _ items =>
      (fix all (l : list Command) : HM bool :=
         match l with
         | [] => Py.ret true
         | x :: l' =>
             let* b := can_undo x in
             if b then all l' else Py.ret false
         end) items
  end.

(** [command.undo()]: the children of a compound are undone from the
    last to the first. *)
Fixpoint undo (c : Command) : HM Command :=
  match c with
  | Prim p =>
      let* p' := Cmd.prim_undo p in
      Py.ret (Prim p')
  | Compound k items =>
      let* items' :=
        (fix each (l : list Command) : HM (list Command) :=
           match l with
           | [] => Py.ret []
           | x :: l' =>
               let* l'' := each l' in
               let* x' := undo x in
               Py.ret (x' :: l'')
           end) items in
      Py.ret (Compound k items')
  end.

(** [command.redo()]; [Compound] defines none. *)
Definition redo (c : Command) : HM Command :=
  match c with
  | Prim p =>
      let* p' := Cmd.prim_redo p in
      Py.ret (Prim p')
  | Compound _ _ => Py.raise AttributeError
  end.

(** [repr(command)], as far as it can raise: [AbstractCommand.__repr__]
    reads [self.feature.name] unless the feature is a string. *)
Fixpoint repr (c : Command) : PyError + unit :=
  match c with
  | Prim p => match feature p with FNone => inl AttributeError | _ => inr tt end
  | Compound _ items =>
      (fix each (l : list Command) : PyError + unit :=
         match l with
         | [] => inr tt
         | x :: l' => match repr x with inr _ => each l' | inl e => inl e end
         end) items
  end.

End Command_.

Module Compound_.

(** The constructor of [Compound], with the commands it is given:
    [self.items = commands] *)
Definition init (commands : list Command) : Command := Compound PyTuple commands.

(** [len(self)], [self[index]] and iteration *)
Definition len (k : PySeqKind) (items : list Command) : Z :=
  Z.of_nat (length items).

Definition getitem (k : PySeqKind) (items : list Command) (index : Z)
  : PyError + Command :=
  py_getitem items index.

Definition iter (k : PySeqKind) (items : list Command) : list Command := items.

(** [Compound.unwrap]; the argument is the compound itself. *)
Definition unwrap (c : Command) : PyError + Command :=
  match c with
  | Compound k items =>
      if len k items =? 1 then getitem k items 0 else inr c
  | Prim _ => inl AttributeError
  end.

(** [Compound.insert]: [self.items.insert(index, item)] *)
Definition insert (c : Command) (index : Z) (item : Command) : PyError + Command :=
  match c with
  | Compound PyList items => inr (Compound PyList (py_insert index item items))
  | Compound PyTuple _ => inl AttributeError
  | Prim _ => inl AttributeError
  end.

(** [Compound.__setitem__] and [Compound.__delitem__] *)
Definition setitem (c : Command) (index : Z) (item : Command) : PyError + Command :=
  match c with
  | Compound PyList items =>
      match subscript index (length items) with
      | Some i => inr (Compound PyList (<[i := item]> items))
      | None => inl IndexError
      end
  | Compound PyTuple _ => inl AttributeError
  | Prim _ => inl AttributeError
  end.

Definition delitem (c : Command) (index : Z) : PyError + Command :=
  match c with
  | Compound PyList items =>
      match py_delitem items index with
      | inr items' => inr (Compound PyList items')
      | inl e => inl e
      end
  | Compound PyTuple _ => inl AttributeError
  | Prim _ => inl AttributeError
  end.

End Compound_.

(** ** The command stack (commands.py, [CommandStack]) *)

Record CommandStack := mkStack {
  stack : list Command;
  stack_index : Z
}.

Module Stack.

(** The stack operations run on the store and the stack together. *)
Abbreviation SM := (Py.M (gmap loc HObj * CommandStack)).

Definition on_heap {A} (m : HM A) : SM A :=
  fun s => let (h', r) := m (fst s) in ((h', snd s), r).

Definition the_stack : SM CommandStack :=
  fun s => (s, inr (snd s)).

Definition set_stack (st : CommandStack) : SM unit :=
  fun s => ((fst s, st), inr tt).

(** [CommandStack()] *)
Definition init : CommandStack := mkStack [] (-1).

(** [self.top] *)
Definition top : SM Command :=
  let* st := the_stack in
  Py.lift (py_getitem (stack st) (stack_index st)).

(** [self.peek_next_top] *)
Definition peek_next_top : SM Command :=
  let* st := the_stack in
  Py.lift (py_getitem (stack st) (stack_index st + 1)).

(** [self.top = command]: the slice assignment
    [self.stack[index:index] = [command]] puts [command] in front of
    position [index] and removes nothing, as [list.insert] does. *)
Definition set_top (command : Command) : SM unit :=
  let* st := the_stack in
  let index := stack_index st + 1 in
  set_stack (mkStack (py_insert index command (stack st)) index).

(** [del self.top] *)
Definition del_top : SM unit :=
  let* st := the_stack in
  set_stack (mkStack (stack st) (stack_index st - 1)).

(** The command object at a position is changed in place by the call
    made on it. *)
Definition update_at (i : Z) (c : Command) : SM unit :=
  let* st := the_stack in
  match subscript i (length (stack st)) with
  | Some k => set_stack (mkStack (<[k := c]> (stack st)) (stack_index st))
  | None => Py.ret tt
  end.

(** [CommandStack.execute], with the commands it is given *)
Fixpoint execute (commands : list Command) : SM unit :=
  match commands with
  | [] => Py.ret tt
  | command :: rest =>
      let* r := on_heap (Command_.can_execute command) in
      if fst r then
        let* command' := on_heap (Command_.execute (snd r)) in
        set_top command' ;;
        execute rest
      else
        Py.lift (Command_.repr (snd r)) ;;
        Py.raise ValueError
  end.

(** [CommandStack.undo] *)
Definition undo : SM unit :=
  let* st := the_stack in
  match stack st with
  | [] => Py.raise ValueError
  | _ =>
      let* c := top in
      let* can := on_heap (Command_.can_undo c) in
      if can then
        let* c := top in
        let* c' := on_heap (Command_.undo c) in
        update_at (stack_index st) c' ;;
        del_top
      else Py.ret tt
  end.

(** [CommandStack.redo] *)
Definition redo : SM unit :=
  let* st := the_stack in
  let* c := peek_next_top in
  let* c' := on_heap (Command_.redo c) in
  update_at (stack_index st + 1) c'.

End Stack.

(** ** Observations and a small metamodel *)

(** The value in the slot [n] of the model element at [l]. *)
Definition slot_of (h : Heap) (l : loc) (n : string) : option Value :=
  match h !! l with
  | Some (HInst o) => slots o !! n
  | _ => None
  end.

(** The contents of the typed collection at [l]. *)
Definition data_of (h : Heap) (l : loc) : option CollData :=
  match h !! l with
  | Some (HColl c) => Some (data c)
  | _ => None
  end.

Definition container_of (h : Heap) (l : loc) : option Value :=
  match h !! l with
  | Some (HInst o) => Some (_container o)
  | _ => None
  end.

(** The elements of a collection, in iteration order. *)
Definition elements_of (d : CollData) : list Value :=
  match d with
  | EList l | ESet l => l
  | EOrderedSet s => ordered_set.items s
  end.

(** A command none of whose parts has been through [execute()], and
    whether it has a [Set], [Add], [Remove] or [Move] in it at all. *)
Fixpoint never_executed (c : Command) : bool :=
  match c with
  | Prim p => match _executed p with None => true | Some _ => false end
  | Compound _ items => forallb never_executed items
  end.

Fixpoint has_command (c : Command) : bool :=
  match c with
  | Prim _ => true
  | Compound _ items => existsb has_command items
  end.

Module Example.

(** [EString = EDataType('EString', str)] *)
Definition EString : EClassifier := EDataType "EString" PyStr VNone VStr.

(** [EBoolean = EDataType('EBoolean', bool, False, from_string=...)] *)
Definition EBoolean : EClassifier :=
  EDataType "EBoolean" PyBool (VBool false)
    (fun x => VBool (String.eqb x "True" || String.eqb x "true")).

(** A class [P] with a scalar attribute [name : EString], an ordered,
    non-unique attribute [items : EString[*]] and an ordered, unique one
    [tags : EString[*]]. *)
Definition P_name : EStructuralFeature :=
  mkFeature 1 "name" EString 0 1 true true (EAttribute VNone).
Definition P_items : EStructuralFeature :=
  mkFeature 2 "items" EString 0 (-1) true false (EAttribute VNone).
Definition P_tags : EStructuralFeature :=
  mkFeature 3 "tags" EString 0 (-1) true true (EAttribute VNone).
Definition P : EClass := mkEClass 10 "P" false [] [P_name; P_items; P_tags].

(** The classes of scenario S1: [A.children : B[*]], a containment, with
    opposite [B.parent : A]. *)
Definition A_children : EStructuralFeature :=
  mkFeature 4 "children" (EClassRef 12) 0 (-1) true true
            (EReference true (Some (mkOpposite "parent" 1))).
Definition B_parent : EStructuralFeature :=
  mkFeature 5 "parent" (EClassRef 11) 0 1 true true
            (EReference false (Some (mkOpposite "children" (-1)))).
Definition A : EClass := mkEClass 11 "A" false [] [A_children].
Definition B : EClass := mkEClass 12 "B" false [] [B_parent].

(** A class [Q] below [P] with an attribute of its own, and a class [R]
    below [Q] that declares [name] again. *)
Definition Q_extra : EStructuralFeature :=
  mkFeature 6 "extra" EString 0 1 true true (EAttribute VNone).
Definition Q : EClass := mkEClass 13 "Q" false [P] [Q_extra].
Definition R_name : EStructuralFeature :=
  mkFeature 7 "name" EString 0 1 true true (EAttribute (VStr "r")).
Definition R : EClass := mkEClass 14 "R" false [Q] [R_name].

(** A class [C] with two containments that have no opposite, the
    single-valued [part : B] and the list [parts : B[*]], and a class [M]
    whose single-valued [partner : M] is its own opposite. *)
Definition C_part : EStructuralFeature :=
  mkFeature 8 "part" (EClassRef 12) 0 1 true true (EReference true None).
Definition C_parts : EStructuralFeature :=
  mkFeature 10 "parts" (EClassRef 12) 0 (-1) true false (EReference true None).
Definition C : EClass := mkEClass 15 "C" false [] [C_part; C_parts].
Definition M_partner : EStructuralFeature :=
  mkFeature 9 "partner" (EClassRef 16) 0 1 true true
            (EReference false (Some (mkOpposite "partner" 1))).
Definition M : EClass := mkEClass 16 "M" false [] [M_partner].

(** A class [N] whose single-valued containment [child : N] is typed by
    the class itself. *)
Definition N_child : EStructuralFeature :=
  mkFeature 11 "child" (EClassRef 17) 0 1 true true (EReference true None).
Definition N : EClass := mkEClass 17 "N" false [] [N_child].

Import Stack.

(** [p.name = "first"]; the stack executes [Set(p, "name", "second")],
    undoes it, and executes [Set(p, "name", "third")]. *)
Definition execute_after_undo : SM unit :=
  let* p := on_heap (EClass_call P) in
  on_heap (eSet p (FName "name") (VStr "first")) ;;
  let* c1 := on_heap (Cmd.Set_ p (FName "name") (VStr "second")) in
  execute [Prim c1] ;;
  undo ;;
  let* c2 := on_heap (Cmd.Set_ p (FName "name") (VStr "third")) in
  execute [Prim c2].

(** The stack executes [Add(p, "items", "x")] and undoes it. *)
Definition add_then_undo : SM unit :=
  let* p := on_heap (EClass_call P) in
  let* c := on_heap (Cmd.Add p (FName "items") (VStr "x") None) in
  execute [Prim c] ;;
  undo.

(** [p.name = "first"]; the stack executes [Set(p, "name", "second")]
    and undoes it. *)
Definition set_then_undo : SM unit :=
  let* p := on_heap (EClass_call P) in
  on_heap (eSet p (FName "name") (VStr "first")) ;;
  let* c := on_heap (Cmd.Set_ p (FName "name") (VStr "second")) in
  execute [Prim c] ;;
  undo.

(** An instance of [P] whose [items] has been read once, and
    [Add(p, "items", "x", index=0)] on it. *)
Definition add_at_index : HM (bool * AbstractCommand) :=
  let* p := EClass_call P in
  eGet p (FName "items") ;;
  let* c := Cmd.Add p (FName "items") (VStr "x") (Some 0) in
  Cmd.Add_can_execute c.

(** The ordered set holding ["a"] alone. *)
Definition just_a : OrderedSet := ordered_set.add (VStr "a") ordered_set.empty.

End Example.


(** [x in c] on the contents of a collection. *)
Definition data_contains (x : Value) (d : CollData) : bool :=
  match d with
  | EList l | ESet l => py_in x l
  | EOrderedSet s => ordered_set.contains x s
  end.

(** The collection, or the model element, a location holds. *)
Definition the_coll (h : Heap) (l : loc) : ECollection :=
  match h !! l with
  | Some (HColl c) => c
  | _ => mkECollection l Example.P_items (EList [])
  end.

Definition the_inst (h : Heap) (l : loc) : EObject :=
  match h !! l with
  | Some (HInst o) => o
  | _ => mkEObject Example.P ∅ VNone None [] false
  end.

Module Scenario.

(** S1 up to the second append: [a1], [a2] and [b] are created,
    [a1.children.append(b)] is run and [a2.children] is read. *)
Definition before_transfer : HM (Value * Value) :=
  let* a1 := EClass_call Example.A in
  let* a2 := EClass_call Example.A in
  let* b := EClass_call Example.B in
  let* c1 := eGet a1 (FName "children") in
  Seq.append c1 b ;;
  let* c2 := eGet a2 (FName "children") in
  Py.ret (c2, b).

(** S1: then [a2.children.append(b)]. *)
Definition containment_transfer : HM unit :=
  let* r := before_transfer in
  Seq.append (fst r) (snd r).


(** An instance of [P] whose [items] is [["x", "y", "z"]]. *)
Definition three_items : HM Value :=
  let* p := EClass_call Example.P in
  eSet p (FName "name") (VStr "first") ;;
  let* items := eGet p (FName "items") in
  Seq.append items (VStr "x") ;;
  Seq.append items (VStr "y") ;;
  Seq.append items (VStr "z") ;;
  Py.ret p.

End Scenario.

(** ** Notions the properties are stated with *)

(** The slot [n] of the model element [self] holds [x]. *)
Definition slot_is (self : loc) (n : string) (x : Value) (h : Heap) : Prop :=
  slot_of h self n = Some x.

(** A computation keeps a property of the store. *)
Definition preserves {A} (P : Heap -> Prop) (m : HM A) : Prop :=
  forall h h' r, P h -> m h = (h', r) -> P h'.

(** The object [getattr] leaves behind when it fills the slot [m]. *)
Definition filled (m : string) (y : Value) (o : EObject) : EObject :=
  mkEObject (eClass o) (<[m := y]> (slots o)) (_container o)
            (_containment_feature o)
            (if _isready o then _isset o ++ [m] else _isset o) (_isready o).



(** What [Core.setattr] still does once the slot is written: it records
    the name in [_isset] and, for a reference, maintains containment and
    opposite (ecore.py:93-115). *)
Definition after_store (self : loc) (n : string) (o : EObject)
    (feat : EStructuralFeature) (value previous_value : Value) : HM unit :=
  (if _isready o then mark_isset self n else Py.ret tt) ;;
  if _isready o && is_EReference feat then
    Core.maintain Core.getattr self feat value previous_value
  else Py.ret tt.

(** A feature without containment and without opposite. *)
Definition plain (f : EStructuralFeature) : Prop :=
  containment_of f = false /\ eOpposite_of f = None.

(** The collection [c] with other contents. *)
Definition with_data (c : ECollection) (d : CollData) : ECollection :=
  mkECollection (_owner c) (_efeature c) d.

(** [all(command.can_undo for command in items)] *)
Definition all_can_undo : list Command -> HM bool :=
  fix all (l : list Command) : HM bool :=
    match l with
    | [] => Py.ret true
    | x :: l' =>
        let* b := Command_.can_undo x in
        if b then all l' else Py.ret false
    end.

(** The names every instance answers to without any feature: the
    attributes of [EObject.__subinit__], the methods and special attributes
    of [EObject] and of [object], which start with an underscore, and
    [eClass], [eContainer] and [eContainmentFeature].  They live beside the
    feature slots; a property about the slot of a name takes the name not
    to be one of them. *)
Definition reserved_name (n : string) : bool :=
  String.prefix "_" n
  || bool_decide (n ∈ ["eClass"; "eContainer"; "eContainmentFeature"]).

(** [a] is reached from [c] by one or more steps along [eSuperTypes]. *)
Inductive ancestor (a : EClass) : EClass -> Prop :=
  | ancestor_direct (c : EClass) : a ∈ eSuperTypes c -> ancestor a c
  | ancestor_step (c s : EClass) : s ∈ eSuperTypes c -> ancestor a s -> ancestor a c.

(** A class object has one identity: among [c] and the classes above it,
    two with the same [cid] are the same class. *)
Definition one_identity (c : EClass) : Prop :=
  forall a b : EClass,
    (a = c \/ ancestor a c) -> (b = c \/ ancestor b c) -> cid a = cid b -> a = b.

(** The two steps of [eAllSuperTypes]: the direct supertypes that are not
    in [building], and the loop that adds what each supertype gives. *)
Definition direct_supers (supers building acc : list EClass) : list EClass :=
  fold_left (fun acc x => if class_in x building then acc else class_add x acc)
            supers acc.

Fixpoint supers_loop (l stypes : list EClass) : list EClass :=
  match l with
  | [] => stypes
  | ec :: l' => supers_loop l' (class_union stypes (eAllSuperTypes ec stypes))
  end.

(** [r] is the top of the chain of containers that starts at [l], [n]
    steps up. *)
Inductive root_of (h : Heap) : loc -> loc -> nat -> Prop :=
  | root_here (l : loc) (o : EObject) :
      h !! l = Some (HInst o) -> _container o = VNone -> root_of h l l 0
  | root_up (l p r : loc) (o : EObject) (n : nat) :
      h !! l = Some (HInst o) -> _container o = VRef p -> root_of h p r n ->
      root_of h l r (S n).




(** * Properties *)

(** ** The monad *)

Lemma bind_ok {S A B} (m : Py.M S A) (k : A -> Py.M S B) s s' a :
  m s = (s', inr a) -> Py.bind m k s = k a s'.
Proof. intros H. unfold Py.bind. now rewrite H. Qed.

Lemma bind_err {S A B} (m : Py.M S A) (k : A -> Py.M S B) s s' e :
  m s = (s', inl e) -> Py.bind m k s = (s', inl e).
Proof. intros H. unfold Py.bind. now rewrite H. Qed.

(** ** Python lists *)

Lemma subscript_in_range (i : Z) (n : nat) :
  0 <= i < Z.of_nat n -> subscript i n = Some (Z.to_nat i).
Proof.
  intros H. unfold subscript.
  destruct (Z.ltb_spec i 0); [lia|].
  destruct (Z.leb_spec 0 i); [|lia].
  destruct (Z.ltb_spec i (Z.of_nat n)); [|lia]. reflexivity.
Qed.

Lemma subscript_minus_one (n : nat) :
  (0 < n)%nat -> subscript (-1) n = Some (n - 1)%nat.
Proof.
  intros H. unfold subscript. simpl.
  destruct (Z.leb_spec 0 (-1 + Z.of_nat n)); [|lia].
  destruct (Z.ltb_spec (-1 + Z.of_nat n) (Z.of_nat n)); [|lia].
  simpl. f_equal. lia.
Qed.

Lemma py_insert_length {A} (i : Z) (x : A) (l : list A) :
  length (py_insert i x l) = S (length l).
Proof.
  unfold py_insert.
  rewrite length_app. simpl. rewrite length_take, length_drop. lia.
Qed.

Lemma py_insert_in_range {A} (i : nat) (x : A) (l : list A) :
  (i <= length l)%nat ->
  py_insert (Z.of_nat i) x l = take i l ++ x :: drop i l.
Proof.
  intros H. unfold py_insert.
  destruct (Z.ltb_spec (Z.of_nat i) 0); [lia|].
  rewrite Z.min_l by lia. now rewrite Nat2Z.id.
Qed.

(** ** The ordered set *)

Section OrderedSetFacts.
Import ordered_set.

(** An element already present is left alone by [insert]. *)
Lemma insert_present (i : Z) (x : Value) (s : OrderedSet) :
  contains x s = true -> insert i x s = s.
Proof. unfold contains, insert. now intros ->. Qed.

(** A new element goes to position [i] of the item list. *)
Lemma insert_items (i : Z) (x : Value) (s : OrderedSet) :
  contains x s = false -> items (insert i x s) = py_insert i x (items s).
Proof. unfold contains, insert. now intros ->. Qed.

(** The keys that were there move up by one from position [i] on. *)
Lemma insert_map_old (i : Z) (x y : Value) (s : OrderedSet) (j : Z) :
  contains x s = false -> map s !! y = Some j ->
  map (insert i x s) !! y = Some (if i <=? j then j + 1 else j).
Proof.
  unfold contains, insert. intros Hx Hy. rewrite Hx. cbn.
  unfold shift_from. rewrite lookup_fmap, lookup_insert_ne.
  - now rewrite Hy.
  - intros <-. unfold mem in Hx. apply bool_decide_eq_false in Hx.
    apply Hx. eauto.
Qed.

(** So does the new key: it is entered at [i] before the loop runs. *)
Lemma insert_map_new (i : Z) (x : Value) (s : OrderedSet) :
  contains x s = false -> map (insert i x s) !! hash_key x = Some (i + 1).
Proof.
  unfold contains, insert. intros ->. cbn.
  unfold shift_from. rewrite lookup_fmap, lookup_insert_eq. cbn.
  now rewrite Z.leb_refl.
Qed.

(** [pop] on the empty set. *)
Lemma pop_empty (i : option Z) (s : OrderedSet) :
  items s = [] -> pop i s = (s, inl KeyError).
Proof. intros H. unfold pop, Py.bind, Py.get. now rewrite H. Qed.

End OrderedSetFacts.

(** C6. On the ordered set holding ["a"], [insert(0, "b")] puts ["b"] at
    position 0 of the items and records it in the index map at position 1,
    the position of ["a"]: the map is not left consistent with the item
    sequence. *)
Theorem insert_leaves_index_map_inconsistent :
  let s := ordered_set.insert 0 (VStr "b") Example.just_a in
  ordered_set.consistent Example.just_a /\
  ordered_set.items s = [VStr "b"; VStr "a"] /\
  ordered_set.map s !! VStr "b" = Some 1 /\
  ordered_set.map s !! VStr "a" = Some 1 /\
  ~ ordered_set.consistent s.
Proof.
  cbv zeta. split; [|split; [|split; [|split]]].
  - intros x i.
    change Example.just_a
      with (ordered_set.mkOrderedSet [VStr "a"] (<[VStr "a" := 0]> ∅)).
    cbn [ordered_set.items ordered_set.map].
    split.
    + intros H. destruct (decide (x = VStr "a")) as [->|Hne].
      * rewrite lookup_insert_eq in H. inversion H. now exists 0%nat.
      * rewrite lookup_insert_ne in H by congruence. now rewrite lookup_empty in H.
    + intros [k [-> Hk]]. destruct k as [|k]; cbn in Hk.
      * inversion Hk. now rewrite lookup_insert_eq.
      * discriminate.
  - reflexivity.
  - now vm_compute.
  - now vm_compute.
  - intros H. destruct (H (VStr "b") 1) as [H1 _].
    destruct H1 as [k [Hk Hi]]; [now vm_compute|].
    assert (k = 1%nat) as -> by lia. cbn in Hi. discriminate.
Qed.

(** ** Compound *)

Lemma Command_ind' (P : Command -> Prop) :
  (forall p, P (Prim p)) ->
  (forall k items, Forall P items -> P (Compound k items)) ->
  forall c, P c.
Proof.
  intros HP HC. fix IH 1. intros [p|k items]; [apply HP|].
  apply HC. induction items as [|x items IHitems]; constructor; [apply IH|assumption].
Qed.

(** Index access, iteration and [unwrap] work on the tuple. *)
Lemma Compound_getitem (commands : list Command) (i : nat) (c : Command) :
  commands !! i = Some c ->
  Compound_.getitem PyTuple commands (Z.of_nat i) = inr c.
Proof.
  intros H. unfold Compound_.getitem, py_getitem.
  rewrite subscript_in_range, Nat2Z.id, H; [reflexivity|].
  apply lookup_lt_Some in H. lia.
Qed.

Lemma Compound_unwrap_one (c : Command) :
  Compound_.unwrap (Compound_.init [c]) = inr c.
Proof. reflexivity. Qed.

Lemma Compound_unwrap_other (commands : list Command) :
  length commands <> 1%nat ->
  Compound_.unwrap (Compound_.init commands) = inr (Compound_.init commands).
Proof.
  intros H. unfold Compound_.unwrap, Compound_.init, Compound_.len.
  destruct (Z.eqb_spec (Z.of_nat (length commands)) 1); [lia|reflexivity].
Qed.

(** C8. A compound is built over the tuple of its arguments, so
    [insert(index, item)] raises [AttributeError] for every compound the
    constructor makes, every index and every item. *)
Theorem Compound_insert_raises (commands : list Command) (index : Z) (item : Command) :
  Compound_.insert (Compound_.init commands) index item = inl AttributeError.
Proof. reflexivity. Qed.

(** ** [can_undo] before [execute] *)

(** The constructors leave [_executed] unassigned; [execute] assigns it. *)
Lemma init_never_executed k o f v h h' c :
  Cmd.init k o f v h = (h', inr c) -> _executed c = None.
Proof.
  unfold Cmd.init, Py.bind, Py.get. destruct (_ && _); cbn; [discriminate|].
  now intros [= _ <-].
Qed.

Lemma execute_sets_executed p h h' p' :
  Cmd.prim_execute p h = (h', inr p') -> _executed p' = Some true.
Proof.
  unfold Cmd.prim_execute, Py.bind. destruct (Cmd.do_execute p h) as [h1 [e|p1]]; [discriminate|].
  cbn. now intros [= _ <-].
Qed.

Lemma prim_can_undo_unassigned p h :
  _executed p = None -> Cmd.prim_can_undo p h = (h, inl AttributeError).
Proof.
  intros H. unfold Cmd.prim_can_undo, Cmd.Add_can_undo, Cmd.Remove_can_undo,
    Cmd.Move_can_undo, Cmd.can_undo_base, Py.bind.
  rewrite H. now destruct (cls p).
Qed.


Lemma can_undo_Compound k items :
  Command_.can_undo (Compound k items) = all_can_undo items.
Proof. reflexivity. Qed.

(** A command that has never been executed either raises on [can_undo],
    when there is a [Set], [Add], [Remove] or [Move] in it, or (a compound
    of no commands) answers true; it never answers false. *)
Lemma can_undo_never_executed (c : Command) :
  never_executed c = true ->
  forall h, Command_.can_undo c h
            = (h, if has_command c then inl AttributeError else inr true).
Proof.
  induction c as [p|k items IH] using Command_ind'; intros Hc h.
  - cbn in *. apply prim_can_undo_unassigned. now destruct (_executed p).
  - rewrite can_undo_Compound. cbn [never_executed has_command] in *.
    revert h. induction IH as [|x items Hx _ IHitems]; intros h; [reflexivity|].
    cbn in Hc. apply andb_prop in Hc as [Hx' Hitems].
    cbn [all_can_undo existsb]. unfold Py.bind at 1. rewrite (Hx Hx').
    destruct (has_command x); [reflexivity|].
    cbn. now apply IHitems.
Qed.

(** C10. [can_undo] on a command that has never been executed, be it a
    [Set], [Add], [Remove] or [Move] or a compound with such a command in
    it, raises [AttributeError] and leaves the store as it is. *)
Theorem can_undo_before_execute_raises (c : Command) (h : Heap) :
  never_executed c = true -> has_command c = true ->
  Command_.can_undo c h = (h, inl AttributeError).
Proof.
  intros Hc Hp. rewrite (can_undo_never_executed c Hc h). now rewrite Hp.
Qed.

Lemma can_undo_before_execute_raises_witness :
  let set_ := mkCommand SetCmd (VRef 0%nat) (FName "name") (VStr "second")
                        VNone None None None None None in
  let add := mkCommand AddCmd (VRef 0%nat) (FName "items") (VStr "x")
                       VNone None None None (Some VNone) None in
  Command_.can_undo (Prim set_) ∅ = (∅, inl AttributeError) /\
  Command_.can_undo (Compound_.init [Compound_.init []; Prim add]) ∅
  = (∅, inl AttributeError).
Proof.
  split; apply can_undo_before_execute_raises; reflexivity.
Defined.

(** ** [Add.can_execute] with an index *)

(** Whenever the common precondition holds, the value is not [None] and
    the collection can be read, asking [can_execute] of an [Add] (or a
    [Remove]) that was given an index raises [NameError]. *)
Lemma Add_can_execute_given_index (c c1 : AbstractCommand) (h h1 h2 : Heap)
    (coll : Value) (i : Z) :
  Cmd.can_execute_base c h = (h1, inr (true, c1)) ->
  value c1 <> VNone ->
  eGet (owner c1) (feature c1) h1 = (h2, inr coll) ->
  index c1 = Some i ->
  Cmd.Add_can_execute c h = (h2, inl NameError).
Proof.
  intros Hb Hv Hg Hi. unfold Cmd.Add_can_execute.
  rewrite (bind_ok _ _ _ _ _ Hb). cbn beta iota.
  rewrite (bind_ok _ _ _ _ _ Hg). cbn. rewrite Hi.
  now rewrite bool_decide_eq_true_2.
Qed.

(** C4. On an instance of [P] whose [items] is the empty list,
    [Add(p, "items", "x", index=0).can_execute] raises [NameError]: the
    index is within [0 <= index <= len] and the answer is not true. *)
Theorem Add_can_execute_in_bounds_raises :
  snd (Example.add_at_index ∅) = inl NameError.
Proof. now vm_compute. Qed.

(** ** The command stack *)

(** [self.top = command] makes the stack one longer, wherever the cursor
    is: nothing to the right of the new command is dropped. *)
Lemma set_top_grows (command : Command) (h : Heap) (st : CommandStack) :
  exists st', Stack.set_top command (h, st) = ((h, st'), inr tt) /\
              length (stack st') = S (length (stack st)) /\
              stack_index st' = stack_index st + 1.
Proof.
  exists (mkStack (py_insert (stack_index st + 1) command (stack st))
                  (stack_index st + 1)).
  split; [reflexivity|]. cbn. split; [apply py_insert_length|reflexivity].
Qed.

(** C1. [p.name] is ["first"]; the stack executes [Set(p, "name",
    "second")], undoes it and executes [Set(p, "name", "third")].  The
    cursor is then 0 and the stack holds two commands, not one; [redo()]
    does not fail: it runs the redo of the discarded command and puts
    ["second"] back in [p.name]. *)
Theorem execute_after_undo_keeps_redo_suffix :
  let r := Example.execute_after_undo (∅, Stack.init) in
  let r' := Stack.redo (fst r) in
  snd r = inr tt /\
  stack_index (snd (fst r)) = 0 /\
  length (stack (snd (fst r))) = 2%nat /\
  slot_of (fst (fst r)) 0%nat "name" = Some (VStr "third") /\
  snd r' = inr tt /\
  slot_of (fst (fst r')) 0%nat "name" = Some (VStr "second").
Proof. now vm_compute. Qed.

Lemma on_heap_run {A} (m : HM A) (h : Heap) (st : CommandStack) h' (r : PyError + A) :
  m h = (h', r) -> Stack.on_heap m (h, st) = ((h', st), r).
Proof. intros H. unfold Stack.on_heap. cbn. now rewrite H. Qed.

Lemma update_at_run (i : Z) (k : nat) (c : Command) (h : Heap) (st : CommandStack) :
  subscript i (length (stack st)) = Some k ->
  Stack.update_at i c (h, st)
  = ((h, mkStack (<[k := c]> (stack st)) (stack_index st)), inr tt).
Proof.
  intros H. unfold Stack.update_at.
  rewrite (bind_ok _ _ (h, st) (h, st) st) by reflexivity. now rewrite H.
Qed.

Lemma del_top_run (h : Heap) (st : CommandStack) :
  Stack.del_top (h, st) = ((h, mkStack (stack st) (stack_index st - 1)), inr tt).
Proof. reflexivity. Qed.

Lemma stack_top_unwound (h : Heap) (st : CommandStack) (c : Command) :
  last (stack st) = Some c -> stack_index st = -1 ->
  Stack.top (h, st) = ((h, st), inr c).
Proof.
  intros Hl Hi. unfold Stack.top, Stack.the_stack, Py.bind, Py.lift. cbn.
  rewrite Hi. unfold py_getitem.
  assert (0 < length (stack st))%nat as Hlen.
  { destruct (stack st); [discriminate|cbn; lia]. }
  rewrite subscript_minus_one by assumption.
  rewrite last_lookup in Hl.
  replace (length (stack st) - 1)%nat with (pred (length (stack st))) by lia.
  now rewrite Hl.
Qed.

(** C9, amended.  On a stack that is not empty and whose cursor is -1,
    [undo()] takes the last command of the stack as the top and asks its
    [can_undo]: if that is true it runs the command's undo again and moves
    the cursor to -2; if it is false it returns with stack and cursor as
    they were.  An exception comes from the command only, never from the
    guard against the empty stack. *)
Theorem undo_on_unwound_stack (h : Heap) (st : CommandStack) (c : Command) :
  last (stack st) = Some c -> stack_index st = -1 ->
  (forall h1 h2 c',
      Command_.can_undo c h = (h1, inr true) ->
      Command_.undo c h1 = (h2, inr c') ->
      Stack.undo (h, st)
      = ((h2, mkStack (<[(length (stack st) - 1)%nat := c']> (stack st)) (-2)),
         inr tt)) /\
  (forall h1,
      Command_.can_undo c h = (h1, inr false) ->
      Stack.undo (h, st) = ((h1, st), inr tt)) /\
  (forall h1 e,
      Command_.can_undo c h = (h1, inl e) ->
      Stack.undo (h, st) = ((h1, st), inl e)) /\
  (forall h1 h2 e,
      Command_.can_undo c h = (h1, inr true) ->
      Command_.undo c h1 = (h2, inl e) ->
      Stack.undo (h, st) = ((h2, st), inl e)).
Proof.
  intros Hl Hi.
  assert (0 < length (stack st))%nat as Hlen.
  { destruct (stack st); [discriminate|cbn; lia]. }
  assert (forall A (k : Command -> Stack.SM A),
             Stack.undo (h, st)
             = (let* can := Stack.on_heap (Command_.can_undo c) in
                if can then
                  let* c0 := Stack.top in
                  let* c' := Stack.on_heap (Command_.undo c0) in
                  Stack.update_at (stack_index st) c' ;;
                  Stack.del_top
                else Py.ret tt) (h, st)) as Hundo.
  { intros _ _. unfold Stack.undo.
    rewrite (bind_ok _ _ (h, st) (h, st) st) by reflexivity.
    pose proof (stack_top_unwound h st c Hl Hi) as Htop.
    destruct st as [[|c0 l] idx]; [cbn in Hlen; lia|].
    cbn [stack]. now rewrite (bind_ok _ _ _ _ _ Htop). }
  specialize (Hundo unit (fun _ => Py.ret tt)).
  repeat split.
  - intros h1 h2 c' Hcan Hun. rewrite Hundo.
    rewrite (bind_ok _ _ _ _ _ (on_heap_run _ h st _ _ Hcan)).
    rewrite (bind_ok _ _ _ _ _ (stack_top_unwound h1 st c Hl Hi)).
    rewrite (bind_ok _ _ _ _ _ (on_heap_run _ h1 st _ _ Hun)).
    rewrite Hi.
    rewrite (bind_ok _ _ _ _ _
               (update_at_run (-1) _ c' h2 st (subscript_minus_one _ Hlen))).
    rewrite del_top_run. cbn. now rewrite Hi.
  - intros h1 Hcan. rewrite Hundo.
    now rewrite (bind_ok _ _ _ _ _ (on_heap_run _ h st _ _ Hcan)).
  - intros h1 e Hcan. rewrite Hundo.
    now rewrite (bind_err _ _ _ _ _ (on_heap_run _ h st _ _ Hcan)).
  - intros h1 h2 e Hcan Hun. rewrite Hundo.
    rewrite (bind_ok _ _ _ _ _ (on_heap_run _ h st _ _ Hcan)).
    rewrite (bind_ok _ _ _ _ _ (stack_top_unwound h1 st c Hl Hi)).
    now rewrite (bind_err _ _ _ _ _ (on_heap_run _ h1 st _ _ Hun)).
Qed.

Lemma undo_on_unwound_stack_witness :
  let s := fst (Example.set_then_undo (∅, Stack.init)) in
  let r := Stack.undo (fst s, snd s) in
  stack_index (snd s) = -1 /\ length (stack (snd s)) = 1%nat /\
  snd r = inr tt /\ stack_index (snd (fst r)) = -2 /\
  slot_of (fst (fst r)) 0%nat "name" = Some (VStr "first").
Proof.
  cbv zeta.
  set (s := fst (Example.set_then_undo (∅, Stack.init))).
  set (c := default (Compound_.init []) (last (stack (snd s)))).
  assert (last (stack (snd s)) = Some c) as Hl by (now vm_compute).
  assert (stack_index (snd s) = -1) as Hi by (now vm_compute).
  destruct (undo_on_unwound_stack (fst s) (snd s) c Hl Hi) as [Hrun _].
  set (r1 := Command_.can_undo c (fst s)).
  set (r2 := Command_.undo c (fst r1)).
  assert (r1 = (fst r1, inr true)) as H1 by (now vm_compute).
  assert (r2 = (fst r2, inr match snd r2 with inr c' => c' | inl _ => c end))
    as H2 by (now vm_compute).
  rewrite (Hrun _ _ _ H1 H2).
  repeat split; now vm_compute.
Defined.

(** C9, counterexample.  The stack has executed [Add(p, "items", "x")] and
    undone it: it holds one command and its cursor is -1.  Another
    [undo()] returns normally; the undo of the command is not run again
    and the cursor stays at -1. *)
Lemma undo_unwound_add_keeps_cursor :
  let r0 := Example.add_then_undo (∅, Stack.init) in
  let r := Stack.undo (fst r0) in
  snd r0 = inr tt /\
  length (stack (snd (fst r0))) = 1%nat /\ stack_index (snd (fst r0)) = -1 /\
  snd r = inr tt /\ stack_index (snd (fst r)) = -1 /\
  stack_index (snd (fst r)) <> -2.
Proof. now vm_compute. Qed.

(** ** Appending to a containment collection *)

Lemma py_eqb_refl (x : Value) : py_eqb x x = true.
Proof. unfold py_eqb. now apply bool_decide_eq_true_2. Qed.

Lemma py_in_snoc (x : Value) (l : list Value) : py_in x (l ++ [x]) = true.
Proof.
  unfold py_in. rewrite existsb_app. cbn. rewrite py_eqb_refl.
  now rewrite orb_true_r.
Qed.

(** After [append], the element is in the collection. *)
Lemma data_contains_append (x : Value) (d : CollData) :
  data_contains x (ECollectionOps.data_append x d) = true.
Proof.
  destruct d as [l|l|os]; cbn.
  - apply py_in_snoc.
  - destruct (py_in x l) eqn:E; cbn; [assumption|apply py_in_snoc].
  - unfold ordered_set.add, ordered_set.contains.
    destruct (ordered_set.mem x (ordered_set.map os)) eqn:E; [assumption|].
    cbn. unfold ordered_set.mem. apply bool_decide_eq_true_2.
    rewrite lookup_insert_eq. eauto.
Qed.

(** C2, amended.  Appending a model element [b] to a containment
    collection whose opposite is scalar (the [children] of [a2], with
    opposite [parent]) sets [b.parent] and [b._container] to the owner of
    the collection and puts [b] in the collection.  No other collection is
    touched: one that held [b] before, as the [children] of a former
    container does, holds it still. *)
Theorem append_to_containment (h : Heap) (l2 b : loc) (c2 : ECollection)
    (ob : EObject) (opp : EOpposite) :
  h !! l2 = Some (HColl c2) ->
  kind (_efeature c2) = EReference true (Some opp) ->
  opp_many opp = false ->
  h !! b = Some (HInst ob) ->
  EcoreUtils.isinstance h (VRef b) (eType (_efeature c2)) = true ->
  exists h',
    ECollection_append l2 (VRef b) true h = (h', inr tt) /\
    slot_of h' b (opp_name opp) = Some (VRef (_owner c2)) /\
    container_of h' b = Some (VRef (_owner c2)) /\
    data_of h' l2 = Some (ECollectionOps.data_append (VRef b) (data c2)) /\
    data_contains (VRef b) (ECollectionOps.data_append (VRef b) (data c2)) = true /\
    forall l c, l <> l2 -> h !! l = Some (HColl c) -> h' !! l = Some (HColl c).
Proof.
  intros Hl2 Hkind Hmany Hb Hty.
  assert (b <> l2) as Hne by (intros ->; rewrite Hl2 in Hb; discriminate).
  set (ob1 := mkEObject (eClass ob) (slots ob) (VRef (_owner c2))
                        (Some (_efeature c2)) (_isset ob) (_isready ob)).
  set (ob2 := set_slot (opp_name opp) (VRef (_owner c2)) ob1).
  set (h1 := <[b := HInst ob1]> h).
  set (h2 := <[b := HInst ob2]> h1).
  set (c2' := mkECollection (_owner c2) (_efeature c2)
                (ECollectionOps.data_append (VRef b) (data c2))).
  exists (<[l2 := HColl c2']> h2).
  split; [|repeat split].
  - unfold ECollection_append, ECollectionOps.append.
    rewrite (bind_ok _ _ h h c2) by (unfold get_coll; now rewrite Hl2).
    rewrite (bind_ok _ _ h h tt).
    2:{ unfold ECollectionOps.check. rewrite (bind_ok _ _ h h h) by reflexivity.
        now rewrite Hty. }
    rewrite (bind_ok _ _ h h2 tt).
    2:{ rewrite (bind_ok _ _ h h1 tt).
        - unfold ECollectionOps._update_opposite, is_EReference, eOpposite_of.
          rewrite Hkind. cbn. rewrite Hmany. cbn.
          unfold raw_setattr, h1. now rewrite lookup_insert_eq.
        - unfold ECollectionOps._update_container, is_EReference, containment_of.
          rewrite (bind_ok _ _ h h h) by reflexivity.
          rewrite Hkind. cbn. unfold set_container. now rewrite Hb. }
    unfold ECollectionOps.on_data.
    rewrite (bind_ok _ _ h2 h2 c2).
    2:{ unfold get_coll, h2, h1. now rewrite !lookup_insert_ne, Hl2 by congruence. }
    rewrite (bind_ok _ _ h2 (<[l2 := HColl c2']> h2) tt); [reflexivity|].
    unfold set_data. rewrite (bind_ok _ _ h2 h2 c2); [reflexivity|].
    unfold get_coll, h2, h1. now rewrite !lookup_insert_ne, Hl2 by congruence.
  - unfold slot_of, h2. rewrite lookup_insert_ne, lookup_insert_eq by congruence.
    cbn. now rewrite lookup_insert_eq.
  - unfold container_of, h2. now rewrite lookup_insert_ne, lookup_insert_eq by congruence.
  - unfold data_of. now rewrite lookup_insert_eq.
  - apply data_contains_append.
  - intros l c Hl Hc. unfold h2, h1.
    rewrite !lookup_insert_ne; [assumption| |congruence..].
    intros ->. rewrite Hb in Hc. discriminate.
Qed.

Lemma append_to_containment_witness :
  let r0 := Scenario.before_transfer ∅ in
  let h := fst r0 in
  exists h',
    Scenario.containment_transfer ∅ = (h', inr tt) /\
    slot_of h' 2%nat "parent" = Some (VRef 1%nat) /\
    container_of h' 2%nat = Some (VRef 1%nat) /\
    option_map (data_contains (VRef 2%nat)) (data_of h' 4%nat) = Some true /\
    h' !! 3%nat = h !! 3%nat.
Proof.
  cbv zeta.
  set (h := fst (Scenario.before_transfer ∅)).
  assert (h !! 4%nat = Some (HColl (the_coll h 4%nat))) as H4 by (now vm_compute).
  assert (h !! 2%nat = Some (HInst (the_inst h 2%nat))) as H2 by (now vm_compute).
  assert (h !! 3%nat = Some (HColl (the_coll h 3%nat))) as H3 by (now vm_compute).
  destruct (append_to_containment h 4%nat 2%nat (the_coll h 4%nat)
              (the_inst h 2%nat) (mkOpposite "parent" 1) H4)
    as [h' (Hrun & Hp & Hc & Hd & Hin & Hother)];
    [now vm_compute | reflexivity | exact H2 | now vm_compute |].
  exists h'. repeat split.
  - unfold Scenario.containment_transfer.
    rewrite (bind_ok _ _ ∅ h (VRef 4%nat, VRef 2%nat)) by (now vm_compute).
    cbn [fst snd]. unfold Seq.append, ECollectionOps.call_append.
    rewrite (bind_ok _ _ h h h) by reflexivity.
    replace (is_ECollection h (VRef 4%nat)) with true by (now vm_compute).
    exact Hrun.
  - exact Hp.
  - exact Hc.
  - rewrite Hd. cbn. now rewrite Hin.
  - rewrite H3. apply Hother; [lia|exact H3].
Defined.

(** C2, counterexample.  In scenario S1, after [a1.children.append(b)] and
    then [a2.children.append(b)], [b.parent] and [b._container] are [a2],
    and [a1.children] contains [b] as before. *)
Lemma containment_transfer_keeps_old_child :
  let r := Scenario.containment_transfer ∅ in
  let h := fst r in
  snd r = inr tt /\
  slot_of h 0%nat "children" = Some (VRef 3%nat) /\
  slot_of h 1%nat "children" = Some (VRef 4%nat) /\
  slot_of h 2%nat "parent" = Some (VRef 1%nat) /\
  container_of h 2%nat = Some (VRef 1%nat) /\
  option_map (data_contains (VRef 2%nat)) (data_of h 3%nat) = Some true /\
  option_map elements_of (data_of h 3%nat) = Some [VRef 2%nat].
Proof. now vm_compute. Qed.

(** ** Writing a scalar feature *)

(** A feature found under a name has that name. *)
Lemma findEStructuralFeature_name (c : EClass) (n : string) (f : EStructuralFeature) :
  findEStructuralFeature c n = Some f -> name f = n.
Proof.
  unfold findEStructuralFeature. intros H.
  apply find_some in H as [_ H]. now apply String.eqb_eq.
Qed.

(** [None] passes every type, and the parser leaves it alone. *)
Lemma isinstance_None (h : Heap) (t : EClassifier) :
  EcoreUtils.isinstance h VNone t = true.
Proof. reflexivity. Qed.

Lemma stored_value_not_str (t : EClassifier) (v : Value) :
  (forall s, v <> VStr s) -> Core.stored_value t v = v.
Proof. intros H. destruct t, v; try reflexivity. now destruct (H s). Qed.



Lemma preserves_pure {A} (P : Heap -> Prop) (m : HM A) :
  (forall h, fst (m h) = h) -> preserves P m.
Proof. intros H h h' r HP E. specialize (H h). rewrite E in H. cbn in H. now subst. Qed.

Lemma preserves_ret {A} (P : Heap -> Prop) (a : A) : preserves P (Py.ret a).
Proof. now apply preserves_pure. Qed.

Lemma preserves_raise {A} (P : Heap -> Prop) (e : PyError) :
  preserves P (Py.raise e : HM A).
Proof. now apply preserves_pure. Qed.

Lemma preserves_get (P : Heap -> Prop) : preserves P Py.get.
Proof. now apply preserves_pure. Qed.

Lemma preserves_lift {A} (P : Heap -> Prop) (r : PyError + A) : preserves P (Py.lift r).
Proof. now apply preserves_pure. Qed.

Lemma preserves_get_inst (P : Heap -> Prop) (l : loc) : preserves P (get_inst l).
Proof. apply preserves_pure. intros h. unfold get_inst. now destruct (h !! l) as [[]|]. Qed.

Lemma preserves_get_coll (P : Heap -> Prop) (l : loc) : preserves P (get_coll l).
Proof. apply preserves_pure. intros h. unfold get_coll. now destruct (h !! l) as [[]|]. Qed.

Lemma preserves_catch {A} (P : Heap -> Prop) (m h' : HM A) (e : PyError) :
  preserves P m -> preserves P h' -> preserves P (Py.catch m e h').
Proof.
  intros Hm Hh h0 h1 r HP. unfold Py.catch.
  destruct (m h0) as [h2 [e'|a]] eqn:E.
  - destruct (decide (e' = e)).
    + intros Hr. eapply Hh; [|exact Hr]. eapply Hm; eauto.
    + intros [= <- <-]. eapply Hm; eauto.
  - intros [= <- <-]. eapply Hm; eauto.
Qed.

Create HintDb preserves.
#[local] Hint Resolve preserves_ret preserves_raise preserves_get preserves_lift
  preserves_get_inst preserves_get_coll : preserves.

Section SlotKept.

(** The slot [n] of the model element [self] holds [x]. *)
Variables (self : loc) (n : string) (x : Value).


Lemma slot_is_inst (h : Heap) :
  (slot_is self n x) h -> exists o, h !! self = Some (HInst o) /\ slots o !! n = Some x.
Proof.
  unfold slot_is, slot_of. destruct (h !! self) as [[o|c]|]; try discriminate. eauto.
Qed.

Lemma slot_is_insert_other (h : Heap) (l : loc) (o : HObj) :
  l <> self -> (slot_is self n x) h -> (slot_is self n x) (<[l := o]> h).
Proof. intros Hne. unfold slot_is, slot_of. now rewrite lookup_insert_ne. Qed.







Lemma create_kept (w : loc) (f : EStructuralFeature) :
  preserves (slot_is self n x) (ECollectionOps.create w f).
Proof.
  intros h h' r HP. unfold ECollectionOps.create. intros [= <- <-].
  apply slot_is_insert_other; [|assumption].
  intros Heq. apply slot_is_inst in HP as [o' [Ho' _]].
  assert (self ∈ dom h) as Hin by (apply elem_of_dom; eauto).
  rewrite <- Heq in Hin. now apply is_fresh in Hin.
Qed.






End SlotKept.

(** *** What [Core.getattr] does to the store *)


Lemma maintain_collection cb (w : loc) (feat : EStructuralFeature) (y : Value) (h : Heap) :
  is_EObject h y = false -> y <> VNone ->
  Core.maintain cb w feat y VNone h = (h, inr tt).
Proof.
  intros Hobj Hne. unfold Core.maintain.
  rewrite (bind_ok _ _ h h h) by reflexivity.
  rewrite Hobj, andb_false_r. cbn [truthy]. rewrite andb_false_r.
  rewrite (bind_ok _ _ h h tt) by reflexivity.
  rewrite (bind_ok _ _ h h h) by reflexivity.
  destruct (eOpposite_of feat); [|reflexivity].
  rewrite Hobj. now rewrite bool_decide_eq_false_2.
Qed.


Lemma setattr_fill (w : loc) (m : string) (y : Value) (h : Heap) (ow : EObject)
    (f : EStructuralFeature) cb :
  h !! w = Some (HInst ow) ->
  findEStructuralFeature (eClass ow) m = Some f ->
  slots ow !! m = None ->
  (if many f then is_ECollection h y = true
   else EcoreUtils.isinstance h y (eType f) = true) ->
  (is_EReference f = true ->
   let h' := <[w := HInst (filled m (Core.stored_value (eType f) y) ow)]> h in
   exists r, Core.maintain cb w f y VNone h' = (h', r)) ->
  exists r,
    Core.setattr cb w m y h
    = (<[w := HInst (filled m (Core.stored_value (eType f) y) ow)]> h, r) /\
    (_isready ow && is_EReference f = false -> r = inr tt).
Proof.
  intros Hw Hf Hslot Hty Hm.
  pose proof (findEStructuralFeature_name _ _ _ Hf) as Hname.
  unfold Core.setattr.
  rewrite (bind_ok _ _ h h ow) by (unfold get_inst; now rewrite Hw).
  rewrite Hf. rewrite (bind_ok _ _ h h h) by reflexivity.
  destruct (many f) eqn:Em.
  - rewrite Hty. cbn [negb andb].
    rewrite (bind_ok _ _ h h VNone).
    2:{ unfold Py.catch, raw_getattribute.
        rewrite (bind_ok _ _ h h ow) by (unfold get_inst; now rewrite Hw).
        rewrite Hname, Hslot. cbn. now destruct (decide _). }
    set (h1 := <[w := HInst (set_slot m (Core.stored_value (eType f) y) ow)]> h).
    rewrite (bind_ok _ _ h h1 tt) by (unfold raw_setattr; now rewrite Hw).
    destruct (_isready ow) eqn:Er.
    + set (h2 := <[w := HInst (filled m (Core.stored_value (eType f) y) ow)]> h).
      rewrite (bind_ok _ _ h1 h2 tt).
      2:{ unfold mark_isset.
          rewrite (bind_ok _ _ h1 h1 (set_slot m (Core.stored_value (eType f) y) ow))
            by (unfold get_inst, h1; now rewrite lookup_insert_eq).
          unfold Py.modify, h2, h1, filled. rewrite insert_insert_eq. cbn.
          now rewrite Er. }
      cbn [andb]. destruct (is_EReference f).
      * destruct (Hm eq_refl) as [r Hr]. exists r. split; [exact Hr|discriminate].
      * exists (inr tt). split; reflexivity.
    + rewrite (bind_ok _ _ h1 h1 tt) by reflexivity. cbn [andb].
      exists (inr tt). split; [|reflexivity].
      unfold h1, filled, set_slot. now rewrite Er.
  - cbn [andb negb]. rewrite Hty. cbn [negb].
    rewrite (bind_ok _ _ h h VNone).
    2:{ unfold Py.catch, raw_getattribute.
        rewrite (bind_ok _ _ h h ow) by (unfold get_inst; now rewrite Hw).
        rewrite Hname, Hslot. cbn. now destruct (decide _). }
    set (h1 := <[w := HInst (set_slot m (Core.stored_value (eType f) y) ow)]> h).
    rewrite (bind_ok _ _ h h1 tt) by (unfold raw_setattr; now rewrite Hw).
    destruct (_isready ow) eqn:Er.
    + set (h2 := <[w := HInst (filled m (Core.stored_value (eType f) y) ow)]> h).
      rewrite (bind_ok _ _ h1 h2 tt).
      2:{ unfold mark_isset.
          rewrite (bind_ok _ _ h1 h1 (set_slot m (Core.stored_value (eType f) y) ow))
            by (unfold get_inst, h1; now rewrite lookup_insert_eq).
          unfold Py.modify, h2, h1, filled. rewrite insert_insert_eq. cbn.
          now rewrite Er. }
      cbn [andb]. destruct (is_EReference f).
      * destruct (Hm eq_refl) as [r Hr]. exists r. split; [exact Hr|discriminate].
      * exists (inr tt). split; reflexivity.
    + rewrite (bind_ok _ _ h1 h1 tt) by reflexivity. cbn [andb].
      exists (inr tt). split; [|reflexivity].
      unfold h1, filled, set_slot. now rewrite Er.
Qed.

(** [getattr] on a slot that holds a value returns it. *)
Lemma getattr_present (w : loc) (m : string) (h : Heap) (ow : EObject) (y : Value) :
  h !! w = Some (HInst ow) -> slots ow !! m = Some y ->
  Core.getattr w m h = (h, inr y).
Proof.
  intros Hw Hs. unfold Core.getattr.
  rewrite (bind_ok _ _ h h ow) by (unfold get_inst; now rewrite Hw).
  now rewrite Hs.
Qed.

(** On an empty slot of a many-valued feature it makes a new collection,
    owned by the element, and fills the slot with it. *)
Lemma getattr_many (w : loc) (m : string) (h : Heap) (ow : EObject)
    (f : EStructuralFeature) :
  h !! w = Some (HInst ow) -> slots ow !! m = None ->
  findEStructuralFeature (eClass ow) m = Some f -> many f = true ->
  let cl := fresh (dom h) in
  Core.getattr w m h
  = (<[w := HInst (filled m (VRef cl) ow)]>
       (<[cl := HColl (mkECollection w f (ECollectionOps.new_data f))]> h),
     inr (VRef cl)).
Proof.
  intros Hw Hs Hf Hm cl. unfold Core.getattr.
  rewrite (bind_ok _ _ h h ow) by (unfold get_inst; now rewrite Hw).
  rewrite Hs, Hf, Hm.
  set (h1 := <[cl := HColl (mkECollection w f (ECollectionOps.new_data f))]> h).
  rewrite (bind_ok _ _ h h1 (VRef cl)) by reflexivity.
  assert (cl <> w) as Hne.
  { intros E. assert (w ∈ dom h) as Hin by (apply elem_of_dom; eauto).
    rewrite <- E in Hin. now apply is_fresh in Hin. }
  assert (h1 !! w = Some (HInst ow)) as Hw1
    by (unfold h1; now rewrite lookup_insert_ne).
  destruct (setattr_fill w m (VRef cl) h1 ow f (fun _ _ => Py.raise AttributeError)
              Hw1 Hf Hs) as [r [Hr Hok]].
  - rewrite Hm. cbn. unfold h1. now rewrite lookup_insert_eq.
  - intros _. cbv zeta. exists (inr tt). apply maintain_collection; [|discriminate].
    cbn. rewrite lookup_insert_ne by congruence. unfold h1.
    now rewrite lookup_insert_eq.
  - assert (r = inr tt) as ->.
    { destruct (_isready ow && is_EReference f) eqn:E; [|now apply Hok].
      rewrite stored_value_not_str in Hr by discriminate.
      unfold Core.setattr in Hr.
      rewrite (bind_ok _ _ h1 h1 ow) in Hr by (unfold get_inst; now rewrite Hw1).
      rewrite Hf in Hr. rewrite (bind_ok _ _ h1 h1 h1) in Hr by reflexivity.
      rewrite Hm in Hr. cbn [andb negb is_ECollection] in Hr.
      unfold h1 in Hr at 1. rewrite lookup_insert_eq in Hr.
      cbn [negb] in Hr.
      pose proof (findEStructuralFeature_name _ _ _ Hf) as Hname.
      rewrite (bind_ok _ _ h1 h1 VNone) in Hr.
      2:{ unfold Py.catch, raw_getattribute.
          rewrite (bind_ok _ _ h1 h1 ow) by (unfold get_inst; now rewrite Hw1).
          rewrite Hname, Hs. cbn. now destruct (decide _). }
      apply andb_prop in E as [Er Eref]. rewrite Er in Hr.
      set (h2 := <[w := HInst (set_slot m (Core.stored_value (eType f) (VRef cl)) ow)]> h1) in *.
      rewrite (bind_ok _ _ h1 h2 tt) in Hr by (unfold raw_setattr; now rewrite Hw1).
      set (h3 := <[w := HInst (filled m (Core.stored_value (eType f) (VRef cl)) ow)]> h1) in *.
      rewrite (bind_ok _ _ h2 h3 tt) in Hr.
      2:{ unfold mark_isset.
          rewrite (bind_ok _ _ h2 h2 (set_slot m (Core.stored_value (eType f) (VRef cl)) ow))
            by (unfold get_inst, h2; now rewrite lookup_insert_eq).
          unfold Py.modify, h3, h2, filled. rewrite insert_insert_eq. cbn.
          now rewrite Er. }
      rewrite Eref in Hr. cbn [andb] in Hr.
      rewrite maintain_collection in Hr; [congruence| |discriminate].
      cbn. unfold h3. rewrite lookup_insert_ne by congruence.
      unfold h1. now rewrite lookup_insert_eq. }
    rewrite stored_value_not_str in Hr by discriminate.
    now rewrite (bind_ok _ _ _ _ _ Hr).
Qed.




Section SlotKeptByGetattr.

Variables (self : loc) (n : string) (x : Value).



End SlotKeptByGetattr.



Section SlotKeptByMaintain.

Variables (self : loc) (n : string) (x : Value).

Abbreviation kept := (preserves (slot_is self n x)).






End SlotKeptByMaintain.




Section SlotKeptBySetattr.

Variables (self : loc) (n : string) (x : Value).




End SlotKeptBySetattr.

Lemma previous_value_run (self : loc) (m : string) (h : Heap) (o : EObject) :
  h !! self = Some (HInst o) ->
  Py.catch (raw_getattribute (VRef self) m) AttributeError (Py.ret VNone) h
  = (h, inr (default VNone (slots o !! m))).
Proof.
  intros Hs. unfold Py.catch, raw_getattribute.
  rewrite (bind_ok _ _ h h o) by (unfold get_inst; now rewrite Hs).
  destruct (slots o !! m); [reflexivity|]. cbn. now destruct (decide _).
Qed.

(** [Core.setattr] on a scalar feature: the type check, the store, and
    what comes after the store. *)
Lemma setattr_scalar_run (h : Heap) (self : loc) (o : EObject) (n : string)
    (feat : EStructuralFeature) (v : Value) :
  h !! self = Some (HInst o) ->
  findEStructuralFeature (eClass o) n = Some feat ->
  many feat = false ->
  Core_setattr self n v h
  = if EcoreUtils.isinstance h v (eType feat) then
      after_store self n o feat v (default VNone (slots o !! n))
        (<[self := HInst (set_slot n (Core.stored_value (eType feat) v) o)]> h)
    else (h, inl BadValueError).
Proof.
  intros Hself Hfeat Hmany. unfold Core_setattr, Core.setattr.
  rewrite (bind_ok _ _ h h o) by (unfold get_inst; now rewrite Hself).
  rewrite Hfeat. rewrite (bind_ok _ _ h h h) by reflexivity.
  rewrite Hmany. cbn [andb negb].
  destruct (EcoreUtils.isinstance h v (eType feat)); [|reflexivity]. cbn [negb].
  rewrite (bind_ok _ _ _ _ _ (previous_value_run self (name feat) h o Hself)).
  rewrite (findEStructuralFeature_name _ _ _ Hfeat).
  now rewrite (bind_ok _ _ h
                 (<[self := HInst (set_slot n (Core.stored_value (eType feat) v) o)]> h) tt)
    by (unfold raw_setattr; now rewrite Hself).
Qed.




(** The typing rule, case by case. *)
Lemma isinstance_rule (h : Heap) :
  (forall t, EcoreUtils.isinstance h VNone t = true) /\
  (forall v en lits d, v <> VNone ->
     EcoreUtils.isinstance h v (EEnum en lits d) = EEnum_contains lits v) /\
  (forall v dn t d fs, v <> VNone ->
     EcoreUtils.isinstance h v (EDataType dn t d fs) = py_isinstance h v t) /\
  (forall l o c, h !! l = Some (HInst o) ->
     EcoreUtils.isinstance h (VRef l) (EClassRef c)
     = Nat.eqb (cid (eClass o)) c || cid_in c (eAllSuperTypes (eClass o) [])).
Proof.
  repeat split.
  - intros v en lits d Hv. now destruct v.
  - intros v dn t d fs Hv. now destruct v.
  - intros l o c Hl. cbn. now rewrite Hl.
Qed.

(** ** What [can_execute] establishes *)

Lemma can_execute_base_resolves (h : Heap) (self : loc) (o : EObject) (n : string)
    (feat : EStructuralFeature) (farg : FeatureArg) (c : AbstractCommand) :
  h !! self = Some (HInst o) ->
  findEStructuralFeature (eClass o) n = Some feat ->
  farg = FName n \/ farg = FObj feat ->
  owner c = VRef self -> feature c = farg ->
  Cmd.can_execute_base c h = (h, inr (true, Cmd.with_feature (FObj feat) c)).
Proof.
  intros Hs Hf Harg Ho Hc. unfold Cmd.can_execute_base.
  rewrite (bind_ok _ _ h h (eClass o)).
  2:{ unfold Cmd.owner_eClass. rewrite (bind_ok _ _ h h h) by reflexivity.
      rewrite Ho. cbn. now rewrite Hs. }
  rewrite Hc. destruct Harg as [->| ->].
  - now rewrite Hf.
  - rewrite (findEStructuralFeature_name _ _ _ Hf), Hf, Nat.eqb_refl.
    cbn. do 3 f_equal. destruct c. cbn in *. now subst.
Qed.




(** ** Execute, then undo *)

(** *** Python lists *)

Lemma py_pop_at {A} (l : list A) (k : nat) (x : A) :
  l !! k = Some x -> py_pop l (Z.of_nat k) = inr (x, delete k l).
Proof.
  intros H. unfold py_pop.
  rewrite subscript_in_range by (apply lookup_lt_Some in H; lia).
  now rewrite Nat2Z.id, H.
Qed.

Lemma py_getitem_at {A} (l : list A) (k : nat) (x : A) :
  l !! k = Some x -> py_getitem l (Z.of_nat k) = inr x.
Proof.
  intros H. unfold py_getitem.
  rewrite subscript_in_range by (apply lookup_lt_Some in H; lia).
  now rewrite Nat2Z.id, H.
Qed.

Lemma py_pop_out_of_range {A} (l : list A) (i : Z) :
  Z.of_nat (length l) <= i -> py_pop l i = inl IndexError.
Proof.
  intros H. unfold py_pop, subscript.
  destruct (Z.ltb_spec i 0); [lia|].
  destruct (Z.leb_spec 0 i); [|lia].
  destruct (Z.ltb_spec i (Z.of_nat (length l))); [lia|reflexivity].
Qed.

(** Putting back what was taken out. *)
Lemma py_insert_delete {A} (l : list A) (k : nat) (x : A) :
  l !! k = Some x -> py_insert (Z.of_nat k) x (delete k l) = l.
Proof.
  intros H. pose proof (lookup_lt_Some _ _ _ H) as Hlt.
  rewrite py_insert_in_range by (rewrite length_delete by eauto; lia).
  rewrite delete_take_drop.
  rewrite take_app_le by (rewrite length_take; lia).
  rewrite take_take, Nat.min_id.
  rewrite drop_app_ge by (rewrite length_take; lia).
  rewrite length_take, Nat.min_l by lia. rewrite Nat.sub_diag, drop_0.
  now apply take_drop_middle.
Qed.

(** Taking out what was put in. *)
Lemma py_pop_insert {A} (l : list A) (k : nat) (x : A) :
  (k <= length l)%nat ->
  py_pop (py_insert (Z.of_nat k) x l) (Z.of_nat k) = inr (x, l).
Proof.
  intros H. rewrite py_insert_in_range by assumption.
  assert (length (take k l) = k) as Hk by (rewrite length_take; lia).
  rewrite <- (take_drop k l) at 3.
  remember (take k l) as l1 eqn:E1. remember (drop k l) as l2 eqn:E2.
  clear E1 E2. subst k.
  rewrite (py_pop_at _ (length l1) x).
  - now rewrite delete_middle.
  - now apply list_lookup_middle.
Qed.

Lemma py_pop_snoc {A} (l : list A) (x : A) :
  py_pop (l ++ [x]) (Z.of_nat (length l)) = inr (x, l).
Proof.
  rewrite (py_pop_at _ (length l) x).
  - do 2 f_equal. rewrite delete_middle. apply app_nil_r.
  - now apply list_lookup_middle.
Qed.

Lemma find_index_lookup {A} (p : A -> bool) (l : list A) (k : nat) :
  find_index p l = Some k -> exists x, l !! k = Some x /\ p x = true.
Proof.
  revert k. induction l as [|y l IH]; intros k; cbn; [discriminate|].
  destruct (p y) eqn:E.
  - intros [= <-]. eauto.
  - destruct (find_index p l) as [k'|]; cbn; [|discriminate].
    intros [= <-]. now apply IH.
Qed.

Lemma py_in_lookup (x : Value) (l : list Value) (k : nat) :
  l !! k = Some x -> py_in x l = true.
Proof.
  intros H. unfold py_in. apply existsb_exists. exists x.
  split; [|apply py_eqb_refl].
  apply list_elem_of_In. now apply (list_elem_of_lookup_2 _ k).
Qed.

Lemma py_in_find_index (x : Value) (l : list Value) (k : nat) :
  find_index (py_eqb x) l = Some k -> py_in x l = true.
Proof.
  intros H. apply find_index_lookup in H as [y [Hy Hp]].
  unfold py_in. apply existsb_exists. exists y. split; [|assumption].
  apply list_elem_of_In. now apply (list_elem_of_lookup_2 _ k).
Qed.

(** *** The calls of a command on a list-backed collection *)


Section OnEList.

Variables (h : Heap) (cl : loc) (c0 : ECollection) (l : list Value).
Hypothesis Hcl : h !! cl = Some (HColl c0).
Hypothesis Hdata : data c0 = EList l.

Lemma with_data_same : with_data c0 (EList l) = c0.
Proof. destruct c0. cbn in *. now subst. Qed.

Lemma put_back (d : CollData) :
  <[cl := HColl (with_data c0 (EList l))]> (<[cl := HColl (with_data c0 d)]> h) = h.
Proof. rewrite insert_insert_eq, with_data_same. now apply insert_id. Qed.

Lemma Seq_len_EList : Seq.len (VRef cl) h = (h, inr (Z.of_nat (length l))).
Proof.
  unfold Seq.len. rewrite (bind_ok _ _ h h h) by reflexivity.
  now rewrite Hcl, Hdata.
Qed.

Lemma Seq_contains_EList (x : Value) :
  Seq.contains x (VRef cl) h = (h, inr (py_in x l)).
Proof.
  unfold Seq.contains. rewrite (bind_ok _ _ h h h) by reflexivity.
  now rewrite Hcl, Hdata.
Qed.

Lemma Seq_getitem_EList (i : Z) :
  Seq.getitem (VRef cl) (Some i) h = (h, py_getitem l i).
Proof.
  unfold Seq.getitem. rewrite (bind_ok _ _ h h h) by reflexivity.
  now rewrite Hcl, Hdata.
Qed.

Lemma Seq_index_EList (x : Value) :
  Seq.index (VRef cl) x h = (h, py_index x l).
Proof.
  unfold Seq.index. rewrite (bind_ok _ _ h h h) by reflexivity.
  now rewrite Hcl, Hdata.
Qed.

Lemma on_data_run {A} (op : CollData -> CollData * (PyError + A)) :
  ECollectionOps.on_data cl op h
  = (<[cl := HColl (with_data c0 (fst (op (data c0))))]> h, snd (op (data c0))).
Proof.
  unfold ECollectionOps.on_data.
  rewrite (bind_ok _ _ h h c0) by (unfold get_coll; now rewrite Hcl).
  destruct (op (data c0)) as [d' r]. cbn [fst snd].
  rewrite (bind_ok _ _ h (<[cl := HColl (with_data c0 d')]> h) tt); [reflexivity|].
  unfold set_data. now rewrite (bind_ok _ _ h h c0) by (unfold get_coll; now rewrite Hcl).
Qed.

Lemma Seq_insert_EList (i : Z) (x : Value) :
  Seq.insert (VRef cl) (Some i) x h
  = (<[cl := HColl (with_data c0 (EList (py_insert i x l)))]> h, inr tt).
Proof.
  unfold Seq.insert. rewrite (bind_ok _ _ h h h) by reflexivity.
  cbn [is_ECollection]. rewrite Hcl. rewrite on_data_run. now rewrite Hdata.
Qed.

Lemma Seq_pop_EList (i : Z) (x : Value) (l' : list Value) :
  py_pop l i = inr (x, l') ->
  Seq.pop (VRef cl) (Some i) h = (<[cl := HColl (with_data c0 (EList l'))]> h, inr x).
Proof.
  intros Hpop. unfold Seq.pop. rewrite (bind_ok _ _ h h h) by reflexivity.
  cbn [is_ECollection]. rewrite Hcl. rewrite on_data_run. rewrite Hdata.
  cbn [Seq.data_pop]. now rewrite Hpop.
Qed.

Lemma Seq_pop_EList_error (i : Z) (e : PyError) :
  py_pop l i = inl e ->
  Seq.pop (VRef cl) (Some i) h = (h, inl e).
Proof.
  intros Hpop. unfold Seq.pop. rewrite (bind_ok _ _ h h h) by reflexivity.
  cbn [is_ECollection]. rewrite Hcl. rewrite on_data_run. rewrite Hdata.
  cbn [Seq.data_pop]. rewrite Hpop. cbn [fst snd].
  rewrite <- Hdata. f_equal. replace (with_data c0 (data c0)) with c0 by (now destruct c0).
  now apply insert_id.
Qed.

End OnEList.

(** *** Features without containment and without opposite *)



Lemma maintain_plain cb (self : loc) (feat : EStructuralFeature) (v prev : Value) (h : Heap) :
  plain feat -> Core.maintain cb self feat v prev h = (h, inr tt).
Proof.
  intros [Hc Ho]. unfold Core.maintain.
  rewrite (bind_ok _ _ h h h) by reflexivity. rewrite Hc. cbn [andb].
  rewrite (bind_ok _ _ h h tt) by reflexivity.
  rewrite (bind_ok _ _ h h h) by reflexivity. now rewrite Ho.
Qed.

Lemma setattr_plain (h : Heap) (self : loc) (o : EObject) (n : string)
    (feat : EStructuralFeature) (v : Value) :
  h !! self = Some (HInst o) ->
  findEStructuralFeature (eClass o) n = Some feat ->
  many feat = false -> plain feat ->
  EcoreUtils.isinstance h v (eType feat) = true ->
  Core_setattr self n v h
  = (<[self := HInst (filled n (Core.stored_value (eType feat) v) o)]> h, inr tt).
Proof.
  intros Hs Hf Hm Hplain Hty. unfold Core_setattr, Core.setattr.
  rewrite (bind_ok _ _ h h o) by (unfold get_inst; now rewrite Hs).
  rewrite Hf. rewrite (bind_ok _ _ h h h) by reflexivity.
  rewrite Hm, Hty. cbn [andb negb].
  rewrite (bind_ok _ _ _ _ _ (previous_value_run self (name feat) h o Hs)).
  set (x := Core.stored_value (eType feat) v).
  set (h1 := <[self := HInst (set_slot n x o)]> h).
  rewrite (bind_ok _ _ h h1 tt) by (unfold raw_setattr; now rewrite Hs).
  destruct (_isready o) eqn:Er.
  - set (h2 := <[self := HInst (filled n x o)]> h).
    rewrite (bind_ok _ _ h1 h2 tt).
    2:{ unfold mark_isset.
        rewrite (bind_ok _ _ h1 h1 (set_slot n x o))
          by (unfold get_inst, h1; now rewrite lookup_insert_eq).
        unfold Py.modify, h2, h1, filled. rewrite insert_insert_eq. cbn.
        now rewrite Er. }
    cbn [andb]. destruct (is_EReference feat); [|reflexivity].
    now apply maintain_plain.
  - rewrite (bind_ok _ _ h1 h1 tt) by reflexivity. cbn [andb].
    unfold h1, filled, set_slot. now rewrite Er.
Qed.

(** The typing rule looks at the class of a model element only. *)
Lemma isinstance_update (h : Heap) (l : loc) (o o' : EObject) (v : Value)
    (t : EClassifier) :
  h !! l = Some (HInst o) -> eClass o' = eClass o ->
  EcoreUtils.isinstance (<[l := HInst o']> h) v t = EcoreUtils.isinstance h v t.
Proof.
  intros Hl Hc.
  assert (is_EObject (<[l := HInst o']> h) v = is_EObject h v) as Hobj.
  { destruct v as [| | | | |l0|]; try reflexivity. cbn.
    destruct (decide (l = l0)) as [->|Hne].
    - now rewrite lookup_insert_eq, Hl.
    - now rewrite lookup_insert_ne. }
  assert (eClass_of (<[l := HInst o']> h) v = eClass_of h v) as Hcls.
  { destruct v as [| | | | |l0|]; try reflexivity. cbn.
    destruct (decide (l = l0)) as [->|Hne].
    - now rewrite lookup_insert_eq, Hl, Hc.
    - now rewrite lookup_insert_ne. }
  assert (forall p, py_isinstance (<[l := HInst o']> h) v p = py_isinstance h v p) as Hpy.
  { intros p. destruct p, v; try reflexivity; apply Hobj. }
  unfold EcoreUtils.isinstance. destruct v; try reflexivity;
    destruct t; try reflexivity; try apply Hpy; now rewrite Hobj, Hcls.
Qed.

Lemma append_plain (h : Heap) (cl : loc) (c0 : ECollection) (v : Value) :
  h !! cl = Some (HColl c0) -> plain (_efeature c0) ->
  EcoreUtils.isinstance h v (eType (_efeature c0)) = true ->
  Seq.append (VRef cl) v h
  = (<[cl := HColl (with_data c0 (ECollectionOps.data_append v (data c0)))]> h, inr tt).
Proof.
  intros Hcl [Hc Ho] Hty. unfold Seq.append, ECollectionOps.call_append.
  rewrite (bind_ok _ _ h h h) by reflexivity. cbn [is_ECollection]. rewrite Hcl.
  unfold ECollectionOps.append.
  rewrite (bind_ok _ _ h h c0) by (unfold get_coll; now rewrite Hcl).
  rewrite (bind_ok _ _ h h tt).
  2:{ unfold ECollectionOps.check. rewrite (bind_ok _ _ h h h) by reflexivity.
      now rewrite Hty. }
  rewrite (bind_ok _ _ h h tt).
  2:{ rewrite (bind_ok _ _ h h tt).
      - unfold ECollectionOps._update_opposite. rewrite Ho.
        now destruct (negb _).
      - unfold ECollectionOps._update_container.
        rewrite (bind_ok _ _ h h h) by reflexivity. rewrite Hc.
        now destruct (negb _). }
  apply (on_data_run h cl c0 Hcl).
Qed.

(** *** The four commands *)

Ltac cmd_simpl :=
  cbn [cls owner feature value previous_value index from_index to_index
       _collection _executed Cmd.with_feature Cmd.with_value
       Cmd.with_previous_value Cmd.with_index Cmd.with_from_index
       Cmd.with_to_index Cmd.with_collection Cmd.with_executed Cmd.attr
       Cmd.can_undo_base].

Lemma init_run (k : CommandClass) (self : loc) (farg : FeatureArg) (v : Value)
    (h : Heap) (o : EObject) :
  h !! self = Some (HInst o) ->
  Cmd.init k (VRef self) farg v h
  = (h, inr (mkCommand k (VRef self) farg v VNone None None None None None)).
Proof.
  intros Hs. unfold Cmd.init. rewrite (bind_ok _ _ h h h) by reflexivity.
  cbn [truthy is_EObject]. now rewrite Hs.
Qed.

Section ExecuteUndo.

Variables (h : Heap) (self : loc) (o : EObject) (n : string)
          (feat : EStructuralFeature) (farg : FeatureArg).
Hypothesis Hs : h !! self = Some (HInst o).
Hypothesis Hf : findEStructuralFeature (eClass o) n = Some feat.
Hypothesis Harg : farg = FName n \/ farg = FObj feat.

Lemma eGet_resolved (y : Value) :
  slots o !! n = Some y -> eGet (VRef self) (FObj feat) h = (h, inr y).
Proof.
  intros Hy. cbn [eGet]. rewrite (findEStructuralFeature_name _ _ _ Hf).
  now apply (getattr_present self n h o y).
Qed.

(** [Set] on a scalar feature without containment and opposite. *)
Lemma Set_execute_undo (v p : Value) :
  many feat = false -> plain feat ->
  slots o !! n = Some p ->
  EcoreUtils.isinstance h p (eType feat) = true ->
  Core.stored_value (eType feat) p = p ->
  EcoreUtils.isinstance h v (eType feat) = true ->
  exists c c1 c2 c3 h1 h2,
    Cmd.Set_ (VRef self) farg v h = (h, inr c) /\
    Cmd.prim_can_execute c h = (h, inr (true, c1)) /\
    Cmd.prim_execute c1 h = (h1, inr c2) /\
    slot_of h1 self n = Some (Core.stored_value (eType feat) v) /\
    Cmd.prim_can_undo c2 h1 = (h1, inr true) /\
    Cmd.prim_undo c2 h1 = (h2, inr c3) /\
    slot_of h2 self n = Some p.
Proof.
  intros Hm Hplain Hp Htp Hsp Htv.
  pose proof (findEStructuralFeature_name _ _ _ Hf) as Hname.
  set (c := mkCommand SetCmd (VRef self) farg v VNone None None None None None).
  set (c1 := Cmd.with_feature (FObj feat) c).
  set (c2 := Cmd.with_executed true (Cmd.with_previous_value p c1)).
  set (o1 := filled n (Core.stored_value (eType feat) v) o).
  set (h1 := <[self := HInst o1]> h).
  set (h2 := <[self := HInst (filled n (Core.stored_value (eType feat) p) o1)]> h1).
  exists c, c1, c2, c2, h1, h2.
  assert (h1 !! self = Some (HInst o1)) as Hs1 by (unfold h1; apply lookup_insert_eq).
  split; [now apply (init_run SetCmd self farg v h o)|].
  split.
  { unfold Cmd.prim_can_execute, Cmd.Set_can_execute. cbn [cls c].
    rewrite (bind_ok _ _ _ _ _
               (can_execute_base_resolves h self o n feat farg c Hs Hf Harg eq_refl eq_refl)).
    cbn. now rewrite Hm. }
  split.
  { unfold Cmd.prim_execute, Cmd.do_execute, Cmd.Set_do_execute.
    cbn [cls c1 c Cmd.with_feature owner feature value].
    rewrite (bind_ok _ _ h h1 (Cmd.with_previous_value p c1)); [reflexivity|].
    rewrite (bind_ok _ _ _ _ _ (eGet_resolved p Hp)).
    rewrite (bind_ok _ _ h h1 tt); [reflexivity|].
    unfold c1, c.
    cbn [eGet eSet Cmd.with_previous_value Cmd.with_feature owner feature value].
    rewrite Hname. now apply setattr_plain. }
  split.
  { unfold slot_of. rewrite Hs1. cbn. apply lookup_insert_eq. }
  split; [reflexivity|].
  split.
  { unfold Cmd.prim_undo, Cmd.Set_undo. unfold c2, c1, c.
    cbn [cls Cmd.with_feature Cmd.with_previous_value Cmd.with_executed
         owner feature value previous_value eSet].
    rewrite (bind_ok _ _ h1 h2 tt); [reflexivity|]. rewrite Hname.
    apply setattr_plain; try assumption.
    unfold h1. now rewrite (isinstance_update h self o o1). }
  unfold slot_of, h2. rewrite lookup_insert_eq. cbn.
  rewrite lookup_insert_eq. now rewrite Hsp.
Qed.

Variables (cl : loc) (c0 : ECollection) (l : list Value).
Hypothesis Hslot : slots o !! n = Some (VRef cl).
Hypothesis Hcl : h !! cl = Some (HColl c0).
Hypothesis Hdata : data c0 = EList l.

(** [Add] without an index on a list-backed collection of a feature
    without containment and opposite: the whole store is as before. *)
Lemma Add_execute_undo (v : Value) :
  plain (_efeature c0) -> v <> VNone ->
  EcoreUtils.isinstance h v (eType (_efeature c0)) = true ->
  exists c c1 c2 c3 h1,
    Cmd.Add (VRef self) farg v None h = (h, inr c) /\
    Cmd.prim_can_execute c h = (h, inr (true, c1)) /\
    Cmd.prim_execute c1 h = (h1, inr c2) /\
    data_of h1 cl = Some (EList (l ++ [v])) /\
    Cmd.prim_can_undo c2 h1 = (h1, inr true) /\
    Cmd.prim_undo c2 h1 = (h, inr c3).
Proof.
  intros Hplain Hv Hty.
  set (c := mkCommand AddCmd (VRef self) farg v VNone None None None (Some VNone) None).
  set (c1 := Cmd.with_collection (VRef cl) (Cmd.with_feature (FObj feat) c)).
  set (c2 := Cmd.with_executed true
               (Cmd.with_index (Some (Z.of_nat (length l))) c1)).
  set (c0' := with_data c0 (EList (l ++ [v]))).
  set (h1 := <[cl := HColl c0']> h).
  exists c, c1, c2, c2, h1.
  assert (h1 !! cl = Some (HColl c0')) as Hcl1 by (unfold h1; apply lookup_insert_eq).
  split.
  { unfold Cmd.Add. now rewrite (bind_ok _ _ _ _ _ (init_run AddCmd self farg v h o Hs)). }
  split.
  { change (Cmd.prim_can_execute c) with (Cmd.Add_can_execute c).
    unfold Cmd.Add_can_execute.
    rewrite (bind_ok _ _ _ _ _
               (can_execute_base_resolves h self o n feat farg c Hs Hf Harg eq_refl eq_refl)).
    unfold c. cbn beta iota. cmd_simpl.
    rewrite (bind_ok _ _ _ _ _ (eGet_resolved (VRef cl) Hslot)).
    cmd_simpl. cbn [andb]. now rewrite bool_decide_eq_true_2. }
  split.
  { unfold Cmd.prim_execute.
    rewrite (bind_ok _ _ h h1 (Cmd.with_index (Some (Z.of_nat (length l))) c1));
      [reflexivity|].
    change (Cmd.do_execute c1) with (Cmd.Add_do_execute c1).
    unfold Cmd.Add_do_execute, c1, c. cmd_simpl.
    rewrite (bind_ok _ _ h h (VRef cl)) by reflexivity.
    rewrite (bind_ok _ _ _ _ _ (Seq_len_EList h cl c0 l Hcl Hdata)).
    rewrite (bind_ok _ _ h h1 tt); [reflexivity|].
    cmd_simpl.
    rewrite (append_plain h cl c0 v Hcl Hplain Hty). now rewrite Hdata. }
  split.
  { unfold data_of. now rewrite Hcl1. }
  split.
  { change (Cmd.prim_can_undo c2) with (Cmd.Add_can_undo c2).
    unfold Cmd.Add_can_undo, c2, c1, c. cmd_simpl.
    rewrite (bind_ok _ _ h1 h1 true) by reflexivity.
    rewrite (bind_ok _ _ h1 h1 (VRef cl)) by reflexivity.
    rewrite (Seq_contains_EList h1 cl c0' (l ++ [v]) Hcl1 eq_refl).
    now rewrite py_in_snoc. }
  change (Cmd.prim_undo c2) with (Cmd.Add_undo c2).
  unfold Cmd.Add_undo, c2, c1, c. cmd_simpl.
  rewrite (bind_ok _ _ h1 h1 (VRef cl)) by reflexivity.
  rewrite (bind_ok _ _ h1 h v); [reflexivity|].
  rewrite (Seq_pop_EList h1 cl c0' (l ++ [v]) Hcl1 eq_refl _ v l (py_pop_snoc l v)).
  f_equal. unfold h1, c0', with_data. cbn.
  rewrite insert_insert_eq. rewrite <- Hdata.
  replace (mkECollection (_owner c0) (_efeature c0) (data c0)) with c0 by (now destruct c0).
  now apply insert_id.
Qed.

End ExecuteUndo.

Lemma ge_run (a b : Z) (h : Heap) : b <= a -> Cmd.ge (Some a) b h = (h, inr true).
Proof. intros H. unfold Cmd.ge, Py.ret. do 2 f_equal. apply Z.leb_le. lia. Qed.

Lemma lt_run (a b : Z) (h : Heap) : a < b -> Cmd.lt (Some a) b h = (h, inr true).
Proof. intros H. unfold Cmd.lt, Py.ret. do 2 f_equal. apply Z.ltb_lt. lia. Qed.

Section ExecuteUndoEList.

Variables (h : Heap) (self : loc) (o : EObject) (n : string)
          (feat : EStructuralFeature) (farg : FeatureArg)
          (cl : loc) (c0 : ECollection) (l : list Value).
Hypothesis Hs : h !! self = Some (HInst o).
Hypothesis Hf : findEStructuralFeature (eClass o) n = Some feat.
Hypothesis Harg : farg = FName n \/ farg = FObj feat.
Hypothesis Hslot : slots o !! n = Some (VRef cl).
Hypothesis Hcl : h !! cl = Some (HColl c0).
Hypothesis Hdata : data c0 = EList l.

(** [Remove] by value on a list-backed collection, the element found
    being the value itself. *)
Lemma Remove_execute_undo (v : Value) (k : nat) :
  v <> VNone -> find_index (py_eqb v) l = Some k -> l !! k = Some v ->
  exists c c1 c2 c3 h1,
    Cmd.Remove (VRef self) farg v None h = (h, inr c) /\
    Cmd.prim_can_execute c h = (h, inr (true, c1)) /\
    Cmd.prim_execute c1 h = (h1, inr c2) /\
    data_of h1 cl = Some (EList (delete k l)) /\
    Cmd.prim_can_undo c2 h1 = (h1, inr true) /\
    Cmd.prim_undo c2 h1 = (h, inr c3).
Proof.
  intros Hv Hfind Hk.
  set (c := mkCommand RemoveCmd (VRef self) farg v VNone None None None (Some VNone) None).
  set (c1 := Cmd.with_collection (VRef cl) (Cmd.with_feature (FObj feat) c)).
  set (c1' := Cmd.with_index (Some (Z.of_nat k)) c1).
  set (c2 := Cmd.with_executed true c1').
  set (c0' := with_data c0 (EList (delete k l))).
  set (h1 := <[cl := HColl c0']> h).
  exists c, c1, c2, c2, h1.
  assert (h1 !! cl = Some (HColl c0')) as Hcl1 by (unfold h1; apply lookup_insert_eq).
  split.
  { unfold Cmd.Remove. now rewrite (bind_ok _ _ _ _ _ (init_run RemoveCmd self farg v h o Hs)). }
  split.
  { change (Cmd.prim_can_execute c) with (Cmd.Add_can_execute c).
    unfold Cmd.Add_can_execute.
    rewrite (bind_ok _ _ _ _ _
               (can_execute_base_resolves h self o n feat farg c Hs Hf Harg eq_refl eq_refl)).
    unfold c. cbn beta iota. cmd_simpl.
    rewrite (bind_ok _ _ _ _ _ (eGet_resolved h self o n feat Hs Hf (VRef cl) Hslot)).
    cmd_simpl. cbn [andb]. now rewrite bool_decide_eq_true_2. }
  split.
  { unfold Cmd.prim_execute.
    rewrite (bind_ok _ _ h h1 c1'); [reflexivity|].
    change (Cmd.do_execute c1) with (Cmd.Remove_do_execute c1).
    unfold Cmd.Remove_do_execute.
    replace (_collection c1) with (Some (VRef cl)) by reflexivity.
    replace (index c1) with (@None Z) by reflexivity.
    replace (value c1) with v by reflexivity. cmd_simpl.
    rewrite (bind_ok _ _ h h (VRef cl)) by reflexivity.
    rewrite (bind_ok _ _ h h c1').
    2:{ rewrite (bind_ok _ _ h h (Z.of_nat k)); [reflexivity|].
        rewrite (Seq_index_EList h cl c0 l Hcl Hdata). unfold py_index.
        now rewrite Hfind. }
    replace (index c1') with (Some (Z.of_nat k)) by reflexivity.
    rewrite (bind_ok _ _ h h1 v); [reflexivity|].
    now rewrite (Seq_pop_EList h cl c0 l Hcl Hdata _ v (delete k l) (py_pop_at l k v Hk)). }
  split.
  { unfold data_of. now rewrite Hcl1. }
  split; [reflexivity|].
  change (Cmd.prim_undo c2) with (Cmd.Remove_undo c2).
  unfold Cmd.Remove_undo.
  replace (_collection c2) with (Some (VRef cl)) by reflexivity.
  replace (index c2) with (Some (Z.of_nat k)) by reflexivity.
  replace (value c2) with v by reflexivity. cmd_simpl.
  rewrite (bind_ok _ _ h1 h1 (VRef cl)) by reflexivity.
  rewrite (bind_ok _ _ h1 h tt); [reflexivity|].
  rewrite (Seq_insert_EList h1 cl c0' (delete k l) Hcl1 eq_refl).
  rewrite (py_insert_delete l k v Hk).
  f_equal. unfold h1, c0'. change (with_data (with_data c0 ?d) ?d') with (with_data c0 d').
  now apply put_back.
Qed.

(** [Move] to a position inside the list, once [can_execute] has filled
    in the value, the position and the collection. *)
Lemma Move_run (c1 : AbstractCommand) (i j : nat) (x : Value) :
  cls c1 = MoveCmd -> _collection c1 = Some (VRef cl) ->
  from_index c1 = Some (Z.of_nat i) -> to_index c1 = Some (Z.of_nat j) ->
  l !! i = Some x -> (j < length l)%nat ->
  exists c2 c3 h1,
    Cmd.prim_execute c1 h = (h1, inr c2) /\
    data_of h1 cl = Some (EList (py_insert (Z.of_nat j) x (delete i l))) /\
    Cmd.prim_can_undo c2 h1 = (h1, inr true) /\
    Cmd.prim_undo c2 h1 = (h, inr c3).
Proof.
  intros Hcls Hcoll Hfrom Hto Hi Hj.
  pose proof (lookup_lt_Some _ _ _ Hi) as Hilt.
  set (l1 := delete i l).
  assert (length l1 = (length l - 1)%nat) as Hlen1.
  { unfold l1. rewrite length_delete by eauto. lia. }
  set (l2 := py_insert (Z.of_nat j) x l1).
  set (c2 := Cmd.with_executed true (Cmd.with_value x c1)).
  set (ha := <[cl := HColl (with_data c0 (EList l1))]> h).
  set (h1 := <[cl := HColl (with_data c0 (EList l2))]> ha).
  assert (ha !! cl = Some (HColl (with_data c0 (EList l1)))) as Hcla
    by (unfold ha; apply lookup_insert_eq).
  assert (h1 !! cl = Some (HColl (with_data c0 (EList l2)))) as Hcl1
    by (unfold h1; apply lookup_insert_eq).
  set (hb := <[cl := HColl (with_data c0 (EList l1))]> h1).
  assert (hb !! cl = Some (HColl (with_data c0 (EList l1)))) as Hclb
    by (unfold hb; apply lookup_insert_eq).
  exists c2, (Cmd.with_value x c2), h1.
  split.
  { unfold Cmd.prim_execute.
    rewrite (bind_ok _ _ h h1 (Cmd.with_value x c1)); [reflexivity|].
    unfold Cmd.do_execute. rewrite Hcls. unfold Cmd.Move_do_execute.
    rewrite Hcoll, Hfrom. cmd_simpl.
    rewrite (bind_ok _ _ h h (VRef cl)) by reflexivity.
    rewrite (bind_ok _ _ h ha x)
      by (now apply (Seq_pop_EList h cl c0 l Hcl Hdata _ x l1 (py_pop_at l i x Hi))).
    rewrite (bind_ok _ _ ha h1 tt); [reflexivity|].
    rewrite Hto.
    now rewrite (Seq_insert_EList ha cl _ l1 Hcla eq_refl). }
  split.
  { unfold data_of. now rewrite Hcl1. }
  split.
  { unfold Cmd.prim_can_undo.
    replace (cls c2) with MoveCmd by (now rewrite <- Hcls).
    unfold Cmd.Move_can_undo.
    replace (_collection c2) with (Some (VRef cl)) by (now rewrite <- Hcoll).
    replace (to_index c2) with (Some (Z.of_nat j)) by (now rewrite <- Hto).
    replace (value c2) with x by reflexivity.
    rewrite (bind_ok _ _ h1 h1 true) by reflexivity.
    rewrite (bind_ok _ _ h1 h1 (VRef cl)) by reflexivity.
    rewrite (bind_ok _ _ h1 h1 x).
    - cbn. now rewrite bool_decide_eq_true_2.
    - rewrite (Seq_getitem_EList h1 cl _ l2 Hcl1 eq_refl). f_equal.
      apply py_getitem_at. unfold l2.
      rewrite py_insert_in_range by lia.
      apply list_lookup_middle. rewrite length_take. lia. }
  unfold Cmd.prim_undo.
  replace (cls c2) with MoveCmd by (now rewrite <- Hcls).
  unfold Cmd.Move_undo.
  replace (_collection c2) with (Some (VRef cl)) by (now rewrite <- Hcoll).
  replace (to_index c2) with (Some (Z.of_nat j)) by (now rewrite <- Hto).
  rewrite (bind_ok _ _ h1 h1 (VRef cl)) by reflexivity.
  rewrite (bind_ok _ _ h1 hb x).
  2:{ apply (Seq_pop_EList h1 cl _ l2 Hcl1 eq_refl). unfold l2.
      apply py_pop_insert. lia. }
  rewrite (bind_ok _ _ hb h tt); [reflexivity|].
  replace (from_index (Cmd.with_value x c2)) with (Some (Z.of_nat i))
    by (now rewrite <- Hfrom).
  cmd_simpl.
  rewrite (Seq_insert_EList hb cl _ l1 Hclb eq_refl).
  unfold l1 at 2. rewrite (py_insert_delete l i x Hi).
  f_equal. unfold hb, h1, ha. rewrite !insert_insert_eq.
  change (with_data (with_data c0 ?d) ?d') with (with_data c0 d').
  rewrite (with_data_same h cl c0 l Hcl Hdata). now apply insert_id.
Qed.

(** [Move(owner, feature, from_index=i, to_index=j)] *)
Lemma Move_can_execute_from (i j : nat) (x : Value) :
  l !! i = Some x ->
  exists c c1,
    Cmd.Move (VRef self) farg (Some (Z.of_nat i)) (Some (Z.of_nat j)) VNone h
    = (h, inr c) /\
    Cmd.prim_can_execute c h = (h, inr (true, c1)) /\
    cls c1 = MoveCmd /\ _collection c1 = Some (VRef cl) /\
    from_index c1 = Some (Z.of_nat i) /\ to_index c1 = Some (Z.of_nat j).
Proof.
  intros Hi. pose proof (lookup_lt_Some _ _ _ Hi) as Hilt.
  set (c := mkCommand MoveCmd (VRef self) farg VNone VNone None
                      (Some (Z.of_nat i)) (Some (Z.of_nat j)) None None).
  set (c1 := Cmd.with_value x
               (Cmd.with_collection (VRef cl) (Cmd.with_feature (FObj feat) c))).
  exists c, c1. split.
  { unfold Cmd.Move.
    rewrite (bind_ok _ _ _ _ _ (init_run MoveCmd self farg VNone h o Hs)).
    cmd_simpl. rewrite bool_decide_eq_true_2 by discriminate.
    now rewrite bool_decide_eq_false_2 by congruence. }
  split; [|now repeat split].
  change (Cmd.prim_can_execute c) with (Cmd.Move_can_execute c).
  unfold Cmd.Move_can_execute.
  rewrite (bind_ok _ _ _ _ _
             (can_execute_base_resolves h self o n feat farg c Hs Hf Harg eq_refl eq_refl)).
  unfold c. cbn beta iota. cmd_simpl.
  rewrite (bind_ok _ _ _ _ _ (eGet_resolved h self o n feat Hs Hf (VRef cl) Hslot)).
  cmd_simpl.
  rewrite (bind_ok _ _ h h true) by (apply ge_run; lia).
  rewrite (bind_ok _ _ h h true) by (apply ge_run; lia).
  rewrite bool_decide_eq_true_2 by reflexivity.
  rewrite (bind_ok _ _ h h c1).
  2:{ rewrite (bind_ok _ _ h h x); [reflexivity|].
      rewrite (Seq_getitem_EList h cl c0 l Hcl Hdata). f_equal.
      now apply py_getitem_at. }
  replace (from_index c1) with (Some (Z.of_nat i)) by reflexivity.
  rewrite (bind_ok _ _ h h c1) by reflexivity.
  rewrite (bind_ok _ _ h h true).
  2:{ rewrite (bind_ok _ _ _ _ _ (Seq_len_EList h cl c0 l Hcl Hdata)).
      apply lt_run. lia. }
  rewrite (bind_ok _ _ h h true) by (apply ge_run; lia).
  cbn [andb].
  replace (value c1) with x by reflexivity.
  rewrite (bind_ok _ _ _ _ _ (Seq_contains_EList h cl c0 l Hcl Hdata x)).
  now rewrite (py_in_lookup x l i Hi).
Qed.

(** [Move(owner, feature, to_index=j, value=v)] *)
Lemma Move_can_execute_value (i j : nat) (v : Value) :
  v <> VNone -> find_index (py_eqb v) l = Some i ->
  exists c c1,
    Cmd.Move (VRef self) farg None (Some (Z.of_nat j)) v h = (h, inr c) /\
    Cmd.prim_can_execute c h = (h, inr (true, c1)) /\
    cls c1 = MoveCmd /\ _collection c1 = Some (VRef cl) /\
    from_index c1 = Some (Z.of_nat i) /\ to_index c1 = Some (Z.of_nat j).
Proof.
  intros Hv Hfind.
  destruct (find_index_lookup _ _ _ Hfind) as [x [Hi _]].
  pose proof (lookup_lt_Some _ _ _ Hi) as Hilt.
  set (c := mkCommand MoveCmd (VRef self) farg v VNone None
                      None (Some (Z.of_nat j)) None None).
  set (ca := Cmd.with_collection (VRef cl) (Cmd.with_feature (FObj feat) c)).
  set (c1 := Cmd.with_from_index (Some (Z.of_nat i)) ca).
  exists c, c1. split.
  { unfold Cmd.Move.
    rewrite (bind_ok _ _ _ _ _ (init_run MoveCmd self farg v h o Hs)).
    cmd_simpl. rewrite bool_decide_eq_false_2 by (intros E; now apply E).
    now rewrite bool_decide_eq_true_2 by assumption. }
  split; [|now repeat split].
  change (Cmd.prim_can_execute c) with (Cmd.Move_can_execute c).
  unfold Cmd.Move_can_execute.
  rewrite (bind_ok _ _ _ _ _
             (can_execute_base_resolves h self o n feat farg c Hs Hf Harg eq_refl eq_refl)).
  unfold c. cbn beta iota. cmd_simpl.
  rewrite (bind_ok _ _ _ _ _ (eGet_resolved h self o n feat Hs Hf (VRef cl) Hslot)).
  cmd_simpl.
  rewrite (bind_ok _ _ h h true) by (apply ge_run; lia).
  rewrite (bind_ok _ _ h h true) by (apply ge_run; lia).
  rewrite bool_decide_eq_false_2 by assumption.
  rewrite (bind_ok _ _ h h ca) by reflexivity.
  replace (from_index ca) with (@None Z) by reflexivity.
  rewrite (bind_ok _ _ h h c1).
  2:{ rewrite (bind_ok _ _ h h (Z.of_nat i)); [reflexivity|].
      rewrite (Seq_index_EList h cl c0 l Hcl Hdata). unfold py_index.
      replace (value ca) with v by reflexivity. now rewrite Hfind. }
  replace (from_index c1) with (Some (Z.of_nat i)) by reflexivity.
  rewrite (bind_ok _ _ h h true).
  2:{ rewrite (bind_ok _ _ _ _ _ (Seq_len_EList h cl c0 l Hcl Hdata)).
      apply lt_run. lia. }
  rewrite (bind_ok _ _ h h true) by (apply ge_run; lia).
  cbn [andb].
  replace (value c1) with v by reflexivity.
  rewrite (bind_ok _ _ _ _ _ (Seq_contains_EList h cl c0 l Hcl Hdata v)).
  now rewrite (py_in_find_index v l i Hfind).
Qed.

(** [Move] to a position at or past the end of the list.  [can_execute]
    bounds [to_index] from below only, so the command is executable and the
    element goes to the tail; neither [can_undo] nor [undo] finds position
    [to_index] afterwards, and the list stays as the move left it. *)
Lemma Move_past_the_end (i j : nat) (x : Value) :
  l !! i = Some x -> (length l <= j)%nat ->
  exists c c1 c2 h1,
    Cmd.Move (VRef self) farg (Some (Z.of_nat i)) (Some (Z.of_nat j)) VNone h
    = (h, inr c) /\
    Cmd.prim_can_execute c h = (h, inr (true, c1)) /\
    Cmd.prim_execute c1 h = (h1, inr c2) /\
    data_of h1 cl = Some (EList (delete i l ++ [x])) /\
    Cmd.prim_can_undo c2 h1 = (h1, inl IndexError) /\
    Cmd.prim_undo c2 h1 = (h1, inl IndexError).
Proof.
  intros Hi Hj.
  destruct (Move_can_execute_from i j x Hi)
    as [c [c1 (Hc & Hcan & Hcls & Hcoll & Hfrom & Hto)]].
  pose proof (lookup_lt_Some _ _ _ Hi) as Hilt.
  set (l1 := delete i l).
  assert (length l1 = (length l - 1)%nat) as Hlen1.
  { unfold l1. rewrite length_delete by eauto. lia. }
  set (l2 := l1 ++ [x]).
  assert (py_insert (Z.of_nat j) x l1 = l2) as Hins.
  { unfold py_insert, l2. destruct (Z.ltb_spec (Z.of_nat j) 0); [lia|].
    rewrite Z.min_r by lia. rewrite Nat2Z.id.
    now rewrite take_ge, drop_ge by lia. }
  assert (length l2 = length l) as Hlen2.
  { unfold l2. rewrite length_app, Hlen1. cbn. lia. }
  set (c2 := Cmd.with_executed true (Cmd.with_value x c1)).
  set (ha := <[cl := HColl (with_data c0 (EList l1))]> h).
  set (h1 := <[cl := HColl (with_data c0 (EList l2))]> ha).
  assert (ha !! cl = Some (HColl (with_data c0 (EList l1)))) as Hcla
    by (unfold ha; apply lookup_insert_eq).
  assert (h1 !! cl = Some (HColl (with_data c0 (EList l2)))) as Hcl1
    by (unfold h1; apply lookup_insert_eq).
  exists c, c1, c2, h1.
  split; [exact Hc|]. split; [exact Hcan|]. split.
  { unfold Cmd.prim_execute.
    rewrite (bind_ok _ _ h h1 (Cmd.with_value x c1)); [reflexivity|].
    unfold Cmd.do_execute. rewrite Hcls. unfold Cmd.Move_do_execute.
    rewrite Hcoll, Hfrom. cmd_simpl.
    rewrite (bind_ok _ _ h h (VRef cl)) by reflexivity.
    rewrite (bind_ok _ _ h ha x)
      by (now apply (Seq_pop_EList h cl c0 l Hcl Hdata _ x l1 (py_pop_at l i x Hi))).
    rewrite (bind_ok _ _ ha h1 tt); [reflexivity|].
    rewrite Hto.
    rewrite (Seq_insert_EList ha cl _ l1 Hcla eq_refl). unfold h1.
    now rewrite Hins. }
  split.
  { unfold data_of. now rewrite Hcl1. }
  split.
  { unfold Cmd.prim_can_undo.
    replace (cls c2) with MoveCmd by (now rewrite <- Hcls).
    unfold Cmd.Move_can_undo.
    replace (_collection c2) with (Some (VRef cl)) by (now rewrite <- Hcoll).
    replace (to_index c2) with (Some (Z.of_nat j)) by (now rewrite <- Hto).
    rewrite (bind_ok _ _ h1 h1 true) by reflexivity.
    rewrite (bind_ok _ _ h1 h1 (VRef cl)) by reflexivity.
    apply bind_err.
    rewrite (Seq_getitem_EList h1 cl _ l2 Hcl1 eq_refl). f_equal.
    unfold py_getitem, subscript. rewrite Hlen2.
    destruct (Z.ltb_spec (Z.of_nat j) 0); [lia|].
    destruct (Z.leb_spec 0 (Z.of_nat j)); [|lia].
    now destruct (Z.ltb_spec (Z.of_nat j) (Z.of_nat (length l))); [lia|]. }
  unfold Cmd.prim_undo.
  replace (cls c2) with MoveCmd by (now rewrite <- Hcls).
  unfold Cmd.Move_undo.
  replace (_collection c2) with (Some (VRef cl)) by (now rewrite <- Hcoll).
  replace (to_index c2) with (Some (Z.of_nat j)) by (now rewrite <- Hto).
  rewrite (bind_ok _ _ h1 h1 (VRef cl)) by reflexivity.
  apply bind_err.
  apply (Seq_pop_EList_error h1 cl _ l2 Hcl1 eq_refl).
  apply py_pop_out_of_range. lia.
Qed.

End ExecuteUndoEList.

(** Where execute-then-undo does restore.  Executing a command whose
    [can_execute] is true and then undoing it restores the feature in
    these cases: for a [Set] on a scalar feature
    without containment and opposite, when the previous value passes the
    typing rule and the type's parser leaves it as it is, the slot holds
    the previous value again; for an [Add] without index (on a feature
    without containment and opposite), a [Remove] by value (the element
    found being the value itself) and a [Move] to a position inside the
    list, on a list-backed collection, the whole store, and with it the
    contents and order of the collection, is as before. *)
Theorem execute_then_undo_restores (h : Heap) (self : loc) (o : EObject)
    (n : string) (feat : EStructuralFeature) (farg : FeatureArg) :
  h !! self = Some (HInst o) ->
  findEStructuralFeature (eClass o) n = Some feat ->
  farg = FName n \/ farg = FObj feat ->
  (forall v p,
      many feat = false -> plain feat -> slots o !! n = Some p ->
      EcoreUtils.isinstance h p (eType feat) = true ->
      Core.stored_value (eType feat) p = p ->
      EcoreUtils.isinstance h v (eType feat) = true ->
      exists c c1 c2 c3 h1 h2,
        Cmd.Set_ (VRef self) farg v h = (h, inr c) /\
        Cmd.prim_can_execute c h = (h, inr (true, c1)) /\
        Cmd.prim_execute c1 h = (h1, inr c2) /\
        slot_of h1 self n = Some (Core.stored_value (eType feat) v) /\
        Cmd.prim_can_undo c2 h1 = (h1, inr true) /\
        Cmd.prim_undo c2 h1 = (h2, inr c3) /\
        slot_of h2 self n = Some p) /\
  (forall cl c0 l,
      slots o !! n = Some (VRef cl) -> h !! cl = Some (HColl c0) ->
      data c0 = EList l ->
      (forall v,
          plain (_efeature c0) -> v <> VNone ->
          EcoreUtils.isinstance h v (eType (_efeature c0)) = true ->
          exists c c1 c2 c3 h1,
            Cmd.Add (VRef self) farg v None h = (h, inr c) /\
            Cmd.prim_can_execute c h = (h, inr (true, c1)) /\
            Cmd.prim_execute c1 h = (h1, inr c2) /\
            data_of h1 cl = Some (EList (l ++ [v])) /\
            Cmd.prim_can_undo c2 h1 = (h1, inr true) /\
            Cmd.prim_undo c2 h1 = (h, inr c3)) /\
      (forall v k,
          v <> VNone -> find_index (py_eqb v) l = Some k -> l !! k = Some v ->
          exists c c1 c2 c3 h1,
            Cmd.Remove (VRef self) farg v None h = (h, inr c) /\
            Cmd.prim_can_execute c h = (h, inr (true, c1)) /\
            Cmd.prim_execute c1 h = (h1, inr c2) /\
            data_of h1 cl = Some (EList (delete k l)) /\
            Cmd.prim_can_undo c2 h1 = (h1, inr true) /\
            Cmd.prim_undo c2 h1 = (h, inr c3)) /\
      (forall (i j : nat) x,
          l !! i = Some x -> (j < length l)%nat ->
          exists c c1 c2 c3 h1,
            Cmd.Move (VRef self) farg (Some (Z.of_nat i)) (Some (Z.of_nat j)) VNone h
            = (h, inr c) /\
            Cmd.prim_can_execute c h = (h, inr (true, c1)) /\
            Cmd.prim_execute c1 h = (h1, inr c2) /\
            data_of h1 cl = Some (EList (py_insert (Z.of_nat j) x (delete i l))) /\
            Cmd.prim_can_undo c2 h1 = (h1, inr true) /\
            Cmd.prim_undo c2 h1 = (h, inr c3)) /\
      (forall (i j : nat) v x,
          v <> VNone -> find_index (py_eqb v) l = Some i -> l !! i = Some x ->
          (j < length l)%nat ->
          exists c c1 c2 c3 h1,
            Cmd.Move (VRef self) farg None (Some (Z.of_nat j)) v h = (h, inr c) /\
            Cmd.prim_can_execute c h = (h, inr (true, c1)) /\
            Cmd.prim_execute c1 h = (h1, inr c2) /\
            data_of h1 cl = Some (EList (py_insert (Z.of_nat j) x (delete i l))) /\
            Cmd.prim_can_undo c2 h1 = (h1, inr true) /\
            Cmd.prim_undo c2 h1 = (h, inr c3))).
Proof.
  intros Hs Hf Harg. split.
  - intros v p Hm Hpl Hp Htp Hsp Htv.
    now apply (Set_execute_undo h self o n feat farg Hs Hf Harg v p).
  - intros cl c0 l Hslot Hcl Hdata. repeat split.
    + intros v Hpl Hv Hty.
      now apply (Add_execute_undo h self o n feat farg Hs Hf Harg cl c0 l Hslot Hcl Hdata v).
    + intros v k Hv Hfind Hk.
      now apply (Remove_execute_undo h self o n feat farg cl c0 l Hs Hf Harg Hslot Hcl Hdata v k).
    + intros i j x Hi Hj.
      destruct (Move_can_execute_from h self o n feat farg cl c0 l Hs Hf Harg Hslot
                  Hcl Hdata i j x Hi) as [c [c1 (Hc & Hcan & H1 & H2 & H3 & H4)]].
      destruct (Move_run h cl c0 l Hcl Hdata c1 i j x H1 H2 H3 H4 Hi Hj)
        as [c2 [c3 [h1 (Hex & Hd & Hcu & Hun)]]].
      now exists c, c1, c2, c3, h1.
    + intros i j v x Hv Hfind Hi Hj.
      destruct (Move_can_execute_value h self o n feat farg cl c0 l Hs Hf Harg Hslot
                  Hcl Hdata i j v Hv Hfind) as [c [c1 (Hc & Hcan & H1 & H2 & H3 & H4)]].
      destruct (Move_run h cl c0 l Hcl Hdata c1 i j x H1 H2 H3 H4 Hi Hj)
        as [c2 [c3 [h1 (Hex & Hd & Hcu & Hun)]]].
      now exists c, c1, c2, c3, h1.
Qed.

Lemma execute_then_undo_restores_witness :
  let h := fst (Scenario.three_items ∅) in
  (exists c c1 c2 c3 h1 h2,
      Cmd.Set_ (VRef 0%nat) (FName "name") (VStr "second") h = (h, inr c) /\
      Cmd.prim_can_execute c h = (h, inr (true, c1)) /\
      Cmd.prim_execute c1 h = (h1, inr c2) /\
      slot_of h1 0%nat "name" = Some (VStr "second") /\
      Cmd.prim_can_undo c2 h1 = (h1, inr true) /\
      Cmd.prim_undo c2 h1 = (h2, inr c3) /\
      slot_of h2 0%nat "name" = Some (VStr "first")) /\
  (exists c c1 c2 c3 h1,
      Cmd.Add (VRef 0%nat) (FName "items") (VStr "w") None h = (h, inr c) /\
      Cmd.prim_can_execute c h = (h, inr (true, c1)) /\
      Cmd.prim_execute c1 h = (h1, inr c2) /\
      data_of h1 1%nat = Some (EList [VStr "x"; VStr "y"; VStr "z"; VStr "w"]) /\
      Cmd.prim_can_undo c2 h1 = (h1, inr true) /\
      Cmd.prim_undo c2 h1 = (h, inr c3)) /\
  (exists c c1 c2 c3 h1,
      Cmd.Remove (VRef 0%nat) (FName "items") (VStr "y") None h = (h, inr c) /\
      Cmd.prim_can_execute c h = (h, inr (true, c1)) /\
      Cmd.prim_execute c1 h = (h1, inr c2) /\
      data_of h1 1%nat = Some (EList [VStr "x"; VStr "z"]) /\
      Cmd.prim_can_undo c2 h1 = (h1, inr true) /\
      Cmd.prim_undo c2 h1 = (h, inr c3)) /\
  (exists c c1 c2 c3 h1,
      Cmd.Move (VRef 0%nat) (FName "items") (Some 0) (Some 2) VNone h = (h, inr c) /\
      Cmd.prim_can_execute c h = (h, inr (true, c1)) /\
      Cmd.prim_execute c1 h = (h1, inr c2) /\
      data_of h1 1%nat = Some (EList [VStr "y"; VStr "z"; VStr "x"]) /\
      Cmd.prim_can_undo c2 h1 = (h1, inr true) /\
      Cmd.prim_undo c2 h1 = (h, inr c3)) /\
  (exists c c1 c2 c3 h1,
      Cmd.Move (VRef 0%nat) (FName "items") None (Some 0) (VStr "z") h = (h, inr c) /\
      Cmd.prim_can_execute c h = (h, inr (true, c1)) /\
      Cmd.prim_execute c1 h = (h1, inr c2) /\
      data_of h1 1%nat = Some (EList [VStr "z"; VStr "x"; VStr "y"]) /\
      Cmd.prim_can_undo c2 h1 = (h1, inr true) /\
      Cmd.prim_undo c2 h1 = (h, inr c3)).
Proof.
  cbv zeta. set (h := fst (Scenario.three_items ∅)).
  assert (h !! 0%nat = Some (HInst (the_inst h 0%nat))) as H0 by (now vm_compute).
  assert (h !! 1%nat = Some (HColl (the_coll h 1%nat))) as H1 by (now vm_compute).
  destruct (execute_then_undo_restores h 0%nat (the_inst h 0%nat) "name"
              Example.P_name (FName "name") H0) as [HSet _];
    [now vm_compute | now left |].
  destruct (execute_then_undo_restores h 0%nat (the_inst h 0%nat) "items"
              Example.P_items (FName "items") H0) as [_ HList];
    [now vm_compute | now left |].
  destruct (HList 1%nat (the_coll h 1%nat) [VStr "x"; VStr "y"; VStr "z"])
    as (HAdd & HRemove & HMove & HMoveValue);
    [now vm_compute | exact H1 | now vm_compute |].
  split; [|split; [|split; [|split]]].
  - apply (HSet (VStr "second") (VStr "first"));
      first [reflexivity | now vm_compute | split; reflexivity].
  - apply (HAdd (VStr "w")); [split; now vm_compute | discriminate | now vm_compute].
  - apply (HRemove (VStr "y") 1%nat); [discriminate | reflexivity | reflexivity].
  - apply (HMove 0%nat 2%nat (VStr "x")); [reflexivity | cbn; lia].
  - apply (HMoveValue 2%nat 0%nat (VStr "z") (VStr "z"));
      [discriminate | reflexivity | reflexivity | cbn; lia].
Defined.

(** C5.  Executing an executable command and undoing it does not always
    restore the feature.  [Move.can_execute] bounds [to_index] from below
    only (the same comparison is written twice, where [Add] bounds its
    index by the length), so a [Move] of an element of a list to a position
    at or past the end is executable and executes, putting the element at
    the tail; [can_undo] and [undo()] then look for position [to_index],
    raise [IndexError], and the list stays as the move left it. *)
Theorem Move_past_the_end_cannot_be_undone (h : Heap) (self : loc) (o : EObject)
    (n : string) (feat : EStructuralFeature) (farg : FeatureArg)
    (cl : loc) (c0 : ECollection) (l : list Value) (i j : nat) (x : Value) :
  h !! self = Some (HInst o) ->
  findEStructuralFeature (eClass o) n = Some feat ->
  farg = FName n \/ farg = FObj feat ->
  slots o !! n = Some (VRef cl) -> h !! cl = Some (HColl c0) ->
  data c0 = EList l ->
  l !! i = Some x -> (length l <= j)%nat ->
  exists c c1 c2 h1,
    Cmd.Move (VRef self) farg (Some (Z.of_nat i)) (Some (Z.of_nat j)) VNone h
    = (h, inr c) /\
    Cmd.prim_can_execute c h = (h, inr (true, c1)) /\
    Cmd.prim_execute c1 h = (h1, inr c2) /\
    data_of h1 cl = Some (EList (delete i l ++ [x])) /\
    Cmd.prim_can_undo c2 h1 = (h1, inl IndexError) /\
    Cmd.prim_undo c2 h1 = (h1, inl IndexError).
Proof.
  intros Hs Hf Harg Hslot Hcl Hdata Hi Hj.
  now apply (Move_past_the_end h self o n feat farg cl c0 l Hs Hf Harg Hslot Hcl Hdata).
Qed.

Lemma Move_past_the_end_cannot_be_undone_witness :
  let h := fst (Scenario.three_items ∅) in
  exists c c1 c2 h1,
    Cmd.Move (VRef 0%nat) (FName "items") (Some (Z.of_nat 0)) (Some (Z.of_nat 5)) VNone h
    = (h, inr c) /\
    Cmd.prim_can_execute c h = (h, inr (true, c1)) /\
    Cmd.prim_execute c1 h = (h1, inr c2) /\
    data_of h1 1%nat
    = Some (EList (delete 0%nat [VStr "x"; VStr "y"; VStr "z"] ++ [VStr "x"])) /\
    Cmd.prim_can_undo c2 h1 = (h1, inl IndexError) /\
    Cmd.prim_undo c2 h1 = (h1, inl IndexError).
Proof.
  cbv zeta. set (h := fst (Scenario.three_items ∅)).
  apply (Move_past_the_end_cannot_be_undone h 0%nat (the_inst h 0%nat) "items"
           Example.P_items (FName "items") 1%nat (the_coll h 1%nat)
           [VStr "x"; VStr "y"; VStr "z"] 0%nat 5%nat (VStr "x"));
    first [now vm_compute | now left | cbn; lia].
Defined.

(** The same on the scenario itself: [p.items] is [["x", "y", "z"]].
    [Move(p, "items", from_index=0, to_index=5)] passes [can_execute] and
    executes, leaving [["y", "z", "x"]]; both its [can_undo] and its
    [undo()] then raise [IndexError], and the list stays as the move left
    it. *)
Lemma Move_past_the_end_is_not_undone :
  let h := fst (Scenario.three_items ∅) in
  let c := mkCommand MoveCmd (VRef 0%nat) (FName "items") VNone VNone None
                     (Some 0) (Some 5) None None in
  let c1 := Cmd.with_value (VStr "x")
              (Cmd.with_collection (VRef 1%nat)
                 (Cmd.with_feature (FObj Example.P_items) c)) in
  let c2 := Cmd.with_executed true c1 in
  let h1 := fst (Command_.execute (Prim c1) h) in
  Cmd.Move (VRef 0%nat) (FName "items") (Some 0) (Some 5) VNone h = (h, inr c) /\
  Command_.can_execute (Prim c) h = (h, inr (true, Prim c1)) /\
  option_map elements_of (data_of h 1%nat) = Some [VStr "x"; VStr "y"; VStr "z"] /\
  Command_.execute (Prim c1) h = (h1, inr (Prim c2)) /\
  option_map elements_of (data_of h1 1%nat) = Some [VStr "y"; VStr "z"; VStr "x"] /\
  Command_.can_undo (Prim c2) h1 = (h1, inl IndexError) /\
  Command_.undo (Prim c2) h1 = (h1, inl IndexError).
Proof. now vm_compute. Qed.

(** * Further properties of the code *)

(** ** The patched [pop] of the ordered set *)

Section OrderedSetPop.
Import ordered_set.

Lemma consistent_lookup (s : OrderedSet) (k : nat) (x : Value) :
  consistent s -> items s !! k = Some x ->
  map s !! hash_key x = Some (Z.of_nat k).
Proof.
  intros Hc Hk. apply Hc. exists k. split; [reflexivity|]. now rewrite Hk.
Qed.

Lemma consistent_inj (s : OrderedSet) (j k : nat) (x y : Value) :
  consistent s -> items s !! j = Some x -> items s !! k = Some y ->
  hash_key x = hash_key y -> j = k.
Proof.
  intros Hc Hj Hk E.
  pose proof (consistent_lookup s j x Hc Hj) as H1.
  pose proof (consistent_lookup s k y Hc Hk) as H2.
  rewrite E in H1. rewrite H1 in H2. injection H2. lia.
Qed.

Lemma mem_lookup (x : Value) (m : gmap Value Z) (i : Z) :
  m !! hash_key x = Some i -> mem x m = true.
Proof. intros H. unfold mem. apply bool_decide_eq_true. eauto. Qed.

Lemma remove_index_at (s : OrderedSet) (i : Z) (k : nat) (x : Value) :
  subscript i (length (items s)) = Some k -> items s !! k = Some x ->
  mem x (map s) = true ->
  remove_index i s
  = (mkOrderedSet (delete k (items s)) (delete (hash_key x) (map s)), inr x).
Proof.
  intros Hi Hk Hm. unfold remove_index.
  rewrite (bind_ok _ _ s s s) by reflexivity.
  rewrite (bind_ok _ _ s s x) by (unfold Py.lift, py_getitem; now rewrite Hi, Hk).
  rewrite (bind_ok _ _ s s (delete k (items s)))
    by (unfold Py.lift, py_delitem; now rewrite Hi).
  unfold Py.bind, Py.put, Py.ret. now rewrite Hm.
Qed.

Lemma subscript_nat (k n : nat) : (k < n)%nat -> subscript (Z.of_nat k) n = Some k.
Proof. intros H. rewrite subscript_in_range by lia. now rewrite Nat2Z.id. Qed.

(** [pop(i)] where [i] names the position [k]. *)
Lemma pop_index_run (s : OrderedSet) (i : Z) (k : nat) (x : Value) :
  subscript i (length (items s)) = Some k -> items s !! k = Some x ->
  mem x (map s) = true ->
  pop (Some i) s
  = (mkOrderedSet (delete k (items s)) (shift_from i (-1) (delete (hash_key x) (map s))),
     inr x).
Proof.
  intros Hi Hk Hm.
  pose proof (remove_index_at s i k x Hi Hk Hm) as Hr.
  assert (items s <> []) as Hne by (intros E; now rewrite E, lookup_nil in Hk).
  clear Hi Hk Hm. unfold pop, Py.bind at 1, Py.get.
  destruct (items s); [congruence|].
  now rewrite (bind_ok _ _ _ _ _ Hr).
Qed.

(** The set that is left when position [k] is taken out and the positions
    behind it are moved down is consistent again. *)
Lemma consistent_delete (s : OrderedSet) (k : nat) (x : Value) :
  consistent s -> items s !! k = Some x ->
  consistent (mkOrderedSet (delete k (items s))
                (shift_from (Z.of_nat k) (-1) (delete (hash_key x) (map s)))).
Proof.
  intros Hc Hk y i. cbn. unfold shift_from. rewrite lookup_fmap. split.
  - destruct (decide (y = hash_key x)) as [->|Hne].
    { rewrite lookup_delete_eq. discriminate. }
    rewrite lookup_delete_ne by congruence.
    destruct (map s !! y) as [j|] eqn:Ey; [|discriminate]. cbn. intros [= <-].
    apply Hc in Ey as [j' [-> Hj']].
    destruct (items s !! j') as [z|] eqn:Ez; [|discriminate]. cbn in Hj'.
    injection Hj' as <-.
    assert (j' <> k) as Hjk.
    { intros ->. rewrite Hk in Ez. injection Ez as <-. now apply Hne. }
    destruct (Z.leb_spec (Z.of_nat k) (Z.of_nat j')).
    + exists (j' - 1)%nat. split; [lia|].
      rewrite list_lookup_delete_ge by lia.
      replace (S (j' - 1)) with j' by lia. now rewrite Ez.
    + exists j'. split; [reflexivity|].
      rewrite list_lookup_delete_lt by lia. now rewrite Ez.
  - intros [k' [-> Hk']].
    destruct (delete k (items s) !! k') as [z|] eqn:Ez; [|discriminate].
    cbn in Hk'. injection Hk' as <-.
    destruct (decide (k' < k)%nat) as [Hlt|Hge].
    + rewrite list_lookup_delete_lt in Ez by assumption.
      assert (hash_key z <> hash_key x) as Hne.
      { intros E. pose proof (consistent_inj s k' k z x Hc Ez Hk E). lia. }
      rewrite lookup_delete_ne by congruence.
      rewrite (consistent_lookup s k' z Hc Ez). cbn.
      destruct (Z.leb_spec (Z.of_nat k) (Z.of_nat k')); [lia|reflexivity].
    + rewrite list_lookup_delete_ge in Ez by lia.
      assert (hash_key z <> hash_key x) as Hne.
      { intros E. pose proof (consistent_inj s (S k') k z x Hc Ez Hk E). lia. }
      rewrite lookup_delete_ne by congruence.
      rewrite (consistent_lookup s (S k') z Hc Ez). cbn.
      destruct (Z.leb_spec (Z.of_nat k) (Z.of_nat (S k'))); [f_equal; lia|lia].
Qed.

(** After the last position is taken out no position is left behind it:
    the shift changes nothing. *)
Lemma shift_from_last (s : OrderedSet) (l : list Value) (x : Value) :
  consistent s -> items s = l ++ [x] ->
  shift_from (Z.of_nat (length l)) (-1) (delete (hash_key x) (map s))
  = delete (hash_key x) (map s).
Proof.
  intros Hc Hl. apply map_eq. intros y. unfold shift_from. rewrite lookup_fmap.
  destruct (decide (y = hash_key x)) as [->|Hne].
  { now rewrite lookup_delete_eq. }
  rewrite lookup_delete_ne by congruence.
  destruct (map s !! y) as [j|] eqn:Ey; [|reflexivity]. cbn.
  apply Hc in Ey as [j' [-> Hj']].
  destruct (items s !! j') as [z|] eqn:Ez; [|discriminate]. cbn in Hj'.
  injection Hj' as <-.
  assert (j' < length l)%nat.
  { pose proof (lookup_lt_Some _ _ _ Ez) as Hlt. rewrite Hl, length_app in Hlt.
    cbn in Hlt. destruct (decide (j' = length l)) as [->|]; [|lia].
    rewrite Hl, list_lookup_middle in Ez by reflexivity. injection Ez as <-.
    now contradiction Hne. }
  destruct (Z.leb_spec (Z.of_nat (length l)) (Z.of_nat j')); [lia|reflexivity].
Qed.

End OrderedSetPop.

(** X1. [pop()] without an index on a consistent set takes out the last
    element and returns it; the set that is left holds the other elements
    in their order, and its index map is consistent with them. *)
Theorem pop_tail_keeps_consistent (s : OrderedSet) (l : list Value) (x : Value) :
  ordered_set.consistent s -> ordered_set.items s = l ++ [x] ->
  exists s',
    ordered_set.pop None s = (s', inr x) /\
    ordered_set.items s' = l /\
    ordered_set.consistent s'.
Proof.
  intros Hc Hl.
  assert (ordered_set.items s !! length l = Some x) as Hk
    by (rewrite Hl; now apply list_lookup_middle).
  pose proof (consistent_lookup s _ x Hc Hk) as Hm.
  exists (ordered_set.mkOrderedSet l (delete (hash_key x) (ordered_set.map s))).
  split; [|split; [reflexivity|]].
  - unfold ordered_set.pop, Py.bind, Py.get.
    destruct (ordered_set.items s) as [|y l'] eqn:E.
    { now destruct l. }
    rewrite (remove_index_at s (-1) (length l) x).
    + now rewrite E, Hl, delete_middle, app_nil_r.
    + rewrite E, Hl, subscript_minus_one by (rewrite length_app; cbn; lia).
      f_equal. rewrite length_app. cbn. lia.
    + now rewrite E.
    + now apply mem_lookup with (i := Z.of_nat (length l)).
  - rewrite <- (shift_from_last s l x Hc Hl).
    replace l with (delete (length l) (ordered_set.items s)) at 1
      by (rewrite Hl, delete_middle; apply app_nil_r).
    now apply consistent_delete.
Qed.

Lemma consistent_empty : ordered_set.consistent ordered_set.empty.
Proof.
  intros y i. cbn. rewrite lookup_empty. split; [discriminate|].
  intros [k [_ H]]. now rewrite lookup_nil in H.
Qed.

(** [OrderedSet.add] keeps the index map consistent. *)
Lemma consistent_add (x : Value) (s : OrderedSet) :
  ordered_set.consistent s -> ordered_set.consistent (ordered_set.add x s).
Proof.
  intros Hc. unfold ordered_set.add.
  destruct (ordered_set.mem x (ordered_set.map s)) eqn:Hm; [assumption|].
  unfold ordered_set.mem in Hm. apply bool_decide_eq_false in Hm.
  intros y i. cbn. split.
  - destruct (decide (y = hash_key x)) as [->|Hne].
    + rewrite lookup_insert_eq. intros [= <-]. exists (length (ordered_set.items s)).
      split; [reflexivity|]. now rewrite list_lookup_middle.
    + rewrite lookup_insert_ne by congruence. intros H.
      apply Hc in H as [k [-> Hk]]. exists k. split; [reflexivity|].
      destruct (ordered_set.items s !! k) as [z|] eqn:Ez; [|discriminate].
      now rewrite (lookup_app_l_Some _ _ _ _ Ez).
  - intros [k [-> Hk]].
    destruct ((ordered_set.items s ++ [x]) !! k) as [z|] eqn:Ez; [|discriminate].
    cbn in Hk. injection Hk as <-.
    apply lookup_app_Some in Ez as [Ez|[Hge Ez]].
    + pose proof (consistent_lookup s k z Hc Ez) as Hz.
      rewrite lookup_insert_ne; [assumption|].
      intros E. apply Hm. rewrite E. eauto.
    + apply list_lookup_singleton_Some in Ez as [Hk ->].
      rewrite lookup_insert_eq. f_equal. lia.
Qed.

Lemma pop_tail_keeps_consistent_witness :
  exists s',
    ordered_set.pop None
      (ordered_set.add (VStr "b") (ordered_set.add (VStr "a") ordered_set.empty))
    = (s', inr (VStr "b")) /\
    ordered_set.items s' = [VStr "a"] /\
    ordered_set.consistent s'.
Proof.
  apply (pop_tail_keeps_consistent _ [VStr "a"] (VStr "b")).
  - do 2 apply consistent_add. apply consistent_empty.
  - reflexivity.
Defined.

(** X2. [pop(k)] at a position [k] of a consistent set takes out the
    element there and returns it; the elements behind it move down by one
    in the index map, which is consistent with the items that are left. *)
Theorem pop_at_position_keeps_consistent (s : OrderedSet) (k : nat) (x : Value) :
  ordered_set.consistent s -> ordered_set.items s !! k = Some x ->
  exists s',
    ordered_set.pop (Some (Z.of_nat k)) s = (s', inr x) /\
    ordered_set.items s' = delete k (ordered_set.items s) /\
    ordered_set.consistent s'.
Proof.
  intros Hc Hk.
  pose proof (consistent_lookup s k x Hc Hk) as Hm.
  eexists. split; [|split; [|apply (consistent_delete s k x Hc Hk)]]; [|reflexivity].
  apply (pop_index_run s (Z.of_nat k) k x); [|assumption|now apply mem_lookup in Hm].
  apply subscript_nat. now apply lookup_lt_Some in Hk.
Qed.

Lemma pop_at_position_keeps_consistent_witness :
  exists s',
    ordered_set.pop (Some 0)
      (ordered_set.add (VStr "b") (ordered_set.add (VStr "a") ordered_set.empty))
    = (s', inr (VStr "a")) /\
    ordered_set.items s' = [VStr "b"] /\
    ordered_set.consistent s'.
Proof.
  refine (pop_at_position_keeps_consistent
            (ordered_set.add (VStr "b") (ordered_set.add (VStr "a") ordered_set.empty))
            0%nat (VStr "a") _ _).
  - do 2 apply consistent_add. apply consistent_empty.
  - reflexivity.
Defined.

(** X3. [pop(i)] with a negative index that names a position [k] other
    than the first takes out the right element, but the loop that follows
    compares the positions with the negative [i] and moves every one of them
    down: the first element is then recorded at position -1, and the index
    map is no longer consistent with the items. *)
Theorem pop_negative_index_shifts_all (s : OrderedSet) (k : nat) (x y : Value) :
  ordered_set.consistent s -> (0 < k)%nat ->
  ordered_set.items s !! k = Some x -> ordered_set.items s !! 0%nat = Some y ->
  exists s',
    ordered_set.pop (Some (Z.of_nat k - Z.of_nat (length (ordered_set.items s)))) s
    = (s', inr x) /\
    ordered_set.items s' = delete k (ordered_set.items s) /\
    ordered_set.items s' !! 0%nat = Some y /\
    ordered_set.map s' !! hash_key y = Some (-1) /\
    ~ ordered_set.consistent s'.
Proof.
  intros Hc Hpos Hk H0.
  pose proof (consistent_lookup s k x Hc Hk) as Hm.
  pose proof (consistent_lookup s 0%nat y Hc H0) as Hy.
  pose proof (lookup_lt_Some _ _ _ Hk) as Hlt.
  set (i := Z.of_nat k - Z.of_nat (length (ordered_set.items s))).
  assert (subscript i (length (ordered_set.items s)) = Some k) as Hi.
  { unfold subscript, i.
    destruct (Z.ltb_spec (Z.of_nat k - Z.of_nat (length (ordered_set.items s))) 0); [|lia].
    replace (Z.of_nat k - Z.of_nat (length (ordered_set.items s))
             + Z.of_nat (length (ordered_set.items s))) with (Z.of_nat k) by lia.
    destruct (Z.leb_spec 0 (Z.of_nat k)); [|lia].
    destruct (Z.ltb_spec (Z.of_nat k) (Z.of_nat (length (ordered_set.items s)))); [|lia].
    cbn. now rewrite Nat2Z.id. }
  assert (hash_key y <> hash_key x) as Hne.
  { intros E. pose proof (consistent_inj s 0%nat k y x Hc H0 Hk E). lia. }
  exists (ordered_set.mkOrderedSet (delete k (ordered_set.items s))
            (ordered_set.shift_from i (-1)
               (delete (hash_key x) (ordered_set.map s)))).
  split; [|split; [reflexivity|]].
  - apply (pop_index_run s i k x Hi Hk). now apply mem_lookup in Hm.
  - cbn. assert (delete k (ordered_set.items s) !! 0%nat = Some y) as Hd
      by (now rewrite list_lookup_delete_lt by lia).
    assert (ordered_set.shift_from i (-1)
              (delete (hash_key x) (ordered_set.map s)) !! hash_key y = Some (-1)) as Hs.
    { unfold ordered_set.shift_from. rewrite lookup_fmap, lookup_delete_ne by congruence.
      rewrite Hy. cbn. change (Z.of_nat 0) with 0.
      destruct (Z.leb_spec i 0); [reflexivity|unfold i in *; lia]. }
    split; [assumption|]. split; [assumption|].
    intros Hc'. apply Hc' in Hs as [j [Hj _]]. cbn in Hj. lia.
Qed.

Lemma pop_negative_index_shifts_all_witness :
  exists s',
    ordered_set.pop (Some (-1))
      (ordered_set.add (VStr "b") (ordered_set.add (VStr "a") ordered_set.empty))
    = (s', inr (VStr "b")) /\
    ordered_set.items s' = [VStr "a"] /\
    ordered_set.items s' !! 0%nat = Some (VStr "a") /\
    ordered_set.map s' !! VStr "a" = Some (-1) /\
    ~ ordered_set.consistent s'.
Proof.
  refine (pop_negative_index_shifts_all
            (ordered_set.add (VStr "b") (ordered_set.add (VStr "a") ordered_set.empty))
            1%nat (VStr "b") (VStr "a") _ _ _ _).
  - do 2 apply consistent_add. apply consistent_empty.
  - lia.
  - reflexivity.
  - reflexivity.
Defined.

(** What [insert] puts in at [i], [pop] takes out at [i]. *)
Lemma pop_insert_same (s : OrderedSet) (i : nat) (x : Value) :
  ordered_set.contains x s = false -> (i <= length (ordered_set.items s))%nat ->
  ordered_set.pop (Some (Z.of_nat i)) (ordered_set.insert (Z.of_nat i) x s)
  = (s, inr x).
Proof.
  intros Hx Hi. destruct s as [l m]. cbn in Hi.
  assert (m !! hash_key x = None) as Hnone.
  { unfold ordered_set.contains, ordered_set.mem in Hx. cbn in Hx.
    apply bool_decide_eq_false in Hx. now apply eq_None_not_Some. }
  pose proof (insert_map_new (Z.of_nat i) x _ Hx) as Hnew.
  pose proof (insert_items (Z.of_nat i) x _ Hx) as Hit. cbn in Hit.
  set (s1 := ordered_set.insert (Z.of_nat i) x (ordered_set.mkOrderedSet l m)) in *.
  assert (ordered_set.items s1 !! i = Some x) as Hk.
  { rewrite Hit, py_insert_in_range by assumption.
    apply list_lookup_middle. rewrite length_take. lia. }
  assert (delete i (ordered_set.items s1) = l) as Hdel.
  { rewrite Hit, py_insert_in_range by assumption.
    replace i with (length (take i l)) at 1 by (rewrite length_take; lia).
    rewrite delete_middle. apply take_drop. }
  rewrite (pop_index_run s1 (Z.of_nat i) i x);
    [|apply subscript_nat; now apply lookup_lt_Some in Hk|assumption
     |now apply mem_lookup in Hnew].
  rewrite Hdel. do 2 f_equal.
  unfold s1, ordered_set.insert. unfold ordered_set.contains in Hx. rewrite Hx. cbn.
  apply map_eq. intros y. unfold ordered_set.shift_from.
  rewrite lookup_fmap.
  destruct (decide (y = hash_key x)) as [->|Hne].
  { now rewrite lookup_delete_eq, Hnone. }
  rewrite lookup_delete_ne, lookup_fmap, lookup_insert_ne by congruence.
  destruct (m !! y) as [v|]; [|reflexivity]. cbn. f_equal.
  destruct (Z.leb_spec (Z.of_nat i) v).
  - destruct (Z.leb_spec (Z.of_nat i) (v + 1)); lia.
  - destruct (Z.leb_spec (Z.of_nat i) v); lia.
Qed.

(** X4. Taking out at [i] what [insert] has just put in at [i] gives back
    the set as it was, index map included: the position [insert] records
    one too high is corrected by the shift of [pop]. *)
Theorem insert_then_pop_restores (s : OrderedSet) (i : nat) (x : Value) :
  ordered_set.contains x s = false -> (i <= length (ordered_set.items s))%nat ->
  ordered_set.pop (Some (Z.of_nat i)) (ordered_set.insert (Z.of_nat i) x s)
  = (s, inr x).
Proof. exact (pop_insert_same s i x). Qed.

Lemma insert_then_pop_restores_witness :
  ordered_set.pop (Some 0)
    (ordered_set.insert 0 (VStr "z")
       (ordered_set.add (VStr "b") (ordered_set.add (VStr "a") ordered_set.empty)))
  = (ordered_set.add (VStr "b") (ordered_set.add (VStr "a") ordered_set.empty),
     inr (VStr "z")).
Proof.
  refine (insert_then_pop_restores
            (ordered_set.add (VStr "b") (ordered_set.add (VStr "a") ordered_set.empty))
            0%nat (VStr "z") _ _).
  - reflexivity.
  - cbn. lia.
Defined.

(** ** The class hierarchy *)

Lemma EClass_ind' (P : EClass -> Prop) :
  (forall i n a supers feats, Forall P supers -> P (mkEClass i n a supers feats)) ->
  forall c, P c.
Proof.
  intros H. fix IH 1. intros [i n a supers feats]. apply H.
  induction supers as [|x supers IHs]; constructor; [apply IH|assumption].
Qed.

Lemma eAllSuperTypes_unfold (c : EClass) (building : list EClass) :
  eAllSuperTypes c building
  = match eSuperTypes c with
    | [] => []
    | _ => supers_loop (eSuperTypes c) (direct_supers (eSuperTypes c) building [])
    end.
Proof.
  destruct c as [i n a supers feats]. cbn [eSuperTypes].
  destruct supers as [|s supers]; reflexivity.
Qed.

Lemma cid_in_elem (n : nat) (l : list EClass) :
  cid_in n l = true <-> exists x, x ∈ l /\ cid x = n.
Proof.
  unfold cid_in. rewrite existsb_exists. split.
  - intros [x [Hx E]]. exists x. split; [now apply list_elem_of_In|].
    now apply Nat.eqb_eq.
  - intros [x [Hx E]]. exists x. split; [now apply list_elem_of_In|].
    now apply Nat.eqb_eq.
Qed.

Lemma class_in_cid (c : EClass) (l : list EClass) : class_in c l = cid_in (cid c) l.
Proof. reflexivity. Qed.

Lemma elem_class_add (x c : EClass) (l : list EClass) :
  x ∈ class_add c l -> x = c \/ x ∈ l.
Proof.
  unfold class_add. destruct (class_in c l); [now right|].
  rewrite elem_of_app, list_elem_of_singleton. tauto.
Qed.

Lemma cid_in_class_add (n : nat) (c : EClass) (l : list EClass) :
  cid_in n l = true \/ cid c = n -> cid_in n (class_add c l) = true.
Proof.
  unfold class_add. destruct (class_in c l) eqn:E.
  - intros [H|<-]; [assumption|]. now rewrite <- class_in_cid.
  - intros H. apply cid_in_elem. destruct H as [H|<-].
    + apply cid_in_elem in H as [x [Hx Hn]]. exists x. split; [|assumption].
      apply elem_of_app. now left.
    + exists c. split; [|reflexivity]. apply elem_of_app. right. now left.
Qed.

Lemma elem_class_union (x : EClass) (l1 l2 : list EClass) :
  x ∈ class_union l1 l2 -> x ∈ l1 \/ x ∈ l2.
Proof.
  unfold class_union. revert l1. induction l2 as [|c l2 IH]; intros l1; cbn.
  - now left.
  - intros H. apply IH in H as [H|H].
    + apply elem_class_add in H as [->|H]; [right; now left|now left].
    + right. now right.
Qed.

Lemma cid_in_class_union (n : nat) (l1 l2 : list EClass) :
  cid_in n l1 = true \/ cid_in n l2 = true -> cid_in n (class_union l1 l2) = true.
Proof.
  unfold class_union. revert l1. induction l2 as [|c l2 IH]; intros l1; cbn.
  - intros [H|H]; [assumption|discriminate].
  - intros [H|H]; apply IH.
    + left. apply cid_in_class_add. now left.
    + apply orb_true_iff in H as [H|H].
      * left. apply cid_in_class_add. right. now apply Nat.eqb_eq.
      * now right.
Qed.

Lemma elem_direct_supers (x : EClass) (supers building acc : list EClass) :
  x ∈ direct_supers supers building acc -> x ∈ acc \/ x ∈ supers.
Proof.
  unfold direct_supers. revert acc. induction supers as [|s supers IH]; intros acc; cbn.
  - now left.
  - intros H. apply IH in H as [H|H]; [|right; now right].
    destruct (class_in s building); [now left|].
    apply elem_class_add in H as [->|H]; [right; now left|now left].
Qed.

Lemma cid_in_direct_supers_acc (n : nat) (supers building acc : list EClass) :
  cid_in n acc = true -> cid_in n (direct_supers supers building acc) = true.
Proof.
  unfold direct_supers. revert acc. induction supers as [|s supers IH]; intros acc; cbn.
  - trivial.
  - intros H. apply IH. destruct (class_in s building); [assumption|].
    apply cid_in_class_add. now left.
Qed.

Lemma cid_in_direct_supers (x : EClass) (supers building acc : list EClass) :
  x ∈ supers -> cid_in (cid x) building = false ->
  cid_in (cid x) (direct_supers supers building acc) = true.
Proof.
  revert acc. induction supers as [|s supers IH]; intros acc Hx Hb.
  - now apply elem_of_nil in Hx.
  - apply elem_of_cons in Hx as [<-|Hx].
    + unfold direct_supers. cbn. rewrite class_in_cid, Hb.
      apply (cid_in_direct_supers_acc _ supers building).
      apply cid_in_class_add. now right.
    + unfold direct_supers. cbn. now apply IH.
Qed.

Lemma supers_loop_mono (n : nat) (l stypes : list EClass) :
  cid_in n stypes = true -> cid_in n (supers_loop l stypes) = true.
Proof.
  revert stypes. induction l as [|ec l IH]; intros stypes H; cbn; [assumption|].
  apply IH. apply cid_in_class_union. now left.
Qed.

Lemma elem_supers_loop (x : EClass) (l stypes : list EClass) :
  Forall (fun ec => forall B y, y ∈ eAllSuperTypes ec B -> ancestor y ec) l ->
  x ∈ supers_loop l stypes ->
  x ∈ stypes \/ exists ec, ec ∈ l /\ ancestor x ec.
Proof.
  revert stypes. induction l as [|ec l IH]; intros stypes Hall H; cbn in H.
  - now left.
  - apply Forall_cons in Hall as [Hec Hall].
    apply (IH _ Hall) in H as [H|[ec' [Hin Ha]]].
    + apply elem_class_union in H as [H|H]; [now left|].
      right. exists ec. split; [now left|]. now apply (Hec stypes).
    + right. exists ec'. split; [now right|assumption].
Qed.

Lemma cid_in_supers_loop (n : nat) (l stypes : list EClass) (ec : EClass) :
  Forall (fun ec => forall B a, ancestor a ec ->
                    cid_in (cid a) (eAllSuperTypes ec B) = true
                    \/ cid_in (cid a) B = true) l ->
  ec ∈ l -> (exists a, ancestor a ec /\ cid a = n) ->
  cid_in n (supers_loop l stypes) = true.
Proof.
  revert stypes. induction l as [|ec' l IH]; intros stypes Hall Hin Ha.
  - now apply elem_of_nil in Hin.
  - apply Forall_cons in Hall as [Hec Hall]. cbn.
    apply elem_of_cons in Hin as [->|Hin]; [|now apply IH].
    destruct Ha as [a [Ha <-]].
    apply supers_loop_mono, cid_in_class_union.
    destruct (Hec stypes a Ha); [now right|now left].
Qed.

(** What [eAllSuperTypes] returns is made of classes above [c]. *)
Lemma eAllSuperTypes_sound (c : EClass) :
  forall B x, x ∈ eAllSuperTypes c B -> ancestor x c.
Proof.
  induction c as [i n a supers feats IH] using EClass_ind'. intros B x.
  rewrite eAllSuperTypes_unfold. cbn [eSuperTypes].
  destruct supers as [|s supers]; [intros H; now apply elem_of_nil in H|].
  intros H. apply (elem_supers_loop _ _ _ IH) in H as [H|[ec [Hin Ha]]].
  - apply elem_direct_supers in H as [H|H]; [now apply elem_of_nil in H|].
    now apply ancestor_direct.
  - now apply (ancestor_step _ _ ec).
Qed.

(** Every class above [c] is in it, or was in [building] already. *)
Lemma eAllSuperTypes_complete (c : EClass) :
  forall B a, ancestor a c ->
    cid_in (cid a) (eAllSuperTypes c B) = true \/ cid_in (cid a) B = true.
Proof.
  induction c as [i n ab supers feats IH] using EClass_ind'. intros B a Ha.
  rewrite eAllSuperTypes_unfold. cbn [eSuperTypes].
  inversion Ha as [c' Hin|c' s Hin Hs]; subst; cbn [eSuperTypes] in Hin.
  - destruct supers as [|s supers]; [now apply elem_of_nil in Hin|].
    destruct (cid_in (cid a) B) eqn:Hb; [now right|left].
    apply supers_loop_mono. now apply cid_in_direct_supers.
  - destruct supers as [|s' supers]; [now apply elem_of_nil in Hin|].
    left. apply (cid_in_supers_loop _ _ _ s IH Hin). now exists a.
Qed.

Lemma eAllSuperTypes_cid (c : EClass) (n : nat) :
  cid_in n (eAllSuperTypes c []) = true <-> exists a, ancestor a c /\ cid a = n.
Proof.
  split.
  - intros H. apply cid_in_elem in H as [x [Hx <-]]. exists x. split; [|reflexivity].
    now apply (eAllSuperTypes_sound c []).
  - intros [a [Ha <-]]. now destruct (eAllSuperTypes_complete c [] a Ha).
Qed.

(** X5. [eAllSuperTypes()] of a class is the set of the classes above it:
    it holds the identity of a class exactly when that class is reached by
    one or more steps along [eSuperTypes], at any depth. *)
Theorem eAllSuperTypes_is_the_classes_above (c : EClass) (n : nat) :
  cid_in n (eAllSuperTypes c []) = true <-> exists a, ancestor a c /\ cid a = n.
Proof. exact (eAllSuperTypes_cid c n). Qed.

(** X6. A model element is accepted for a class type exactly when its
    class is that class or has it above it, at any depth of the
    hierarchy. *)
Theorem isinstance_follows_the_hierarchy (h : Heap) (l : loc) (o : EObject) (n : nat) :
  h !! l = Some (HInst o) ->
  EcoreUtils.isinstance h (VRef l) (EClassRef n) = true
  <-> cid (eClass o) = n \/ exists a, ancestor a (eClass o) /\ cid a = n.
Proof.
  intros H. unfold EcoreUtils.isinstance, is_EObject, eClass_of. rewrite H.
  rewrite orb_true_iff, Nat.eqb_eq. now rewrite eAllSuperTypes_cid.
Qed.

Lemma ancestor_of_P (a : EClass) : ~ ancestor a Example.P.
Proof. intros H. inversion H as [c Hin|c s Hin _]; now apply elem_of_nil in Hin. Qed.

Lemma ancestor_of_Q (a : EClass) : ancestor a Example.Q -> a = Example.P.
Proof.
  intros H. inversion H as [c Hin|c s Hin Hs]; subst; cbn in Hin;
    apply list_elem_of_singleton in Hin; subst; [reflexivity|].
  now apply ancestor_of_P in Hs.
Qed.

Lemma ancestor_of_R (a : EClass) : ancestor a Example.R -> a = Example.Q \/ a = Example.P.
Proof.
  intros H. inversion H as [c Hin|c s Hin Hs]; subst; cbn in Hin;
    apply list_elem_of_singleton in Hin; subst; [now left|].
  right. now apply ancestor_of_Q.
Qed.

Lemma isinstance_follows_the_hierarchy_witness :
  EcoreUtils.isinstance {[ 0%nat := HInst (mkEObject Example.R ∅ VNone None [] true) ]}
    (VRef 0%nat) (EClassRef 10) = true
  <-> cid Example.R = 10%nat \/ exists a, ancestor a Example.R /\ cid a = 10%nat.
Proof.
  apply (isinstance_follows_the_hierarchy _ 0%nat
           (mkEObject Example.R ∅ VNone None [] true) 10%nat).
  reflexivity.
Defined.

Lemma find_app' {A} (p : A -> bool) (l1 l2 : list A) :
  List.find p (l1 ++ l2)
  = match List.find p l1 with Some x => Some x | None => List.find p l2 end.
Proof. induction l1 as [|x l1 IH]; cbn; [reflexivity|]. now destruct (p x). Qed.

Lemma find_None {A} (p : A -> bool) (l : list A) :
  List.find p l = None <-> forall x, x ∈ l -> p x = false.
Proof.
  split.
  - intros H x Hx. apply (find_none p l H). now apply list_elem_of_In.
  - intros H. induction l as [|x l IH]; cbn; [reflexivity|].
    rewrite (H x) by now left. apply IH. intros y Hy. apply H. now right.
Qed.

Lemma elem_eAllStructuralFeatures (c : EClass) (f : EStructuralFeature) :
  f ∈ eAllStructuralFeatures c
  <-> f ∈ eStructuralFeatures c
      \/ exists x, x ∈ eAllSuperTypes c [] /\ f ∈ eStructuralFeatures x.
Proof.
  unfold eAllStructuralFeatures. rewrite elem_of_app.
  apply or_iff_compat_l. rewrite list_elem_of_In, in_concat. split.
  - intros [fs [Hfs Hf]]. apply in_map_iff in Hfs as [x [<- Hx]].
    exists x. now rewrite !list_elem_of_In.
  - intros [x [Hx Hf]]. exists (eStructuralFeatures x).
    rewrite in_map_iff, <- list_elem_of_In. split; [|assumption].
    exists x. now rewrite <- list_elem_of_In.
Qed.

(** X7. Looking a feature up by name from a class.  A feature the class
    declares itself comes before any inherited one of the same name; what
    is found bears the name and is declared by the class or by a class
    above it; and nothing is found only if neither the class nor any class
    above it, at any depth, declares the name. *)
Theorem findEStructuralFeature_inherits (c : EClass) (n : string) :
  one_identity c ->
  (forall f, List.find (fun f => String.eqb (name f) n) (eStructuralFeatures c) = Some f ->
             findEStructuralFeature c n = Some f) /\
  (forall f, findEStructuralFeature c n = Some f ->
             name f = n /\
             exists a, (a = c \/ ancestor a c) /\ f ∈ eStructuralFeatures a) /\
  (findEStructuralFeature c n = None <->
   forall a f, a = c \/ ancestor a c -> f ∈ eStructuralFeatures a -> name f <> n).
Proof.
  intros Hid. split; [|split].
  - intros f Hf. unfold findEStructuralFeature, eAllStructuralFeatures.
    now rewrite find_app', Hf.
  - intros f Hf. unfold findEStructuralFeature in Hf.
    apply find_some in Hf as [Hin Hn]. apply String.eqb_eq in Hn.
    split; [assumption|].
    apply list_elem_of_In, elem_eAllStructuralFeatures in Hin as [Hin|[x [Hx Hin]]].
    + exists c. split; [now left|assumption].
    + exists x. split; [right; now apply (eAllSuperTypes_sound c [])|assumption].
  - unfold findEStructuralFeature. rewrite find_None. split.
    + intros H a f Ha Hf. apply String.eqb_neq. apply H.
      apply elem_eAllStructuralFeatures. destruct Ha as [->|Ha]; [now left|right].
      destruct (eAllSuperTypes_complete c [] a Ha) as [Hc|Hc]; [|discriminate].
      apply cid_in_elem in Hc as [x [Hx Hcid]].
      exists x. split; [assumption|].
      replace x with a; [assumption|]. symmetry. apply Hid; [| |assumption].
      * right. now apply (eAllSuperTypes_sound c []).
      * now right.
    + intros H f Hf. apply String.eqb_neq.
      apply elem_eAllStructuralFeatures in Hf as [Hf|[x [Hx Hf]]].
      * apply (H c f); [now left|assumption].
      * apply (H x f); [right; now apply (eAllSuperTypes_sound c [])|assumption].
Qed.

Lemma one_identity_R : one_identity Example.R.
Proof.
  intros a b Ha Hb.
  destruct Ha as [->|Ha]; [|apply ancestor_of_R in Ha as [->| ->]];
    (destruct Hb as [->|Hb]; [|apply ancestor_of_R in Hb as [->| ->]]);
    cbn; intros E; try reflexivity; discriminate.
Qed.

Lemma findEStructuralFeature_inherits_witness :
  (forall f, List.find (fun f => String.eqb (name f) "name")
               (eStructuralFeatures Example.R) = Some f ->
             findEStructuralFeature Example.R "name" = Some f) /\
  (forall f, findEStructuralFeature Example.R "name" = Some f ->
             name f = "name" /\
             exists a, (a = Example.R \/ ancestor a Example.R)
                       /\ f ∈ eStructuralFeatures a) /\
  (findEStructuralFeature Example.R "name" = None <->
   forall a f, a = Example.R \/ ancestor a Example.R ->
               f ∈ eStructuralFeatures a -> name f <> "name").
Proof. exact (findEStructuralFeature_inherits Example.R "name" one_identity_R). Defined.

(** ** Reading and writing attributes of a model element *)

Lemma fresh_not_in (h : Heap) : h !! fresh (dom h) = None.
Proof. apply not_elem_of_dom. apply is_fresh. Qed.

Lemma new_data_empty (f : EStructuralFeature) :
  elements_of (ECollectionOps.new_data f) = [].
Proof.
  unfold ECollectionOps.new_data.
  destruct (ordered f), (unique f); reflexivity.
Qed.

(** X8. The collection of a many-valued feature is made on the first
    read: it is new in the store, empty, of the flavour the feature asks
    for and owned by the element.  A second read returns the same
    collection and changes nothing. *)
Theorem getattr_many_creates_once (h : Heap) (w : loc) (ow : EObject) (m : string)
    (f : EStructuralFeature) :
  h !! w = Some (HInst ow) -> reserved_name m = false -> slots ow !! m = None ->
  findEStructuralFeature (eClass ow) m = Some f -> many f = true ->
  exists cl h1,
    Core_getattr w m h = (h1, inr (VRef cl)) /\
    h !! cl = None /\
    h1 !! cl = Some (HColl (mkECollection w f (ECollectionOps.new_data f))) /\
    elements_of (ECollectionOps.new_data f) = [] /\
    Core_getattr w m h1 = (h1, inr (VRef cl)).
Proof.
  intros Hw _ Hs Hf Hm.
  pose proof (getattr_many w m h ow f Hw Hs Hf Hm) as Hg. cbn zeta in Hg.
  set (cl := fresh (dom h)) in *.
  assert (h !! cl = None) as Hcl by apply fresh_not_in.
  assert (cl <> w) as Hne by (intros ->; congruence).
  eexists cl, _. split; [exact Hg|]. split; [assumption|]. split; [|split].
  - rewrite lookup_insert_ne by congruence. apply lookup_insert_eq.
  - apply new_data_empty.
  - apply (getattr_present w m _ (filled m (VRef cl) ow)).
    + apply lookup_insert_eq.
    + cbn. apply lookup_insert_eq.
Qed.

Lemma getattr_many_creates_once_witness :
  exists cl h1,
    Core_getattr 0%nat "items"
      {[ 0%nat := HInst (mkEObject Example.P ∅ VNone None [] true) ]}
    = (h1, inr (VRef cl)) /\
    ({[ 0%nat := HInst (mkEObject Example.P ∅ VNone None [] true) ]} : Heap) !! cl = None /\
    h1 !! cl = Some (HColl (mkECollection 0%nat Example.P_items
                              (ECollectionOps.new_data Example.P_items))) /\
    elements_of (ECollectionOps.new_data Example.P_items) = [] /\
    Core_getattr 0%nat "items" h1 = (h1, inr (VRef cl)).
Proof.
  apply (getattr_many_creates_once _ 0%nat
           (mkEObject Example.P ∅ VNone None [] true) "items" Example.P_items);
    reflexivity.
Defined.

(** X9. A name that is no feature of the class behaves as a plain Python
    attribute: reading it before it is written raises [AttributeError];
    any value at all can be written to it, unchecked and without a mark in
    [_isset]; and the next read returns that value. *)
Theorem non_feature_attribute_round_trip (h : Heap) (self : loc) (o : EObject)
    (n : string) (v : Value) :
  h !! self = Some (HInst o) -> reserved_name n = false ->
  findEStructuralFeature (eClass o) n = None ->
  (slots o !! n = None -> Core_getattr self n h = (h, inl AttributeError)) /\
  let h1 := <[self := HInst (set_slot n v o)]> h in
  Core_setattr self n v h = (h1, inr tt) /\
  Core_getattr self n h1 = (h1, inr v).
Proof.
  intros Hs _ Hf. split; [|split].
  - intros Hn. unfold Core_getattr, Core.getattr.
    rewrite (bind_ok _ _ h h o) by (unfold get_inst; now rewrite Hs).
    now rewrite Hn, Hf.
  - unfold Core_setattr, Core.setattr.
    rewrite (bind_ok _ _ h h o) by (unfold get_inst; now rewrite Hs).
    rewrite Hf. unfold raw_setattr. now rewrite Hs.
  - apply (getattr_present self n _ (set_slot n v o)).
    + apply lookup_insert_eq.
    + cbn. apply lookup_insert_eq.
Qed.

Lemma non_feature_attribute_round_trip_witness :
  (slots (mkEObject Example.P ∅ VNone None [] true) !! "note" = None ->
   Core_getattr 0%nat "note"
     {[ 0%nat := HInst (mkEObject Example.P ∅ VNone None [] true) ]}
   = ({[ 0%nat := HInst (mkEObject Example.P ∅ VNone None [] true) ]},
      inl AttributeError)) /\
  let h1 := <[0%nat := HInst (set_slot "note" (VInt 7)
                            (mkEObject Example.P ∅ VNone None [] true))]>
              ({[ 0%nat := HInst (mkEObject Example.P ∅ VNone None [] true) ]} : Heap) in
  Core_setattr 0%nat "note" (VInt 7)
    {[ 0%nat := HInst (mkEObject Example.P ∅ VNone None [] true) ]} = (h1, inr tt) /\
  Core_getattr 0%nat "note" h1 = (h1, inr (VInt 7)).
Proof.
  apply (non_feature_attribute_round_trip _ 0%nat
           (mkEObject Example.P ∅ VNone None [] true) "note" (VInt 7));
    reflexivity.
Defined.

(** The maintenance after a collection has been written to a slot that
    held nothing or another collection: nothing is left to do. *)
Lemma maintain_collection_value cb (w : loc) (feat : EStructuralFeature)
    (y prev : Value) (h : Heap) :
  is_ECollection h y = true ->
  prev = VNone \/ is_ECollection h prev = true ->
  Core.maintain cb w feat y prev h = (h, inr tt).
Proof.
  intros Hy Hprev. unfold Core.maintain.
  assert (is_EObject h y = false /\ y <> VNone) as [Hobj Hne].
  { destruct y; try discriminate. cbn in *.
    destruct (h !! l) as [[]|]; try discriminate. now split. }
  rewrite (bind_ok _ _ h h h) by reflexivity.
  rewrite Hobj, andb_false_r.
  rewrite (bind_ok _ _ h h tt).
  2:{ destruct Hprev as [->|Hp].
      - cbn [truthy]. now rewrite andb_false_r.
      - destruct (containment_of feat && negb (truthy h y) && truthy h prev);
          [|reflexivity].
        destruct prev; try discriminate. cbn in *.
        now destruct (h !! l) as [[]|]. }
  rewrite (bind_ok _ _ h h h) by reflexivity.
  destruct (eOpposite_of feat); [|reflexivity].
  rewrite Hobj. now rewrite bool_decide_eq_false_2.
Qed.

(** X10. A write to a many-valued feature asks one thing of the value,
    that it is a typed collection: anything else is refused with
    [BadValueError] and the store is as it was, while a collection is taken
    as it is, whoever owns it and whatever feature it was made for, and
    nothing but the slot of the element changes. *)
Theorem setattr_many_takes_any_collection (h : Heap) (self : loc) (o : EObject)
    (n : string) (feat : EStructuralFeature) (v : Value) :
  h !! self = Some (HInst o) -> reserved_name n = false ->
  findEStructuralFeature (eClass o) n = Some feat ->
  many feat = true ->
  (forall p, slots o !! n = Some p -> is_ECollection h p = true) ->
  (is_ECollection h v = false -> Core_setattr self n v h = (h, inl BadValueError)) /\
  (is_ECollection h v = true ->
   Core_setattr self n v h = (<[self := HInst (filled n v o)]> h, inr tt)).
Proof.
  intros Hs _ Hf Hm Hprev.
  pose proof (findEStructuralFeature_name _ _ _ Hf) as Hname.
  unfold Core_setattr, Core.setattr.
  rewrite (bind_ok _ _ h h o) by (unfold get_inst; now rewrite Hs).
  rewrite Hf. rewrite (bind_ok _ _ h h h) by reflexivity. rewrite Hm.
  split; intros Hv; rewrite Hv; cbn [andb negb]; [reflexivity|].
  rewrite (bind_ok _ _ _ _ _ (previous_value_run self (name feat) h o Hs)).
  rewrite Hname.
  assert (Core.stored_value (eType feat) v = v) as ->.
  { destruct v; try discriminate. now destruct (eType feat). }
  set (h1 := <[self := HInst (set_slot n v o)]> h).
  rewrite (bind_ok _ _ h h1 tt) by (unfold raw_setattr; now rewrite Hs).
  set (h2 := <[self := HInst (filled n v o)]> h).
  assert ((if _isready o then mark_isset self n else Py.ret tt) h1 = (h2, inr tt)) as Hset.
  { destruct (_isready o) eqn:Er.
    - unfold mark_isset.
      rewrite (bind_ok _ _ h1 h1 (set_slot n v o))
        by (unfold get_inst, h1; now rewrite lookup_insert_eq).
      unfold Py.modify, h2, h1, filled. rewrite insert_insert_eq. cbn.
      now rewrite Er.
    - unfold h2, h1, filled, set_slot. now rewrite Er. }
  rewrite (bind_ok _ _ _ _ _ Hset).
  destruct (_isready o && is_EReference feat); [|reflexivity].
  assert (forall x, is_ECollection h x = true -> is_ECollection h2 x = true) as Hkeep.
  { intros [] Hx; try discriminate. cbn in *. unfold h2.
    destruct (decide (l = self)) as [->|Hne].
    - now rewrite Hs in Hx.
    - now rewrite lookup_insert_ne by congruence. }
  apply maintain_collection_value; [now apply Hkeep|].
  destruct (slots o !! n) as [p|] eqn:Ep; [right|now left].
  cbn. apply Hkeep. now apply Hprev.
Qed.

Lemma setattr_many_takes_any_collection_witness :
  let o := mkEObject Example.P ∅ VNone None [] true in
  let h : Heap := {[ 0%nat := HInst o;
                     1%nat := HColl (mkECollection 5%nat Example.A_children (EList [])) ]} in
  (is_ECollection h (VRef 1%nat) = false ->
   Core_setattr 0%nat "items" (VRef 1%nat) h = (h, inl BadValueError)) /\
  (is_ECollection h (VRef 1%nat) = true ->
   Core_setattr 0%nat "items" (VRef 1%nat) h
   = (<[0%nat := HInst (filled "items" (VRef 1%nat) o)]> h, inr tt)).
Proof.
  intros o h.
  apply (setattr_many_takes_any_collection h 0%nat o "items" Example.P_items (VRef 1%nat));
    try reflexivity.
  intros p Hp. discriminate.
Defined.



(** X12. Reading a single-valued attribute that was never written gives
    the default value of the attribute and stores it in the slot; a default
    that fails the attribute's own typing rule makes the read raise
    [BadValueError]. *)
Theorem getattr_unset_attribute (h : Heap) (w : loc) (ow : EObject) (m : string)
    (f : EStructuralFeature) (d : Value) :
  h !! w = Some (HInst ow) -> reserved_name m = false -> slots ow !! m = None ->
  findEStructuralFeature (eClass ow) m = Some f -> many f = false ->
  kind f = EAttribute d ->
  (EcoreUtils.isinstance h d (eType f) = true ->
   Core_getattr w m h
   = (<[w := HInst (filled m (Core.stored_value (eType f) d) ow)]> h, inr d)) /\
  (EcoreUtils.isinstance h d (eType f) = false ->
   Core_getattr w m h = (h, inl BadValueError)).
Proof.
  intros Hw _ Hs Hf Hm Hk.
  assert (feature_default_value f = d) as Hd by (unfold feature_default_value; now rewrite Hk).
  assert (is_EReference f = false) as Hattr by (unfold is_EReference; now rewrite Hk).
  unfold Core_getattr, Core.getattr.
  rewrite (bind_ok _ _ h h ow) by (unfold get_inst; now rewrite Hw).
  rewrite Hs, Hf, Hm, Hd. split; intros Hty.
  - destruct (setattr_fill w m d h ow f (fun _ _ => Py.raise AttributeError) Hw Hf Hs)
      as [r [Hr Hok]].
    + now rewrite Hm.
    + intros E. congruence.
    + rewrite Hattr, andb_false_r in Hok. rewrite (Hok eq_refl) in Hr.
      now rewrite (bind_ok _ _ _ _ _ Hr).
  - apply bind_err. unfold Core.setattr.
    rewrite (bind_ok _ _ h h ow) by (unfold get_inst; now rewrite Hw).
    rewrite Hf. rewrite (bind_ok _ _ h h h) by reflexivity.
    now rewrite Hm, Hty.
Qed.

Lemma getattr_unset_attribute_witness :
  let ow := mkEObject Example.R ∅ VNone None [] true in
  let h : Heap := {[ 0%nat := HInst ow ]} in
  (EcoreUtils.isinstance h (VStr "r") (eType Example.R_name) = true ->
   Core_getattr 0%nat "name" h
   = (<[0%nat := HInst (filled "name"
                          (Core.stored_value (eType Example.R_name) (VStr "r")) ow)]> h,
      inr (VStr "r"))) /\
  (EcoreUtils.isinstance h (VStr "r") (eType Example.R_name) = false ->
   Core_getattr 0%nat "name" h = (h, inl BadValueError)).
Proof.
  intros ow h.
  apply (getattr_unset_attribute h 0%nat ow "name" Example.R_name (VStr "r"));
    reflexivity.
Defined.

(** X13. Reading a single-valued reference to a model class before it
    was ever written raises [BadValueError]: the default [getattr] finds
    for a reference is the meta-attribute [ETypedElement.default_value],
    which the typing rule of the reference refuses.  The store is as it
    was. *)
Theorem getattr_unset_reference_raises (h : Heap) (w : loc) (ow : EObject) (m : string)
    (f : EStructuralFeature) (k : nat) :
  h !! w = Some (HInst ow) -> reserved_name m = false -> slots ow !! m = None ->
  findEStructuralFeature (eClass ow) m = Some f -> many f = false ->
  is_EReference f = true -> eType f = EClassRef k ->
  Core_getattr w m h = (h, inl BadValueError).
Proof.
  intros Hw _ Hs Hf Hm Hr Ht.
  unfold Core_getattr, Core.getattr.
  rewrite (bind_ok _ _ h h ow) by (unfold get_inst; now rewrite Hw).
  rewrite Hs, Hf, Hm.
  assert (feature_default_value f = VMeta "ETypedElement.default_value") as ->.
  { unfold feature_default_value. unfold is_EReference in Hr.
    now destruct (kind f). }
  apply bind_err. unfold Core.setattr.
  rewrite (bind_ok _ _ h h ow) by (unfold get_inst; now rewrite Hw).
  rewrite Hf. rewrite (bind_ok _ _ h h h) by reflexivity.
  now rewrite Hm, Ht.
Qed.

Lemma getattr_unset_reference_raises_witness :
  Core_getattr 0%nat "parent"
    {[ 0%nat := HInst (mkEObject Example.B ∅ VNone None [] true) ]}
  = ({[ 0%nat := HInst (mkEObject Example.B ∅ VNone None [] true) ]},
     inl BadValueError).
Proof.
  apply (getattr_unset_reference_raises _ 0%nat
           (mkEObject Example.B ∅ VNone None [] true) "parent" Example.B_parent 11%nat);
    reflexivity.
Defined.

(** *** References: containment and opposite *)

Lemma bind_ret_tt (m : HM unit) (h : Heap) : (m ;; Py.ret tt) h = m h.
Proof. unfold Py.bind, Py.ret. now destruct (m h) as [h' [e|[]]]. Qed.

Lemma mark_isset_run (h : Heap) (self : loc) (o : EObject) (n : string) (x : Value) :
  _isready o = true ->
  mark_isset self n (<[self := HInst (set_slot n x o)]> h)
  = (<[self := HInst (filled n x o)]> h, inr tt).
Proof.
  intros Er. unfold mark_isset.
  rewrite (bind_ok _ _ _ _ (set_slot n x o))
    by (unfold get_inst; now rewrite lookup_insert_eq).
  unfold Py.modify, filled. rewrite insert_insert_eq. cbn. now rewrite Er.
Qed.

(** A well-typed write to a single-valued reference of a ready element:
    the slot is filled, and the maintenance runs on the store so left. *)
Lemma setattr_reference_run (h : Heap) (self : loc) (o : EObject) (n : string)
    (feat : EStructuralFeature) (v : Value) :
  h !! self = Some (HInst o) ->
  findEStructuralFeature (eClass o) n = Some feat ->
  many feat = false -> is_EReference feat = true -> _isready o = true ->
  EcoreUtils.isinstance h v (eType feat) = true ->
  Core_setattr self n v h
  = Core.maintain Core.getattr self feat v (default VNone (slots o !! n))
      (<[self := HInst (filled n (Core.stored_value (eType feat) v) o)]> h).
Proof.
  intros Hs Hf Hm Href Er Hty.
  rewrite (setattr_scalar_run h self o n feat v Hs Hf Hm), Hty.
  unfold after_store. rewrite Er, Href. cbn [andb].
  now rewrite (bind_ok _ _ _ _ _ (mark_isset_run h self o n _ Er)).
Qed.

Lemma maintain_containment_only cb (self : loc) (feat : EStructuralFeature)
    (v prev : Value) (h : Heap) :
  containment_of feat = true -> eOpposite_of feat = None ->
  Core.maintain cb self feat v prev h
  = (if is_EObject h v then set_container v (VRef self) (Some feat)
     else if negb (truthy h v) && truthy h prev then set_container prev VNone None
     else Py.ret tt) h.
Proof.
  intros Hc Ho. unfold Core.maintain.
  rewrite (bind_ok _ _ h h h) by reflexivity. rewrite Hc, Ho. cbn [andb].
  match goal with |- Py.bind ?m _ h = _ => destruct (m h) as [h' [e|[]]] eqn:E end.
  - now rewrite (bind_err _ _ _ _ _ E).
  - rewrite (bind_ok _ _ _ _ _ E). now rewrite (bind_ok _ _ h' h' h') by reflexivity.
Qed.

Lemma maintain_scalar_opposite cb (self : loc) (feat : EStructuralFeature)
    (opp : EOpposite) (v prev : Value) (h : Heap) :
  containment_of feat = false -> eOpposite_of feat = Some opp -> opp_many opp = false ->
  Core.maintain cb self feat v prev h
  = (if is_EObject h v then raw_setattr v (opp_name opp) (VRef self)
     else if bool_decide (v = VNone) then
       if truthy h prev then raw_setattr prev (opp_name opp) VNone else Py.ret tt
     else Py.ret tt) h.
Proof.
  intros Hc Ho Hm. unfold Core.maintain.
  rewrite (bind_ok _ _ h h h) by reflexivity. rewrite Hc, Ho, Hm. cbn [andb].
  rewrite (bind_ok _ _ h h tt) by reflexivity.
  rewrite (bind_ok _ _ h h h) by reflexivity.
  now rewrite andb_false_r.
Qed.

Lemma stored_value_ref (t : EClassifier) (l : loc) : Core.stored_value t (VRef l) = VRef l.
Proof. now destruct t. Qed.

Lemma stored_value_None (t : EClassifier) : Core.stored_value t VNone = VNone.
Proof. now destruct t. Qed.

(** X14. A single-valued containment reference without an opposite.
    Writing an element to it makes the owner the element's container, with
    the reference as its containment feature; writing [None] to it
    afterwards takes the container away again. *)
Theorem setattr_containment_sets_and_clears (h : Heap) (a b : loc) (oa ob : EObject)
    (n : string) (feat : EStructuralFeature) :
  h !! a = Some (HInst oa) -> h !! b = Some (HInst ob) -> a <> b ->
  _isready oa = true -> reserved_name n = false ->
  findEStructuralFeature (eClass oa) n = Some feat -> many feat = false ->
  kind feat = EReference true None ->
  EcoreUtils.isinstance h (VRef b) (eType feat) = true ->
  exists h1 h2,
    Core_setattr a n (VRef b) h = (h1, inr tt) /\
    slot_of h1 a n = Some (VRef b) /\
    container_of h1 b = Some (VRef a) /\
    _containment_feature (the_inst h1 b) = Some feat /\
    Core_setattr a n VNone h1 = (h2, inr tt) /\
    slot_of h2 a n = Some VNone /\
    container_of h2 b = Some VNone /\
    _containment_feature (the_inst h2 b) = None.
Proof.
  intros Ha Hb Hab Er _ Hf Hm Hk Hty.
  assert (is_EReference feat = true) as Href by (unfold is_EReference; now rewrite Hk).
  assert (containment_of feat = true) as Hc by (unfold containment_of; now rewrite Hk).
  assert (eOpposite_of feat = None) as Ho by (unfold eOpposite_of; now rewrite Hk).
  set (oa1 := filled n (VRef b) oa).
  set (ob1 := mkEObject (eClass ob) (slots ob) (VRef a) (Some feat) (_isset ob) (_isready ob)).
  set (h0 := <[a := HInst oa1]> h).
  set (h1 := <[b := HInst ob1]> h0).
  set (oa2 := filled n VNone oa1).
  set (ob2 := mkEObject (eClass ob) (slots ob) VNone None (_isset ob) (_isready ob)).
  set (h2 := <[b := HInst ob2]> (<[a := HInst oa2]> h1)).
  assert (h0 !! b = Some (HInst ob)) as Hb0
    by (unfold h0; now rewrite lookup_insert_ne by congruence).
  assert (h1 !! a = Some (HInst oa1)) as Ha1.
  { unfold h1, h0. rewrite lookup_insert_ne by congruence. apply lookup_insert_eq. }
  assert (h1 !! b = Some (HInst ob1)) as Hb1 by apply lookup_insert_eq.
  assert (h2 !! a = Some (HInst oa2)) as Ha2.
  { unfold h2. rewrite lookup_insert_ne by congruence. apply lookup_insert_eq. }
  assert (h2 !! b = Some (HInst ob2)) as Hb2 by apply lookup_insert_eq.
  exists h1, h2. repeat split.
  - rewrite (setattr_reference_run h a oa n feat _ Ha Hf Hm Href Er Hty).
    rewrite stored_value_ref. fold oa1. fold h0.
    rewrite (maintain_containment_only _ _ _ _ _ _ Hc Ho).
    unfold is_EObject. rewrite Hb0. unfold set_container. now rewrite Hb0.
  - unfold slot_of. rewrite Ha1. cbn. apply lookup_insert_eq.
  - unfold container_of. now rewrite Hb1.
  - unfold the_inst. now rewrite Hb1.
  - assert (slots oa1 !! n = Some (VRef b)) as Hslot by (cbn; apply lookup_insert_eq).
    rewrite (setattr_reference_run h1 a oa1 n feat VNone Ha1 Hf Hm Href Er (isinstance_None _ _)).
    rewrite stored_value_None, Hslot. cbn [default from_option id]. fold oa2.
    rewrite (maintain_containment_only _ _ _ _ _ _ Hc Ho).
    assert ((<[a := HInst oa2]> h1) !! b = Some (HInst ob1)) as Hb'
      by (now rewrite lookup_insert_ne by congruence).
    cbn [is_EObject truthy negb andb]. rewrite Hb'.
    unfold set_container. rewrite Hb'. reflexivity.
  - unfold slot_of. rewrite Ha2. cbn. apply lookup_insert_eq.
  - unfold container_of. now rewrite Hb2.
  - unfold the_inst. now rewrite Hb2.
Qed.

Lemma setattr_containment_sets_and_clears_witness :
  let oa := mkEObject Example.C ∅ VNone None [] true in
  let ob := mkEObject Example.B ∅ VNone None [] true in
  let h : Heap := {[ 0%nat := HInst oa; 1%nat := HInst ob ]} in
  exists h1 h2,
    Core_setattr 0%nat "part" (VRef 1%nat) h = (h1, inr tt) /\
    slot_of h1 0%nat "part" = Some (VRef 1%nat) /\
    container_of h1 1%nat = Some (VRef 0%nat) /\
    _containment_feature (the_inst h1 1%nat) = Some Example.C_part /\
    Core_setattr 0%nat "part" VNone h1 = (h2, inr tt) /\
    slot_of h2 0%nat "part" = Some VNone /\
    container_of h2 1%nat = Some VNone /\
    _containment_feature (the_inst h2 1%nat) = None.
Proof.
  intros oa ob h.
  apply (setattr_containment_sets_and_clears h 0%nat 1%nat oa ob "part" Example.C_part);
    try reflexivity.
  lia.
Defined.

(** X15. A single-valued reference whose opposite is single-valued too.
    Writing a new element over an old one fills the opposite slot of the
    new element and leaves the opposite slot of the old one as it was, so
    the old element keeps pointing back; only a write of [None] clears the
    opposite slot of the element that was there. *)
Theorem setattr_opposite_keeps_old_back_pointer (h : Heap) (a b1 b2 : loc)
    (oa ob1 ob2 : EObject) (n : string) (feat : EStructuralFeature) (opp : EOpposite) :
  h !! a = Some (HInst oa) -> h !! b1 = Some (HInst ob1) -> h !! b2 = Some (HInst ob2) ->
  a <> b1 -> a <> b2 -> b1 <> b2 ->
  _isready oa = true -> reserved_name n = false ->
  findEStructuralFeature (eClass oa) n = Some feat -> many feat = false ->
  kind feat = EReference false (Some opp) -> opp_many opp = false ->
  reserved_name (opp_name opp) = false ->
  slots oa !! n = Some (VRef b1) ->
  EcoreUtils.isinstance h (VRef b2) (eType feat) = true ->
  (exists h',
     Core_setattr a n (VRef b2) h = (h', inr tt) /\
     slot_of h' a n = Some (VRef b2) /\
     slot_of h' b2 (opp_name opp) = Some (VRef a) /\
     slot_of h' b1 (opp_name opp) = slot_of h b1 (opp_name opp)) /\
  (exists h',
     Core_setattr a n VNone h = (h', inr tt) /\
     slot_of h' a n = Some VNone /\
     slot_of h' b1 (opp_name opp) = Some VNone).
Proof.
  intros Ha Hb1 Hb2 Hab1 Hab2 Hb12 Er _ Hf Hm Hk Hom _ Hslot Hty.
  assert (is_EReference feat = true) as Href by (unfold is_EReference; now rewrite Hk).
  assert (containment_of feat = false) as Hc by (unfold containment_of; now rewrite Hk).
  assert (eOpposite_of feat = Some opp) as Ho by (unfold eOpposite_of; now rewrite Hk).
  split.
  - set (oa1 := filled n (VRef b2) oa).
    set (h0 := <[a := HInst oa1]> h).
    assert (h0 !! b2 = Some (HInst ob2)) as Hb0
      by (unfold h0; now rewrite lookup_insert_ne by congruence).
    exists (<[b2 := HInst (set_slot (opp_name opp) (VRef a) ob2)]> h0).
    split; [|split; [|split]].
    + rewrite (setattr_reference_run h a oa n feat _ Ha Hf Hm Href Er Hty).
      rewrite stored_value_ref. fold oa1. fold h0.
      rewrite (maintain_scalar_opposite _ _ _ opp _ _ _ Hc Ho Hom).
      unfold is_EObject. rewrite Hb0. unfold raw_setattr. now rewrite Hb0.
    + unfold slot_of, h0. rewrite lookup_insert_ne, lookup_insert_eq by congruence.
      cbn. apply lookup_insert_eq.
    + unfold slot_of. rewrite lookup_insert_eq. cbn. apply lookup_insert_eq.
    + unfold slot_of, h0. now rewrite !lookup_insert_ne by congruence.
  - set (oa1 := filled n VNone oa).
    set (h0 := <[a := HInst oa1]> h).
    assert (h0 !! b1 = Some (HInst ob1)) as Hb0
      by (unfold h0; now rewrite lookup_insert_ne by congruence).
    exists (<[b1 := HInst (set_slot (opp_name opp) VNone ob1)]> h0).
    split; [|split].
    + rewrite (setattr_reference_run h a oa n feat VNone Ha Hf Hm Href Er
                 (isinstance_None _ _)).
      rewrite stored_value_None, Hslot. cbn [default from_option id]. fold oa1. fold h0.
      rewrite (maintain_scalar_opposite _ _ _ opp _ _ _ Hc Ho Hom).
      cbn [is_EObject truthy]. rewrite Hb0.
      rewrite bool_decide_eq_true_2 by reflexivity.
      unfold raw_setattr. now rewrite Hb0.
    + unfold slot_of, h0. rewrite lookup_insert_ne, lookup_insert_eq by congruence.
      cbn. apply lookup_insert_eq.
    + unfold slot_of. rewrite lookup_insert_eq. cbn. apply lookup_insert_eq.
Qed.

Lemma setattr_opposite_keeps_old_back_pointer_witness :
  let oa := mkEObject Example.M {[ "partner" := VRef 1%nat ]} VNone None [] true in
  let ob1 := mkEObject Example.M {[ "partner" := VRef 0%nat ]} VNone None [] true in
  let ob2 := mkEObject Example.M ∅ VNone None [] true in
  let h : Heap := {[ 0%nat := HInst oa; 1%nat := HInst ob1; 2%nat := HInst ob2 ]} in
  (exists h',
     Core_setattr 0%nat "partner" (VRef 2%nat) h = (h', inr tt) /\
     slot_of h' 0%nat "partner" = Some (VRef 2%nat) /\
     slot_of h' 2%nat "partner" = Some (VRef 0%nat) /\
     slot_of h' 1%nat "partner" = slot_of h 1%nat "partner") /\
  (exists h',
     Core_setattr 0%nat "partner" VNone h = (h', inr tt) /\
     slot_of h' 0%nat "partner" = Some VNone /\
     slot_of h' 1%nat "partner" = Some VNone).
Proof.
  intros oa ob1 ob2 h.
  apply (setattr_opposite_keeps_old_back_pointer h 0%nat 1%nat 2%nat oa ob1 ob2
           "partner" Example.M_partner (mkOpposite "partner" 1));
    try reflexivity; lia.
Defined.

(** ** Typed collections *)

Lemma py_in_false_find_index (x : Value) (l : list Value) :
  py_in x l = false -> find_index (py_eqb x) l = None.
Proof.
  unfold py_in. induction l as [|y l IH]; cbn; [reflexivity|].
  intros H. apply orb_false_iff in H as [-> H]. now rewrite (IH H).
Qed.

(** What [remove] of the underlying container raises for a value that is
    not in it: [ValueError] from a list, [KeyError] from the sets. *)
Lemma data_remove_absent (x : Value) (d : CollData) :
  data_contains x d = false ->
  ECollectionOps.data_remove x d
  = (d, inl (match d with EList _ => ValueError | _ => KeyError end)).
Proof.
  destruct d as [l|l|s]; cbn; intros H.
  - unfold py_remove. now rewrite (py_in_false_find_index _ _ H).
  - unfold py_remove. now rewrite (py_in_false_find_index _ _ H).
  - unfold ordered_set.remove, Py.bind, Py.get, Py.raise.
    unfold ordered_set.contains in H. now rewrite H.
Qed.

(** X16. [remove] on a containment collection takes the container away
    from the value before it looks whether the value is in the collection:
    for an element that is not in it the call raises ([ValueError] from a
    list, [KeyError] from a set), the collection is as it was, and the
    element has lost its container and its containment feature, wherever
    it was contained. *)
Theorem remove_detaches_before_it_looks (h : Heap) (cl b : loc) (c : ECollection)
    (ob : EObject) :
  h !! cl = Some (HColl c) -> h !! b = Some (HInst ob) ->
  kind (_efeature c) = EReference true None ->
  data_contains (VRef b) (data c) = false ->
  exists h',
    ECollection_remove cl (VRef b) true h
    = (h', inl (match data c with EList _ => ValueError | _ => KeyError end)) /\
    data_of h' cl = Some (data c) /\
    container_of h' b = Some VNone /\
    _containment_feature (the_inst h' b) = None.
Proof.
  intros Hcl Hb Hk Hnot.
  assert (is_EReference (_efeature c) = true) as Href
    by (unfold is_EReference; now rewrite Hk).
  assert (containment_of (_efeature c) = true) as Hc
    by (unfold containment_of; now rewrite Hk).
  assert (eOpposite_of (_efeature c) = None) as Ho
    by (unfold eOpposite_of; now rewrite Hk).
  assert (cl <> b) as Hne by (intros ->; congruence).
  set (ob' := mkEObject (eClass ob) (slots ob) VNone None (_isset ob) (_isready ob)).
  set (h1 := <[b := HInst ob']> h).
  assert (h1 !! cl = Some (HColl c)) as Hcl1
    by (unfold h1; now rewrite lookup_insert_ne by congruence).
  exists (<[cl := HColl (with_data c (data c))]> h1).
  split; [|split; [|split]].
  - unfold ECollection_remove, ECollectionOps.remove.
    rewrite (bind_ok _ _ h h c) by (unfold get_coll; now rewrite Hcl).
    rewrite (bind_ok _ _ h h1 tt).
    2:{ rewrite (bind_ok _ _ h h1 tt).
        - unfold ECollectionOps._update_opposite. now rewrite Href, Ho.
        - unfold ECollectionOps._update_container.
          rewrite (bind_ok _ _ h h h) by reflexivity.
          rewrite Href, Hc. cbn [negb andb truthy]. rewrite Hb. cbn [negb].
          unfold set_container. now rewrite Hb. }
    rewrite (on_data_run h1 cl c Hcl1).
    now rewrite (data_remove_absent _ _ Hnot).
  - unfold data_of. now rewrite lookup_insert_eq.
  - unfold container_of, h1.
    now rewrite lookup_insert_ne, lookup_insert_eq by congruence.
  - unfold the_inst, h1.
    now rewrite lookup_insert_ne, lookup_insert_eq by congruence.
Qed.

Lemma remove_detaches_before_it_looks_witness :
  let c := mkECollection 0%nat Example.C_parts (EList []) in
  let ob := mkEObject Example.B ∅ (VRef 7%nat) (Some Example.C_part) [] true in
  let h : Heap := {[ 1%nat := HColl c; 2%nat := HInst ob ]} in
  exists h',
    ECollection_remove 1%nat (VRef 2%nat) true h = (h', inl ValueError) /\
    data_of h' 1%nat = Some (EList []) /\
    container_of h' 2%nat = Some VNone /\
    _containment_feature (the_inst h' 2%nat) = None.
Proof.
  intros c ob h.
  apply (remove_detaches_before_it_looks h 1%nat 2%nat c ob); reflexivity.
Defined.

Lemma update_each_attribute cb (c : ECollection) (values : list Value) (h : Heap) :
  is_EReference (_efeature c) = false ->
  ECollectionOps.update_each cb c values h = (h, inr tt).
Proof.
  intros Hattr. induction values as [|x rest IH]; [reflexivity|].
  cbn [ECollectionOps.update_each].
  rewrite (bind_ok _ _ h h tt).
  2:{ unfold ECollectionOps._update_container.
      rewrite (bind_ok _ _ h h h) by reflexivity. now rewrite Hattr. }
  rewrite (bind_ok _ _ h h tt); [assumption|].
  unfold ECollectionOps._update_opposite. now rewrite Hattr.
Qed.

(** The typing rule looks at model elements only: what a collection
    holds does not matter to it. *)
Lemma isinstance_coll_update (h : Heap) (l : loc) (c c' : ECollection) (v : Value)
    (t : EClassifier) :
  h !! l = Some (HColl c) ->
  EcoreUtils.isinstance (<[l := HColl c']> h) v t = EcoreUtils.isinstance h v t.
Proof.
  intros Hl.
  assert (is_EObject (<[l := HColl c']> h) v = is_EObject h v) as Hobj.
  { destruct v as [| | | | |l0|]; try reflexivity. cbn.
    destruct (decide (l = l0)) as [->|Hne].
    - now rewrite lookup_insert_eq, Hl.
    - now rewrite lookup_insert_ne. }
  assert (eClass_of (<[l := HColl c']> h) v = eClass_of h v) as Hcls.
  { destruct v as [| | | | |l0|]; try reflexivity. cbn.
    destruct (decide (l = l0)) as [->|Hne].
    - now rewrite lookup_insert_eq, Hl.
    - now rewrite lookup_insert_ne. }
  assert (forall p, py_isinstance (<[l := HColl c']> h) v p = py_isinstance h v p) as Hpy.
  { intros p. destruct p, v; try reflexivity; apply Hobj. }
  unfold EcoreUtils.isinstance. destruct v; try reflexivity;
    destruct t; try reflexivity; try apply Hpy; now rewrite Hobj, Hcls.
Qed.

(** [append], which is [add] on a set, on a collection of an attribute:
    the element is checked and added, and nothing else is maintained. *)
Lemma append_attribute cb (h : Heap) (cl : loc) (c : ECollection) (v : Value) :
  h !! cl = Some (HColl c) -> is_EReference (_efeature c) = false ->
  ECollectionOps.append cb cl v true h
  = if EcoreUtils.isinstance h v (eType (_efeature c)) then
      (<[cl := HColl (with_data c (ECollectionOps.data_append v (data c)))]> h, inr tt)
    else (h, inl BadValueError).
Proof.
  intros Hcl Hattr. unfold ECollectionOps.append.
  rewrite (bind_ok _ _ h h c) by (unfold get_coll; now rewrite Hcl).
  destruct (EcoreUtils.isinstance h v (eType (_efeature c))) eqn:Hty.
  - rewrite (bind_ok _ _ h h tt).
    2:{ unfold ECollectionOps.check. rewrite (bind_ok _ _ h h h) by reflexivity.
        now rewrite Hty. }
    rewrite (bind_ok _ _ h h tt).
    2:{ rewrite (bind_ok _ _ h h tt).
        - unfold ECollectionOps._update_opposite. now rewrite Hattr.
        - unfold ECollectionOps._update_container.
          rewrite (bind_ok _ _ h h h) by reflexivity. now rewrite Hattr. }
    apply (on_data_run h cl c Hcl).
  - apply bind_err. unfold ECollectionOps.check.
    rewrite (bind_ok _ _ h h h) by reflexivity. now rewrite Hty.
Qed.

(** X17. What [extend] checks depends on the flavour.  The check of
    [extend] itself stops after the first element: if that one fails the
    typing rule the call raises [BadValueError] and nothing changes.  On a
    list that is all: after a well-typed first element every element of the
    argument is added, whatever the others are.  On an ordered set the
    elements then go through [add] one by one and are checked again: an
    ill-typed second element makes the call raise [ValueError], with the
    first element added.  (Collections of an attribute.) *)
Theorem extend_checks_the_first_on_a_list (h : Heap) (cl : loc) (c : ECollection)
    (x : Value) (rest : list Value) :
  h !! cl = Some (HColl c) -> is_EReference (_efeature c) = false ->
  (EcoreUtils.isinstance h x (eType (_efeature c)) = false ->
   ECollection_extend cl (x :: rest) h = (h, inl BadValueError)) /\
  (forall l, data c = EList l ->
   EcoreUtils.isinstance h x (eType (_efeature c)) = true ->
   ECollection_extend cl (x :: rest) h
   = (<[cl := HColl (with_data c (EList (l ++ x :: rest)))]> h, inr tt)) /\
  (forall s y rest', data c = EOrderedSet s -> rest = y :: rest' ->
   EcoreUtils.isinstance h x (eType (_efeature c)) = true ->
   EcoreUtils.isinstance h y (eType (_efeature c)) = false ->
   ECollection_extend cl (x :: rest) h
   = (<[cl := HColl (with_data c (EOrderedSet (ordered_set.add x s)))]> h,
      inl ValueError)).
Proof.
  intros Hcl Hattr.
  split; [|split].
  - intros Hty. unfold ECollection_extend, ECollectionOps.extend.
    rewrite (bind_ok _ _ h h c) by (unfold get_coll; now rewrite Hcl).
    apply bind_err. cbn [ECollectionOps.all_check]. apply bind_err.
    unfold ECollectionOps.check. rewrite (bind_ok _ _ h h h) by reflexivity.
    now rewrite Hty.
  - intros l Hdata Hty. unfold ECollection_extend, ECollectionOps.extend.
    rewrite (bind_ok _ _ h h c) by (unfold get_coll; now rewrite Hcl).
    rewrite Hdata.
    rewrite (bind_ok _ _ h h false).
    2:{ cbn [ECollectionOps.all_check].
        rewrite (bind_ok _ _ h h tt); [reflexivity|].
        unfold ECollectionOps.check. rewrite (bind_ok _ _ h h h) by reflexivity.
        now rewrite Hty. }
    rewrite (bind_ok _ _ _ _ _ (update_each_attribute _ c (x :: rest) h Hattr)).
    rewrite (on_data_run h cl c Hcl). now rewrite Hdata.
  - intros s y rest' Hdata -> Htx Hty.
    unfold ECollection_extend, ECollectionOps.extend.
    rewrite (bind_ok _ _ h h c) by (unfold get_coll; now rewrite Hcl).
    rewrite Hdata.
    rewrite (bind_ok _ _ h h false).
    2:{ cbn [ECollectionOps.all_check].
        rewrite (bind_ok _ _ h h tt); [reflexivity|].
        unfold ECollectionOps.check. rewrite (bind_ok _ _ h h h) by reflexivity.
        now rewrite Htx. }
    rewrite (bind_ok _ _ _ _ _ (update_each_attribute _ c (x :: y :: rest') h Hattr)).
    set (c1 := with_data c (EOrderedSet (ordered_set.add x s))).
    set (h1 := <[cl := HColl c1]> h).
    assert (h1 !! cl = Some (HColl c1)) as Hcl1 by apply lookup_insert_eq.
    cbn [ECollectionOps.update_ordered].
    rewrite (bind_ok _ _ h h1 tt).
    2:{ unfold Py.catch.
        rewrite (append_attribute _ h cl c x Hcl Hattr), Htx, Hdata. reflexivity. }
    apply bind_err. unfold Py.catch.
    rewrite (append_attribute _ h1 cl c1 y Hcl1 Hattr).
    unfold h1 at 1. cbn [_efeature c1 with_data].
    rewrite (isinstance_coll_update h cl c c1 y _ Hcl), Hty.
    destruct (decide (BadValueError = BadValueError)) as [_|Hne]; [|congruence].
    unfold Py.raise.
    now destruct (decide (ValueError = TypeError)).
Qed.

Lemma extend_checks_the_first_on_a_list_witness :
  let cl := mkECollection 0%nat Example.P_items (EList [VStr "a"]) in
  let cs := mkECollection 0%nat Example.P_tags
              (EOrderedSet (ordered_set.add (VStr "a") ordered_set.empty)) in
  let hl : Heap := {[ 1%nat := HColl cl ]} in
  let hs : Heap := {[ 1%nat := HColl cs ]} in
  ECollection_extend 1%nat [VStr "b"; VInt 5] hl
  = (<[1%nat := HColl (with_data cl (EList ([VStr "a"] ++ [VStr "b"; VInt 5])))]> hl,
     inr tt) /\
  ECollection_extend 1%nat [VStr "b"; VInt 5] hs
  = (<[1%nat := HColl (with_data cs
                         (EOrderedSet
                            (ordered_set.add (VStr "b")
                               (ordered_set.add (VStr "a") ordered_set.empty))))]> hs,
     inl ValueError).
Proof.
  intros cl cs hl hs. split.
  - apply (proj1 (proj2 (extend_checks_the_first_on_a_list hl 1%nat cl (VStr "b")
                           [VInt 5] eq_refl eq_refl)) [VStr "a"]); reflexivity.
  - apply (proj2 (proj2 (extend_checks_the_first_on_a_list hs 1%nat cs (VStr "b")
                           [VInt 5] eq_refl eq_refl))
             (ordered_set.add (VStr "a") ordered_set.empty) (VInt 5) []);
      reflexivity.
Defined.

(** X18. Item assignment on a list-backed containment collection (no
    opposite) makes the owner the container of the new element before the
    list is touched.  With the index in range the element takes the
    position, and the element that was there keeps the container it had;
    with the index out of range the call raises [IndexError], the list is
    as it was, and the new element has the owner as its container all the
    same. *)
Theorem setitem_sets_container_first (h : Heap) (cl b : loc) (c : ECollection)
    (ob : EObject) (l : list Value) (i : Z) :
  h !! cl = Some (HColl c) -> h !! b = Some (HInst ob) ->
  data c = EList l ->
  kind (_efeature c) = EReference true None ->
  EcoreUtils.isinstance h (VRef b) (eType (_efeature c)) = true ->
  0 <= i ->
  exists h',
    container_of h' b = Some (VRef (_owner c)) /\
    (forall d, d <> b -> container_of h' d = container_of h d) /\
    (i < Z.of_nat (length l) ->
     ECollection_setitem cl i (VRef b) h = (h', inr tt) /\
     data_of h' cl = Some (EList (<[Z.to_nat i := VRef b]> l))) /\
    (Z.of_nat (length l) <= i ->
     ECollection_setitem cl i (VRef b) h = (h', inl IndexError) /\
     data_of h' cl = Some (EList l)).
Proof.
  intros Hcl Hb Hdata Hk Hty Hi.
  assert (is_EReference (_efeature c) = true) as Href
    by (unfold is_EReference; now rewrite Hk).
  assert (containment_of (_efeature c) = true) as Hc
    by (unfold containment_of; now rewrite Hk).
  assert (eOpposite_of (_efeature c) = None) as Ho
    by (unfold eOpposite_of; now rewrite Hk).
  assert (cl <> b) as Hne by (intros ->; congruence).
  set (ob' := mkEObject (eClass ob) (slots ob) (VRef (_owner c)) (Some (_efeature c))
                        (_isset ob) (_isready ob)).
  set (h1 := <[b := HInst ob']> h).
  assert (h1 !! cl = Some (HColl c)) as Hcl1
    by (unfold h1; now rewrite lookup_insert_ne by congruence).
  assert (forall r,
            ECollectionOps.data_setitem i (VRef b) (data c) = r ->
            ECollection_setitem cl i (VRef b) h
            = (<[cl := HColl (with_data c (fst r))]> h1, snd r)) as Hrun.
  { intros r <-. unfold ECollection_setitem, ECollectionOps.setitem.
    rewrite (bind_ok _ _ h h c) by (unfold get_coll; now rewrite Hcl).
    rewrite Hdata.
    rewrite (bind_ok _ _ h h tt).
    2:{ unfold ECollectionOps.check. rewrite (bind_ok _ _ h h h) by reflexivity.
        now rewrite Hty. }
    rewrite (bind_ok _ _ h h1 tt).
    2:{ unfold ECollectionOps._update_container.
        rewrite (bind_ok _ _ h h h) by reflexivity.
        rewrite Href, Hc. cbn [negb andb truthy].
        unfold set_container. now rewrite Hb. }
    rewrite (bind_ok _ _ h1 h1 tt)
      by (unfold ECollectionOps._update_opposite; now rewrite Href, Ho).
    rewrite (on_data_run h1 cl c Hcl1). now rewrite Hdata. }
  destruct (Z.ltb_spec i (Z.of_nat (length l))) as [Hlt|Hge].
  - exists (<[cl := HColl (with_data c (EList (<[Z.to_nat i := VRef b]> l)))]> h1).
    split; [|split; [|split]].
    + unfold container_of, h1.
      now rewrite lookup_insert_ne, lookup_insert_eq by congruence.
    + intros d Hd. unfold container_of, h1.
      destruct (decide (d = cl)) as [->|Hdc].
      * now rewrite lookup_insert_eq, Hcl.
      * now rewrite !lookup_insert_ne by congruence.
    + intros _. split; [|unfold data_of; now rewrite lookup_insert_eq].
      apply (Hrun (EList (<[Z.to_nat i := VRef b]> l), inr tt)).
      rewrite Hdata. cbn. now rewrite subscript_in_range by lia.
    + lia.
  - exists (<[cl := HColl (with_data c (EList l))]> h1).
    split; [|split; [|split]].
    + unfold container_of, h1.
      now rewrite lookup_insert_ne, lookup_insert_eq by congruence.
    + intros d Hd. unfold container_of, h1.
      destruct (decide (d = cl)) as [->|Hdc].
      * now rewrite lookup_insert_eq, Hcl.
      * now rewrite !lookup_insert_ne by congruence.
    + lia.
    + intros _. split; [|unfold data_of; now rewrite lookup_insert_eq].
      apply (Hrun (EList l, inl IndexError)).
      rewrite Hdata. cbn. unfold subscript.
      destruct (Z.ltb_spec i 0); [lia|].
      destruct (Z.leb_spec 0 i); [|lia].
      now destruct (Z.ltb_spec i (Z.of_nat (length l))); [lia|].
Qed.

Lemma setitem_sets_container_first_witness :
  let c := mkECollection 0%nat Example.C_parts (EList [VRef 3%nat]) in
  let ob := mkEObject Example.B ∅ VNone None [] true in
  let h : Heap := {[ 1%nat := HColl c; 2%nat := HInst ob; 3%nat := HInst ob ]} in
  exists h',
    container_of h' 2%nat = Some (VRef 0%nat) /\
    (forall d, d <> 2%nat -> container_of h' d = container_of h d) /\
    (5 < Z.of_nat (length [VRef 3%nat]) ->
     ECollection_setitem 1%nat 5 (VRef 2%nat) h = (h', inr tt) /\
     data_of h' 1%nat = Some (EList (<[Z.to_nat 5 := VRef 2%nat]> [VRef 3%nat]))) /\
    (Z.of_nat (length [VRef 3%nat]) <= 5 ->
     ECollection_setitem 1%nat 5 (VRef 2%nat) h = (h', inl IndexError) /\
     data_of h' 1%nat = Some (EList [VRef 3%nat])).
Proof.
  intros c ob h.
  apply (setitem_sets_container_first h 1%nat 2%nat c ob [VRef 3%nat] 5);
    try reflexivity.
  lia.
Defined.

(** ** The root of a containment tree *)

Lemma getRoot_loop_top (h : Heap) (l r : loc) (n : nat) :
  root_of h l r n ->
  forall fuel,
    EcoreUtils.getRoot_loop fuel (VRef l) h
    = (h, inr (if (n <? fuel)%nat then Some (VRef r) else None)).
Proof.
  induction 1 as [l o Hl Hc|l p r o n Hl Hc Hp IH]; intros [|fuel]; try reflexivity.
  - cbn [EcoreUtils.getRoot_loop]. unfold EcoreUtils.eContainer.
    rewrite (bind_ok _ _ h h VNone).
    2:{ now rewrite (bind_ok _ _ h h o) by (unfold get_inst; now rewrite Hl); rewrite Hc. }
    reflexivity.
  - cbn [EcoreUtils.getRoot_loop]. unfold EcoreUtils.eContainer.
    rewrite (bind_ok _ _ h h (VRef p)).
    2:{ now rewrite (bind_ok _ _ h h o) by (unfold get_inst; now rewrite Hl); rewrite Hc. }
    rewrite bool_decide_eq_false_2 by discriminate. rewrite IH.
    reflexivity.
Qed.

Lemma root_of_inst (h : Heap) (l r : loc) (n : nat) :
  root_of h l r n -> exists o, h !! l = Some (HInst o).
Proof. intros [l' o Hl _|l' p r' o n' Hl _ _]; eauto. Qed.

(** X19. [getRoot] climbs the chain of containers to its top.  For an
    element whose chain reaches an element without container after [n]
    steps, the loop ends after [n + 1] rounds with that element; it has not
    ended before. *)
Theorem getRoot_finds_the_top (h : Heap) (l r : loc) (n : nat) :
  root_of h l r n ->
  (forall fuel, (n < fuel)%nat ->
     EcoreUtils.getRoot fuel (VRef l) h = (h, inr (Some (VRef r)))) /\
  (forall fuel, (fuel <= n)%nat ->
     EcoreUtils.getRoot fuel (VRef l) h = (h, inr None)).
Proof.
  intros Hroot. destruct (root_of_inst _ _ _ _ Hroot) as [o Hl].
  assert (forall fuel, EcoreUtils.getRoot fuel (VRef l) h
                       = EcoreUtils.getRoot_loop fuel (VRef l) h) as Hrun.
  { intros fuel. unfold EcoreUtils.getRoot.
    rewrite (bind_ok _ _ h h h) by reflexivity. cbn [truthy]. now rewrite Hl. }
  split; intros fuel Hfuel; rewrite Hrun, (getRoot_loop_top _ _ _ _ Hroot).
  - now destruct (Nat.ltb_spec n fuel); [|lia].
  - now destruct (Nat.ltb_spec n fuel); [lia|].
Qed.

Lemma getRoot_finds_the_top_witness :
  let top := mkEObject Example.A ∅ VNone None [] true in
  let mid := mkEObject Example.B ∅ (VRef 0%nat) (Some Example.A_children) [] true in
  let low := mkEObject Example.B ∅ (VRef 1%nat) (Some Example.C_part) [] true in
  let h : Heap := {[ 0%nat := HInst top; 1%nat := HInst mid; 2%nat := HInst low ]} in
  (forall fuel, (2 < fuel)%nat ->
     EcoreUtils.getRoot fuel (VRef 2%nat) h = (h, inr (Some (VRef 0%nat)))) /\
  (forall fuel, (fuel <= 2)%nat ->
     EcoreUtils.getRoot fuel (VRef 2%nat) h = (h, inr None)).
Proof.
  intros top mid low h.
  apply (getRoot_finds_the_top h 2%nat 0%nat 2%nat).
  apply (root_up _ 2%nat 1%nat 0%nat low); [reflexivity|reflexivity|].
  apply (root_up _ 1%nat 0%nat 0%nat mid); [reflexivity|reflexivity|].
  apply (root_here _ 0%nat top); reflexivity.
Defined.

Lemma getRoot_own_container (h : Heap) (a : loc) (o : EObject) :
  h !! a = Some (HInst o) -> _container o = VRef a ->
  forall fuel, EcoreUtils.getRoot fuel (VRef a) h = (h, inr None).
Proof.
  intros Ha Hc fuel. unfold EcoreUtils.getRoot.
  rewrite (bind_ok _ _ h h h) by reflexivity. cbn [truthy]. rewrite Ha. cbn [negb].
  induction fuel as [|fuel IH]; [reflexivity|].
  cbn [EcoreUtils.getRoot_loop]. unfold EcoreUtils.eContainer.
  rewrite (bind_ok _ _ h h (VRef a)).
  2:{ now rewrite (bind_ok _ _ h h o) by (unfold get_inst; now rewrite Ha); rewrite Hc. }
  now rewrite bool_decide_eq_false_2 by discriminate.
Qed.

(** X20. Nothing keeps an element from being written to its own
    containment reference: the write succeeds and makes the element its
    own container, and from then on the loop of [getRoot] on it has no
    end, whatever number of rounds it is given. *)
Theorem getRoot_has_no_end_on_own_container (h : Heap) (a : loc) (oa : EObject)
    (n : string) (feat : EStructuralFeature) :
  h !! a = Some (HInst oa) -> _isready oa = true -> reserved_name n = false ->
  findEStructuralFeature (eClass oa) n = Some feat -> many feat = false ->
  kind feat = EReference true None ->
  EcoreUtils.isinstance h (VRef a) (eType feat) = true ->
  exists h1,
    Core_setattr a n (VRef a) h = (h1, inr tt) /\
    container_of h1 a = Some (VRef a) /\
    forall fuel, EcoreUtils.getRoot fuel (VRef a) h1 = (h1, inr None).
Proof.
  intros Ha Er _ Hf Hm Hk Hty.
  assert (is_EReference feat = true) as Href by (unfold is_EReference; now rewrite Hk).
  assert (containment_of feat = true) as Hc by (unfold containment_of; now rewrite Hk).
  assert (eOpposite_of feat = None) as Ho by (unfold eOpposite_of; now rewrite Hk).
  set (oa1 := filled n (VRef a) oa).
  set (oa2 := mkEObject (eClass oa1) (slots oa1) (VRef a) (Some feat)
                        (_isset oa1) (_isready oa1)).
  set (h0 := <[a := HInst oa1]> h).
  assert (h0 !! a = Some (HInst oa1)) as Ha0 by apply lookup_insert_eq.
  exists (<[a := HInst oa2]> h0). split; [|split].
  - rewrite (setattr_reference_run h a oa n feat _ Ha Hf Hm Href Er Hty).
    rewrite stored_value_ref. fold oa1. fold h0.
    rewrite (maintain_containment_only _ _ _ _ _ _ Hc Ho).
    unfold is_EObject. rewrite Ha0. unfold set_container. now rewrite Ha0.
  - unfold container_of. now rewrite lookup_insert_eq.
  - apply (getRoot_own_container _ a oa2); [apply lookup_insert_eq|reflexivity].
Qed.

Lemma getRoot_has_no_end_on_own_container_witness :
  let oa := mkEObject Example.N ∅ VNone None [] true in
  let h : Heap := {[ 0%nat := HInst oa ]} in
  exists h1,
    Core_setattr 0%nat "child" (VRef 0%nat) h = (h1, inr tt) /\
    container_of h1 0%nat = Some (VRef 0%nat) /\
    forall fuel, EcoreUtils.getRoot fuel (VRef 0%nat) h1 = (h1, inr None).
Proof.
  intros oa h.
  apply (getRoot_has_no_end_on_own_container h 0%nat oa "child" Example.N_child);
    reflexivity.
Defined.

(** ** Enumerations *)

Lemma existsb_find {A} (p : A -> bool) (l : list A) :
  existsb p l = true <-> is_Some (List.find p l).
Proof.
  induction l as [|x l IH]; cbn.
  - split; [discriminate|]. intros [y Hy]. discriminate.
  - destruct (p x); cbn; [|assumption]. split; eauto.
Qed.

(** X21. The two ways of asking an enumeration for a literal by name
    agree: for a name that is not empty, [name in enum] holds exactly when
    [getEEnumLiteral(name)] returns a literal, and the literal returned
    bears the name and is itself [in] the enumeration.  The empty name is
    not looked up at all: it counts as no name, and the literal is sought
    by [value]. *)
Theorem getEEnumLiteral_agrees_with_contains (eLiterals : list EEnumLiteral)
    (n : string) (value : Z) :
  (n <> "" ->
   (EEnum_contains eLiterals (VStr n) = true
    <-> is_Some (getEEnumLiteral eLiterals (Some n) value)) /\
   (forall lit, getEEnumLiteral eLiterals (Some n) value = Some lit ->
                lit_name lit = n /\ EEnum_contains eLiterals (VLit lit) = true)) /\
  getEEnumLiteral eLiterals (Some "") value = getEEnumLiteral eLiterals None value /\
  (forall lit, getEEnumLiteral eLiterals None value = Some lit ->
               lit_value lit = value /\ EEnum_contains eLiterals (VLit lit) = true).
Proof.
  split; [|split; [reflexivity|]].
  - intros Hn. unfold getEEnumLiteral.
    apply String.eqb_neq in Hn. rewrite Hn. split.
    + cbn. apply existsb_find.
    + intros lit Hl. apply find_some in Hl as [Hin Hname].
      apply String.eqb_eq in Hname. split; [assumption|].
      cbn. apply bool_decide_eq_true. now apply list_elem_of_In.
  - intros lit Hl. unfold getEEnumLiteral in Hl.
    apply find_some in Hl as [Hin Hv]. apply Z.eqb_eq in Hv.
    split; [assumption|]. cbn. apply bool_decide_eq_true. now apply list_elem_of_In.
Qed.

Lemma getEEnumLiteral_agrees_with_contains_witness :
  let lits := [mkLiteral 1 0 "red"; mkLiteral 2 1 "green"] in
  (EEnum_contains lits (VStr "green") = true
   <-> is_Some (getEEnumLiteral lits (Some "green") 0)) /\
  (forall lit, getEEnumLiteral lits (Some "green") 0 = Some lit ->
               lit_name lit = "green" /\ EEnum_contains lits (VLit lit) = true).
Proof.
  intros lits.
  apply (proj1 (getEEnumLiteral_agrees_with_contains lits "green" 0)).
  discriminate.
Defined.

(** ** The command stack *)




Lemma redo_run (h : Heap) (st : CommandStack) :
  Stack.redo (h, st)
  = match py_getitem (stack st) (stack_index st + 1) with
    | inl e => ((h, st), inl e)
    | inr c =>
        match Command_.redo c h with
        | (h1, inl e) => ((h1, st), inl e)
        | (h1, inr c') => Stack.update_at (stack_index st + 1) c' (h1, st)
        end
    end.
Proof.
  unfold Stack.redo.
  rewrite (bind_ok _ _ (h, st) (h, st) st) by reflexivity.
  assert (Stack.peek_next_top (h, st)
          = ((h, st), py_getitem (stack st) (stack_index st + 1))) as Hpeek
    by reflexivity.
  destruct (py_getitem (stack st) (stack_index st + 1)) as [e|c] eqn:Ec.
  { now rewrite (bind_err _ _ _ _ _ Hpeek). }
  rewrite (bind_ok _ _ _ _ _ Hpeek).
  destruct (Command_.redo c h) as [h1 [e|c']] eqn:Er.
  - now rewrite (bind_err _ _ _ _ _ (on_heap_run _ h st h1 _ Er)).
  - now rewrite (bind_ok _ _ _ _ _ (on_heap_run _ h st h1 _ Er)).
Qed.

(** X23. [redo] never moves the cursor and never changes the length of
    the stack, whether it succeeds or raises: after it, [top] is the
    command it was before, and a second [redo] turns to the same command
    again. *)
Theorem redo_leaves_the_cursor (h : Heap) (st : CommandStack) :
  let st' := snd (fst (Stack.redo (h, st))) in
  stack_index st' = stack_index st /\ length (stack st') = length (stack st).
Proof.
  cbn zeta. rewrite redo_run.
  destruct (py_getitem (stack st) (stack_index st + 1)) as [e|c]; [now split|].
  destruct (Command_.redo c h) as [h1 [e|c']]; [now split|].
  unfold Stack.update_at, Py.bind, Stack.the_stack, Stack.set_stack, Py.ret. cbn.
  destruct (subscript (stack_index st + 1) (length (stack st))) as [k|]; [|now split].
  cbn. split; [reflexivity|]. apply length_insert.
Qed.

Lemma py_getitem_past_the_end {A} (l : list A) (i : Z) :
  Z.of_nat (length l) <= i -> py_getitem l i = inl IndexError.
Proof.
  intros H. unfold py_getitem, subscript.
  destruct (Z.ltb_spec i 0); [lia|].
  destruct (Z.leb_spec 0 i); [|lia].
  now destruct (Z.ltb_spec i (Z.of_nat (length l))); [lia|].
Qed.

(** [execute] keeps the cursor on the last command, also when it fails
    part-way. *)
Lemma execute_keeps_top (commands : list Command) :
  forall h st h' st' r,
    stack_index st + 1 = Z.of_nat (length (stack st)) ->
    Stack.execute commands (h, st) = ((h', st'), r) ->
    stack_index st' + 1 = Z.of_nat (length (stack st')).
Proof.
  induction commands as [|c commands IH]; intros h st h' st' r Htop.
  { intros [= <- <- <-]. assumption. }
  cbn [Stack.execute].
  destruct (Command_.can_execute c h) as [h1 [e|[b c1]]] eqn:Ec.
  { rewrite (bind_err _ _ _ _ _ (on_heap_run _ h st h1 _ Ec)).
    intros [= <- <- <-]. assumption. }
  rewrite (bind_ok _ _ _ _ _ (on_heap_run _ h st h1 _ Ec)). cbn [fst snd].
  destruct b.
  - destruct (Command_.execute c1 h1) as [h2 [e|c2]] eqn:Ee.
    { rewrite (bind_err _ _ _ _ _ (on_heap_run _ h1 st h2 _ Ee)).
      intros [= <- <- <-]. assumption. }
    rewrite (bind_ok _ _ _ _ _ (on_heap_run _ h1 st h2 _ Ee)).
    destruct (set_top_grows c2 h2 st) as [st2 [Hs [Hlen Hidx]]].
    rewrite (bind_ok _ _ _ _ _ Hs). apply IH. rewrite Hidx, Hlen. lia.
  - unfold Py.bind, Py.lift, Py.raise.
    destruct (Command_.repr c1); intros [= <- <- <-]; assumption.
Qed.

(** X24. As long as nothing has been undone the cursor is on the last
    command of the stack: [execute] keeps it there, also when one of its
    commands cannot be executed or raises.  With the cursor there, [redo]
    raises [IndexError] and changes nothing. *)
Theorem redo_with_nothing_undone (commands : list Command) (h : Heap)
    (st : CommandStack) :
  stack_index st + 1 = Z.of_nat (length (stack st)) ->
  let s' := fst (Stack.execute commands (h, st)) in
  stack_index (snd s') + 1 = Z.of_nat (length (stack (snd s'))) /\
  Stack.redo s' = (s', inl IndexError).
Proof.
  intros Htop.
  destruct (Stack.execute commands (h, st)) as [[h' st'] r] eqn:He. cbn [fst snd].
  pose proof (execute_keeps_top commands h st h' st' r Htop He) as Htop'.
  split; [assumption|].
  rewrite redo_run. now rewrite py_getitem_past_the_end by lia.
Qed.

Lemma redo_with_nothing_undone_witness :
  let h : Heap := {[ 0%nat := HInst (mkEObject Example.P ∅ VNone None [] true) ]} in
  let c := mkCommand SetCmd (VRef 0%nat) (FName "name") (VStr "x") VNone
                     None None None None None in
  let s' := fst (Stack.execute [Prim c] (h, Stack.init)) in
  stack_index (snd s') + 1 = Z.of_nat (length (stack (snd s'))) /\
  Stack.redo s' = (s', inl IndexError).
Proof.
  intros h c.
  apply (redo_with_nothing_undone [Prim c] h Stack.init). reflexivity.
Defined.

(** ** The commands *)

Lemma owner_eClass_run (h : Heap) (self : loc) (o : EObject) :
  h !! self = Some (HInst o) -> Cmd.owner_eClass (VRef self) h = (h, inr (eClass o)).
Proof.
  intros Hs. unfold Cmd.owner_eClass. rewrite (bind_ok _ _ h h h) by reflexivity.
  cbn. now rewrite Hs.
Qed.

(** X25. A [Set] on a name that is no feature of the owner's class.
    [can_execute] answers false and leaves [None] in the command's
    [feature]; asked again, it raises [AttributeError].  [execute] of the
    stack does not get to raise its [ValueError]: building the message
    reads [feature.name] of the command and raises [AttributeError].  For
    a [Set] on a many-valued feature the [ValueError] is raised.  Store and
    stack are unchanged in both cases. *)
Theorem execute_of_a_Set_that_cannot_run (h : Heap) (st : CommandStack) (self : loc)
    (o : EObject) (n : string) (v : Value) :
  h !! self = Some (HInst o) ->
  let c := mkCommand SetCmd (VRef self) (FName n) v VNone None None None None None in
  Cmd.Set_ (VRef self) (FName n) v h = (h, inr c) /\
  (findEStructuralFeature (eClass o) n = None ->
   Cmd.Set_can_execute c h = (h, inr (false, Cmd.with_feature FNone c)) /\
   Cmd.Set_can_execute (Cmd.with_feature FNone c) h = (h, inl AttributeError) /\
   Stack.execute [Prim c] (h, st) = ((h, st), inl AttributeError)) /\
  (forall feat, findEStructuralFeature (eClass o) n = Some feat -> many feat = true ->
   Stack.execute [Prim c] (h, st) = ((h, st), inl ValueError)).
Proof.
  intros Hs c. split; [apply (init_run SetCmd self (FName n) v h o Hs)|].
  pose proof (owner_eClass_run h self o Hs) as Hcls.
  split.
  - intros Hnone.
    assert (Cmd.Set_can_execute c h = (h, inr (false, Cmd.with_feature FNone c))) as H1.
    { unfold Cmd.Set_can_execute.
      rewrite (bind_ok _ _ h h (false, Cmd.with_feature FNone c)); [reflexivity|].
      unfold Cmd.can_execute_base. cbn [owner feature c].
      rewrite (bind_ok _ _ _ _ _ Hcls). now rewrite Hnone. }
    split; [exact H1|]. split.
    + unfold Cmd.Set_can_execute. apply bind_err.
      unfold Cmd.can_execute_base. cbn [owner feature c Cmd.with_feature].
      now rewrite (bind_ok _ _ _ _ _ Hcls).
    + cbn [Stack.execute].
      rewrite (bind_ok _ _ (h, st) (h, st) (false, Prim (Cmd.with_feature FNone c))).
      2:{ apply on_heap_run. cbn [Command_.can_execute].
          unfold Cmd.prim_can_execute. cbn [cls c].
          now rewrite (bind_ok _ _ _ _ _ H1). }
      reflexivity.
  - intros feat Hf Hm. cbn [Stack.execute].
    rewrite (bind_ok _ _ (h, st) (h, st) (false, Prim (Cmd.with_feature (FObj feat) c))).
    2:{ apply on_heap_run. cbn [Command_.can_execute].
        unfold Cmd.prim_can_execute. cbn [cls c].
        rewrite (bind_ok _ _ h h (false, Cmd.with_feature (FObj feat) c)); [reflexivity|].
        unfold Cmd.Set_can_execute.
        rewrite (bind_ok _ _ h h (true, Cmd.with_feature (FObj feat) c)).
        - cbn. now rewrite Hm.
        - unfold Cmd.can_execute_base. cbn [owner feature c].
          rewrite (bind_ok _ _ _ _ _ Hcls). now rewrite Hf. }
    reflexivity.
Qed.

Lemma execute_of_a_Set_that_cannot_run_witness :
  let o := mkEObject Example.P ∅ VNone None [] true in
  let h : Heap := {[ 0%nat := HInst o ]} in
  let c := mkCommand SetCmd (VRef 0%nat) (FName "nmae") (VStr "x") VNone
                     None None None None None in
  Cmd.Set_ (VRef 0%nat) (FName "nmae") (VStr "x") h = (h, inr c) /\
  (findEStructuralFeature (eClass o) "nmae" = None ->
   Cmd.Set_can_execute c h = (h, inr (false, Cmd.with_feature FNone c)) /\
   Cmd.Set_can_execute (Cmd.with_feature FNone c) h = (h, inl AttributeError) /\
   Stack.execute [Prim c] (h, Stack.init) = ((h, Stack.init), inl AttributeError)) /\
  (forall feat, findEStructuralFeature (eClass o) "nmae" = Some feat -> many feat = true ->
   Stack.execute [Prim c] (h, Stack.init) = ((h, Stack.init), inl ValueError)).
Proof.
  intros o h c.
  apply (execute_of_a_Set_that_cannot_run h Stack.init 0%nat o "nmae" (VStr "x")).
  reflexivity.
Defined.

Lemma Move_rule (from : option Z) (v : Value) :
  Bool.eqb (bool_decide (from <> None)) (bool_decide (v <> VNone)) = true
  <-> (from = None <-> v = VNone).
Proof.
  destruct (decide (from = None)) as [Hf|Hf], (decide (v = VNone)) as [Hv|Hv].
  - rewrite !bool_decide_eq_false_2 by tauto. cbn. tauto.
  - rewrite (bool_decide_eq_false_2 (from <> None)) by tauto.
    rewrite (bool_decide_eq_true_2 (v <> VNone)) by tauto. cbn.
    split; [discriminate|tauto].
  - rewrite (bool_decide_eq_true_2 (from <> None)) by tauto.
    rewrite (bool_decide_eq_false_2 (v <> VNone)) by tauto. cbn.
    split; [discriminate|tauto].
  - rewrite !bool_decide_eq_true_2 by tauto. cbn. tauto.
Qed.

(** X26. The constructor of [Move].  An owner that is true and is no
    model element makes it raise [NameError]: the guard of
    [AbstractCommand] means to raise [BadValueError], a name commands.py
    does not import.  With a model element as owner, it raises
    [ValueError] exactly when [from_index] and [value] are both given or
    both missing, and otherwise returns the command; [to_index] is not
    looked at. *)
Theorem Move_takes_from_index_or_value (h : Heap) (self : loc) (o : EObject)
    (s : string) (f : FeatureArg) (from to : option Z) (v : Value) :
  h !! self = Some (HInst o) -> s <> "" ->
  Cmd.Move (VStr s) f from to v h = (h, inl NameError) /\
  (Cmd.Move (VRef self) f from to v h = (h, inl ValueError)
   <-> (from = None <-> v = VNone)) /\
  (~ (from = None <-> v = VNone) ->
   Cmd.Move (VRef self) f from to v h
   = (h, inr (mkCommand MoveCmd (VRef self) f v VNone None from to None None))).
Proof.
  intros Hs Hne. split; [|split].
  - unfold Cmd.Move. apply bind_err. unfold Cmd.init.
    rewrite (bind_ok _ _ h h h) by reflexivity. cbn.
    apply String.eqb_neq in Hne. now rewrite Hne.
  - unfold Cmd.Move. rewrite (bind_ok _ _ _ _ _ (init_run MoveCmd self f v h o Hs)).
    rewrite <- Move_rule.
    destruct (Bool.eqb _ _); split; try reflexivity; discriminate.
  - intros Hiff. unfold Cmd.Move.
    rewrite (bind_ok _ _ _ _ _ (init_run MoveCmd self f v h o Hs)).
    rewrite <- Move_rule in Hiff.
    now destruct (Bool.eqb _ _).
Qed.

Lemma Move_takes_from_index_or_value_witness :
  let o := mkEObject Example.P ∅ VNone None [] true in
  let h : Heap := {[ 0%nat := HInst o ]} in
  Cmd.Move (VStr "p") (FName "items") (Some 0) (Some 1) (VStr "x") h = (h, inl NameError) /\
  (Cmd.Move (VRef 0%nat) (FName "items") (Some 0) (Some 1) (VStr "x") h
   = (h, inl ValueError)
   <-> (Some 0 = None <-> VStr "x" = VNone)) /\
  (~ (Some 0 = None <-> VStr "x" = VNone) ->
   Cmd.Move (VRef 0%nat) (FName "items") (Some 0) (Some 1) (VStr "x") h
   = (h, inr (mkCommand MoveCmd (VRef 0%nat) (FName "items") (VStr "x") VNone None
                (Some 0) (Some 1) None None))).
Proof.
  intros o h.
  apply (Move_takes_from_index_or_value h 0%nat o "p" (FName "items")
           (Some 0) (Some 1) (VStr "x")); [reflexivity|discriminate].
Defined.

Lemma with_data_data (c : ECollection) : with_data c (data c) = c.
Proof. now destruct c. Qed.

(** [insert(k, v)] and then [pop(k)] on the contents of a collection. *)
Lemma data_insert_pop (k : nat) (v : Value) (d : CollData) :
  (k <= length (elements_of d))%nat ->
  match d with
  | EList _ => True
  | ESet _ => False
  | EOrderedSet s => ordered_set.contains v s = false
  end ->
  exists d1,
    Seq.data_insert (Some (Z.of_nat k)) v d = (d1, inr tt) /\
    elements_of d1 = py_insert (Z.of_nat k) v (elements_of d) /\
    Seq.data_pop (Some (Z.of_nat k)) d1 = (d, inr v).
Proof.
  intros Hk Hd. destruct d as [l|l|s]; [|contradiction|].
  - exists (EList (py_insert (Z.of_nat k) v l)). cbn.
    split; [reflexivity|]. split; [reflexivity|].
    now rewrite py_pop_insert.
  - exists (EOrderedSet (ordered_set.insert (Z.of_nat k) v s)).
    cbn [elements_of] in *. split; [|split].
    + cbn [Seq.data_insert]. now rewrite Hd.
    + now apply insert_items.
    + cbn [Seq.data_pop]. now rewrite pop_insert_same.
Qed.

(** X27. Putting a value into a collection at a position and taking it
    out at the same position are inverse to each other, on a list and on an
    ordered set that does not hold the value: [Add.redo] followed by
    [Add.undo] gives back the store as it was, and so does [Remove.undo]
    followed by [Remove.redo]. *)
Theorem redo_and_undo_are_inverse (h : Heap) (cl : loc) (c0 : ECollection)
    (c : AbstractCommand) (k : nat) :
  h !! cl = Some (HColl c0) ->
  _collection c = Some (VRef cl) -> index c = Some (Z.of_nat k) ->
  (k <= length (elements_of (data c0)))%nat ->
  match data c0 with
  | EList _ => True
  | ESet _ => False
  | EOrderedSet s => ordered_set.contains (value c) s = false
  end ->
  exists h1,
    Cmd.Add_redo c h = (h1, inr c) /\
    elements_of <$> data_of h1 cl
    = Some (py_insert (Z.of_nat k) (value c) (elements_of (data c0))) /\
    Cmd.Add_undo c h1 = (h, inr c) /\
    Cmd.Remove_undo c h = (h1, inr c) /\
    Cmd.Remove_redo c h1 = (h, inr c).
Proof.
  intros Hcl Hcoll Hidx Hk Hd.
  destruct (data_insert_pop k (value c) (data c0) Hk Hd) as [d1 [Hins [Hel Hpop]]].
  set (h1 := <[cl := HColl (with_data c0 d1)]> h).
  assert (h1 !! cl = Some (HColl (with_data c0 d1))) as Hcl1 by apply lookup_insert_eq.
  assert (Seq.insert (VRef cl) (Some (Z.of_nat k)) (value c) h = (h1, inr tt)) as Hi.
  { unfold Seq.insert. rewrite (bind_ok _ _ h h h) by reflexivity.
    cbn [is_ECollection]. rewrite Hcl. rewrite (on_data_run h cl c0 Hcl).
    now rewrite Hins. }
  assert (Seq.pop (VRef cl) (Some (Z.of_nat k)) h1 = (h, inr (value c))) as Hp.
  { unfold Seq.pop. rewrite (bind_ok _ _ h1 h1 h1) by reflexivity.
    cbn [is_ECollection]. rewrite Hcl1.
    rewrite (on_data_run h1 cl _ Hcl1). cbn [data with_data]. rewrite Hpop.
    cbn [fst snd]. unfold h1, with_data. cbn [_owner _efeature].
    rewrite insert_insert_eq. fold (with_data c0 (data c0)).
    rewrite with_data_data. now rewrite insert_id. }
  exists h1. split; [|split; [|split; [|split]]].
  - unfold Cmd.Add_redo. rewrite Hcoll, Hidx. cbn [Cmd.attr].
    rewrite (bind_ok _ _ h h (VRef cl)) by reflexivity.
    now rewrite (bind_ok _ _ _ _ _ Hi).
  - unfold data_of. rewrite Hcl1. cbn. now rewrite Hel.
  - unfold Cmd.Add_undo. rewrite Hcoll, Hidx. cbn [Cmd.attr].
    rewrite (bind_ok _ _ h1 h1 (VRef cl)) by reflexivity.
    now rewrite (bind_ok _ _ _ _ _ Hp).
  - unfold Cmd.Remove_undo. rewrite Hcoll, Hidx. cbn [Cmd.attr].
    rewrite (bind_ok _ _ h h (VRef cl)) by reflexivity.
    now rewrite (bind_ok _ _ _ _ _ Hi).
  - unfold Cmd.Remove_redo. rewrite Hcoll, Hidx. cbn [Cmd.attr].
    rewrite (bind_ok _ _ h1 h1 (VRef cl)) by reflexivity.
    now rewrite (bind_ok _ _ _ _ _ Hp).
Qed.

Lemma redo_and_undo_are_inverse_witness :
  let c0 := mkECollection 0%nat Example.P_tags
              (EOrderedSet (ordered_set.add (VStr "a") ordered_set.empty)) in
  let h : Heap := {[ 1%nat := HColl c0 ]} in
  let c := mkCommand AddCmd (VRef 0%nat) (FObj Example.P_tags) (VStr "z") VNone
                     (Some 0) None None (Some (VRef 1%nat)) (Some true) in
  exists h1,
    Cmd.Add_redo c h = (h1, inr c) /\
    elements_of <$> data_of h1 1%nat
    = Some (py_insert (Z.of_nat 0) (value c) (elements_of (data c0))) /\
    Cmd.Add_undo c h1 = (h, inr c) /\
    Cmd.Remove_undo c h = (h1, inr c) /\
    Cmd.Remove_redo c h1 = (h, inr c).
Proof.
  intros c0 h c.
  apply (redo_and_undo_are_inverse h 1%nat c0 c 0%nat); try reflexivity.
  cbn. lia.
Defined.

(** X28. [undo] of the stack says nothing when the command on top
    cannot be undone.  For an executed [Add] whose value is no longer in
    the collection, [can_undo] is false: [undo] returns without an
    exception and leaves the store, the stack and the cursor as they were,
    so every further [undo] meets the same command. *)
Theorem undo_of_a_vanished_Add_does_nothing (h : Heap) (st : CommandStack)
    (c : AbstractCommand) (cl : loc) (c0 : ECollection) :
  py_getitem (stack st) (stack_index st) = inr (Prim c) ->
  cls c = AddCmd -> _executed c = Some true -> _collection c = Some (VRef cl) ->
  h !! cl = Some (HColl c0) -> data_contains (value c) (data c0) = false ->
  Command_.can_undo (Prim c) h = (h, inr false) /\
  Stack.undo (h, st) = ((h, st), inr tt).
Proof.
  intros Htop Hcls Hex Hcoll Hcl Hnot.
  assert (Command_.can_undo (Prim c) h = (h, inr false)) as Hcan.
  { cbn [Command_.can_undo]. unfold Cmd.prim_can_undo. rewrite Hcls.
    unfold Cmd.Add_can_undo, Cmd.can_undo_base. rewrite Hex, Hcoll. cbn [Cmd.attr].
    rewrite (bind_ok _ _ h h true) by reflexivity.
    rewrite (bind_ok _ _ h h (VRef cl)) by reflexivity.
    unfold Seq.contains. rewrite (bind_ok _ _ h h h) by reflexivity.
    rewrite Hcl. unfold data_contains in Hnot.
    destruct (data c0); now rewrite Hnot. }
  split; [exact Hcan|].
  assert (Stack.top (h, st) = ((h, st), inr (Prim c))) as Ht.
  { unfold Stack.top, Py.bind, Stack.the_stack, Py.lift. cbn. now rewrite Htop. }
  unfold Stack.undo. rewrite (bind_ok _ _ (h, st) (h, st) st) by reflexivity.
  destruct (stack st) as [|c1 rest] eqn:Est.
  { unfold py_getitem, subscript in Htop. cbn in Htop.
    destruct (stack_index st <? 0); cbn in Htop;
      destruct (_ && _); discriminate. }
  rewrite (bind_ok _ _ _ _ _ Ht).
  now rewrite (bind_ok _ _ _ _ _ (on_heap_run _ h st h _ Hcan)).
Qed.

Lemma undo_of_a_vanished_Add_does_nothing_witness :
  let c0 := mkECollection 0%nat Example.P_items (EList []) in
  let h : Heap := {[ 1%nat := HColl c0 ]} in
  let c := mkCommand AddCmd (VRef 0%nat) (FObj Example.P_items) (VStr "x") VNone
                     (Some 0) None None (Some (VRef 1%nat)) (Some true) in
  let st := mkStack [Prim c] 0 in
  Command_.can_undo (Prim c) h = (h, inr false) /\
  Stack.undo (h, st) = ((h, st), inr tt).
Proof.
  intros c0 h c st.
  apply (undo_of_a_vanished_Add_does_nothing h st c 1%nat c0); reflexivity.
Defined.

(** Like [insert], the other two changing operations of a [Compound]
    fail on every compound the constructor makes: a tuple has neither
    [__setitem__] nor [__delitem__]. *)
Lemma Compound_setitem_and_delitem_raise (commands : list Command) (index : Z)
    (item : Command) :
  Compound_.setitem (Compound_.init commands) index item = inl AttributeError /\
  Compound_.delitem (Compound_.init commands) index = inl AttributeError.
Proof. split; reflexivity. Qed.

(** ** The order in which a compound runs its children *)








Lemma undo_run (h : Heap) (st : CommandStack) :
  Stack.undo (h, st)
  = match stack st with
    | [] => ((h, st), inl ValueError)
    | _ =>
        match py_getitem (stack st) (stack_index st) with
        | inl e => ((h, st), inl e)
        | inr c =>
            match Command_.can_undo c h with
            | (h1, inl e) => ((h1, st), inl e)
            | (h1, inr false) => ((h1, st), inr tt)
            | (h1, inr true) =>
                match Command_.undo c h1 with
                | (h2, inl e) => ((h2, st), inl e)
                | (h2, inr c') =>
                    (Stack.update_at (stack_index st) c' ;; Stack.del_top) (h2, st)
                end
            end
        end
    end.
Proof.
  unfold Stack.undo. rewrite (bind_ok _ _ (h, st) (h, st) st) by reflexivity.
  destruct (stack st) as [|c0 rest] eqn:Est; [reflexivity|]. rewrite <- Est.
  assert (forall h0, Stack.top (h0, st)
                     = ((h0, st), py_getitem (stack st) (stack_index st))) as Htop
    by reflexivity.
  destruct (py_getitem (stack st) (stack_index st)) as [e|c] eqn:Ec.
  { now rewrite (bind_err _ _ _ _ _ (Htop h)). }
  rewrite (bind_ok _ _ _ _ _ (Htop h)).
  destruct (Command_.can_undo c h) as [h1 [e|[|]]] eqn:Ecan.
  - now rewrite (bind_err _ _ _ _ _ (on_heap_run _ h st h1 _ Ecan)).
  - rewrite (bind_ok _ _ _ _ _ (on_heap_run _ h st h1 _ Ecan)).
    rewrite (bind_ok _ _ _ _ _ (Htop h1)).
    destruct (Command_.undo c h1) as [h2 [e|c']] eqn:Eu.
    + now rewrite (bind_err _ _ _ _ _ (on_heap_run _ h1 st h2 _ Eu)).
    + now rewrite (bind_ok _ _ _ _ _ (on_heap_run _ h1 st h2 _ Eu)).
  - now rewrite (bind_ok _ _ _ _ _ (on_heap_run _ h st h1 _ Ecan)).
Qed.

(** X30. [undo] never changes the length of the stack: an undone
    command stays where it is, for [redo].  When the command on top can be
    undone and its [undo()] returns, the cursor moves down by exactly one,
    the command is at its position as the call left it, and [undo] returns
    normally.  When [can_undo] is false the call returns normally and stack
    and cursor are as they were; when the call raises, the cursor is where
    it was. *)
Theorem undo_keeps_the_commands (h : Heap) (st : CommandStack) :
  let s' := Stack.undo (h, st) in
  length (stack (snd (fst s'))) = length (stack st) /\
  (forall e, snd s' = inl e -> stack_index (snd (fst s')) = stack_index st) /\
  (forall c h1,
     py_getitem (stack st) (stack_index st) = inr c ->
     Command_.can_undo c h = (h1, inr false) ->
     s' = ((h1, st), inr tt)) /\
  (forall c h1 h2 c',
     py_getitem (stack st) (stack_index st) = inr c ->
     Command_.can_undo c h = (h1, inr true) ->
     Command_.undo c h1 = (h2, inr c') ->
     exists k,
       subscript (stack_index st) (length (stack st)) = Some k /\
       s' = ((h2, mkStack (<[k := c']> (stack st)) (stack_index st - 1)), inr tt)).
Proof.
  cbn zeta.
  assert (forall c, py_getitem (stack st) (stack_index st) = inr c ->
                    exists k, subscript (stack_index st) (length (stack st)) = Some k
                              /\ stack st <> []) as Htop.
  { intros c Hc. unfold py_getitem in Hc.
    destruct (subscript (stack_index st) (length (stack st))) as [k|] eqn:Ek;
      [|discriminate].
    exists k. split; [reflexivity|]. intros E. rewrite E in Hc.
    now rewrite lookup_nil in Hc. }
  assert (forall (A : Type) (a b : A), stack st <> [] ->
            match stack st with [] => a | _ :: _ => b end = b) as Hnz
    by (intros A a b Hne; destruct (stack st); congruence).
  rewrite undo_run. split; [|split; [|split]].
  - destruct (stack st) as [|c0 rest] eqn:Est; [cbn; now rewrite Est|].
    rewrite <- Est.
    destruct (py_getitem (stack st) (stack_index st)) as [e|c]; [reflexivity|].
    destruct (Command_.can_undo c h) as [h1 [e|[|]]]; try reflexivity.
    destruct (Command_.undo c h1) as [h2 [e|c']]; [reflexivity|].
    unfold Stack.update_at, Stack.del_top, Py.bind, Stack.the_stack, Stack.set_stack,
      Py.ret. cbn.
    destruct (subscript (stack_index st) (length (stack st))) as [j|]; cbn;
      [apply length_insert|reflexivity].
  - intros e. destruct (stack st) as [|c0 rest] eqn:Est; [reflexivity|].
    rewrite <- Est.
    destruct (py_getitem (stack st) (stack_index st)) as [e'|c]; [reflexivity|].
    destruct (Command_.can_undo c h) as [h1 [e'|[|]]]; try reflexivity.
    destruct (Command_.undo c h1) as [h2 [e'|c']]; [reflexivity|].
    unfold Stack.update_at, Stack.del_top, Py.bind, Stack.the_stack, Stack.set_stack,
      Py.ret. cbn.
    destruct (subscript (stack_index st) (length (stack st))) as [j|]; cbn; discriminate.
  - intros c h1 Hc Hcan. destruct (Htop c Hc) as [k [_ Hne]].
    rewrite (Hnz _ _ _ Hne). now rewrite Hc, Hcan.
  - intros c h1 h2 c' Hc Hcan Hun. destruct (Htop c Hc) as [k [Hk Hne]].
    exists k. split; [assumption|].
    rewrite (Hnz _ _ _ Hne). rewrite Hc, Hcan, Hun.
    rewrite (bind_ok _ _ _ _ _ (update_at_run (stack_index st) k c' h2 st Hk)).
    reflexivity.
Qed.

Lemma undo_keeps_the_commands_witness :
  let c0 := mkECollection 0%nat Example.P_items (EList [VStr "x"]) in
  let h : Heap := {[ 1%nat := HColl c0 ]} in
  let c := mkCommand AddCmd (VRef 0%nat) (FObj Example.P_items) (VStr "x") VNone
                     (Some 0) None None (Some (VRef 1%nat)) (Some true) in
  let st := mkStack [Prim c] 0 in
  let h2 : Heap := {[ 1%nat := HColl (with_data c0 (EList [])) ]} in
  exists k,
    subscript (stack_index st) (length (stack st)) = Some k /\
    Stack.undo (h, st)
    = ((h2, mkStack (<[k := Prim c]> (stack st)) (stack_index st - 1)), inr tt).
Proof.
  intros c0 h c st h2.
  apply (proj2 (proj2 (proj2 (undo_keeps_the_commands h st))) (Prim c) h h2 (Prim c));
    now vm_compute.
Defined.
